(** * Multi-tenant routing core of the GoHighLevel MCP server

    A shallow embedding of the tenant store, the tenant resolver, the API
    client factory, the tenant configuration manager, the per-tenant rate
    limiter and the tool base class, followed by the properties established
    about them.

    Conventions of the embedding:
    - a JavaScript string is a [string]: the strings covered are those whose
      UTF-16 code units are below 256, and [charCodeAt] is the character's
      code; where the encoding of a string as bytes matters (the credential
      cipher), a string is the list of its 16-bit code units;
    - a [Date] is its epoch time in milliseconds, a [Z]; every [new Date()] or
      [Date.now()] of the source is an explicit clock argument;
    - a thrown [Error] is the [Throw] branch of [Result];
    - sources of randomness (the IV, the id suffix) are explicit arguments;
    - a JavaScript [Map] whose iteration order is observable (the client
      cache) is an association list in insertion order, the others are
      [gmap]s. *)

From Stdlib Require Import ZArith List String Ascii Strings.Byte Bool Lia DecimalString.
From Stdlib Require DecimalZ.
From stdpp Require Import base option gmap strings list.

Local Open Scope string_scope.
Local Open Scope Z_scope.

(** ** Errors and results *)

Inductive Error :=
| TenantNotFound (tenantId : string)
| StoreReadOnly
| TenantAlreadyExists (tenantId : string)
| TenantNameRequired
| ApiKeyRequired
| LocationIdRequired
| TenantIdFormat
| ApiKeyAndLocationRequired
| InvalidTenantConfiguration
| CannotDeleteDefault
| NoApiClientAvailable.

(** The message carried by the JavaScript [Error]. *)
Definition message (e : Error) : string :=
  match e with
  | TenantNotFound t => "Tenant " ++ t ++ " not found"
  | StoreReadOnly => "EnvVarTenantStore is read-only"
  | TenantAlreadyExists t => "Tenant " ++ t ++ " already exists"
  | TenantNameRequired => "Tenant name is required"
  | ApiKeyRequired => "API key is required"
  | LocationIdRequired => "Location ID is required"
  | TenantIdFormat =>
      "Tenant ID must contain only alphanumeric characters, hyphens, and underscores"
  | ApiKeyAndLocationRequired => "API key and location ID are required"
  | InvalidTenantConfiguration => "Invalid tenant configuration"
  | CannotDeleteDefault => "Cannot delete default tenant"
  | NoApiClientAvailable =>
      "No API client available. Either provide a client in constructor or ensure request context is set."
  end.

Inductive Result (A : Type) :=
| Ok (a : A)
| Throw (e : Error).
Arguments Ok {A} a.
Arguments Throw {A} e.

Definition bind {A B} (r : Result A) (k : A -> Result B) : Result B :=
  match r with
  | Ok a => k a
  | Throw e => Throw e
  end.

Notation "'let!' x ':=' r 'in' k" := (bind r (fun x => k))
  (at level 10, x name, r at level 200, k at level 200).

(** ** JavaScript truthiness of the values the code tests *)

Definition truthy (s : string) : bool := negb (String.eqb s "").

Definition truthy_opt (o : option string) : bool :=
  match o with
  | Some s => truthy s
  | None => false
  end.

(** [a || b] on an optional string with a string default. *)
Definition or_default (o : option string) (d : string) : string :=
  match o with
  | Some s => if truthy s then s else d
  | None => d
  end.

(** ** Tenant records (storage/tenant-store.ts) *)

Definition Settings := list (string * string).

Module TenantConfig.
Record t := mk {
    tenantId : string;
    name : string;
    apiKey : string;
    locationId : string;
    baseUrl : option string;
    version : option string;
    settings : option Settings;
    createdAt : Z;
    updatedAt : Z;
    isActive : bool
  }.
End TenantConfig.

(** [Omit<TenantConfig, 'createdAt' | 'updatedAt'>] *)
Module CreateConfig.
Record t := mk {
    tenantId : string;
    name : string;
    apiKey : string;
    locationId : string;
    baseUrl : option string;
    version : option string;
    settings : option Settings;
    isActive : bool
  }.
End CreateConfig.

(** [Partial<TenantConfig>]: a field is present or absent. *)
Module PartialConfig.
Record t := mk {
    tenantId : option string;
    name : option string;
    apiKey : option string;
    locationId : option string;
    baseUrl : option string;
    version : option string;
    settings : option Settings;
    createdAt : option Z;
    updatedAt : option Z;
    isActive : option bool
  }.

Definition empty : t := mk None None None None None None None None None None.
End PartialConfig.

Definition override {A} (old : A) (new : option A) : A :=
  match new with
  | Some a => a
  | None => old
  end.

Definition override_opt {A} (old : option A) (new : option A) : option A :=
  match new with
  | Some a => Some a
  | None => old
  end.

(** The object spread [{ ...existing, ...config }]. *)
Definition spread (existing : TenantConfig.t) (config : PartialConfig.t) : TenantConfig.t :=
  TenantConfig.mk
    (override (TenantConfig.tenantId existing) (PartialConfig.tenantId config))
    (override (TenantConfig.name existing) (PartialConfig.name config))
    (override (TenantConfig.apiKey existing) (PartialConfig.apiKey config))
    (override (TenantConfig.locationId existing) (PartialConfig.locationId config))
    (override_opt (TenantConfig.baseUrl existing) (PartialConfig.baseUrl config))
    (override_opt (TenantConfig.version existing) (PartialConfig.version config))
    (override_opt (TenantConfig.settings existing) (PartialConfig.settings config))
    (override (TenantConfig.createdAt existing) (PartialConfig.createdAt config))
    (override (TenantConfig.updatedAt existing) (PartialConfig.updatedAt config))
    (override (TenantConfig.isActive existing) (PartialConfig.isActive config)).

(** [const { createdAt, updatedAt, ...createConfig } = newTenant] *)
Definition without_dates (c : TenantConfig.t) : CreateConfig.t :=
  CreateConfig.mk (TenantConfig.tenantId c) (TenantConfig.name c)
    (TenantConfig.apiKey c) (TenantConfig.locationId c) (TenantConfig.baseUrl c)
    (TenantConfig.version c) (TenantConfig.settings c) (TenantConfig.isActive c).

(** [{ ...config, createdAt: now, updatedAt: now }] *)
Definition stamped (c : CreateConfig.t) (now : Z) : TenantConfig.t :=
  TenantConfig.mk (CreateConfig.tenantId c) (CreateConfig.name c)
    (CreateConfig.apiKey c) (CreateConfig.locationId c) (CreateConfig.baseUrl c)
    (CreateConfig.version c) (CreateConfig.settings c) now now
    (CreateConfig.isActive c).

(** *** InMemoryTenantStore *)

Module InMemoryTenantStore.
Definition get (tenants : gmap string TenantConfig.t) (tenantId : string)
    : option TenantConfig.t :=
    tenants !! tenantId.

Definition create (tenants : gmap string TenantConfig.t) (config : CreateConfig.t)
      (now : Z) : Result (gmap string TenantConfig.t * TenantConfig.t) :=
    let tenant := stamped config now in
    Ok (<[TenantConfig.tenantId tenant := tenant]> tenants, tenant).

Definition update (tenants : gmap string TenantConfig.t) (tenantId : string)
      (config : PartialConfig.t) (now : Z)
    : Result (gmap string TenantConfig.t * TenantConfig.t) :=
    match get tenants tenantId with
    | None => Throw (TenantNotFound tenantId)
    | Some existing =>
        let merged := spread existing config in
        let updated :=
          TenantConfig.mk
            (TenantConfig.tenantId existing)
            (TenantConfig.name merged) (TenantConfig.apiKey merged)
            (TenantConfig.locationId merged) (TenantConfig.baseUrl merged)
            (TenantConfig.version merged) (TenantConfig.settings merged)
            (TenantConfig.createdAt existing)
            now
            (TenantConfig.isActive merged) in
        Ok (<[tenantId := updated]> tenants, updated)
    end.

Definition delete (tenants : gmap string TenantConfig.t) (tenantId : string)
    : gmap string TenantConfig.t * bool :=
    (base.delete tenantId tenants, bool_decide (is_Some (tenants !! tenantId))).

Definition exists_ (tenants : gmap string TenantConfig.t) (tenantId : string) : bool :=
    bool_decide (is_Some (tenants !! tenantId)).
(** [Array.from(this.tenants.values())]; the records come in the key
    order of the map, where the source has them in insertion order. *)
Definition getAll (tenants : gmap string TenantConfig.t) : list TenantConfig.t :=
    List.map snd (map_to_list tenants).
End InMemoryTenantStore.

(** *** EnvVarTenantStore *)

Module EnvVarTenantStore.
  (** The constructor, from the three environment variables and the clock. *)
Definition new (GHL_API_KEY GHL_LOCATION_ID GHL_BASE_URL : option string) (now : Z)
    : option TenantConfig.t :=
    if truthy_opt GHL_API_KEY && truthy_opt GHL_LOCATION_ID then
      Some (TenantConfig.mk "default" "Default Tenant"
              (or_default GHL_API_KEY "") (or_default GHL_LOCATION_ID "")
              (Some (or_default GHL_BASE_URL "https://services.leadconnectorhq.com"))
              (Some "2021-07-28") None now now true)
    else None.

Definition get (defaultTenant : option TenantConfig.t) (tenantId : string)
    : option TenantConfig.t :=
    if String.eqb tenantId "default" then defaultTenant else None.

Definition exists_ (defaultTenant : option TenantConfig.t) (tenantId : string) : bool :=
    String.eqb tenantId "default" && bool_decide (is_Some defaultTenant).
Definition getAll (defaultTenant : option TenantConfig.t) : list TenantConfig.t :=
    match defaultTenant with
    | Some t => [t]
    | None => []
    end.
End EnvVarTenantStore.

(** *** The store interface and CompositeTenantStore

    The three classes implementing [TenantStore]; the functions below
    dispatch on the class, and the [Composite] case is
    [CompositeTenantStore]. *)

Inductive TenantStore :=
| InMemory (tenants : gmap string TenantConfig.t)
| EnvVar (defaultTenant : option TenantConfig.t)
| Composite (primaryStore fallbackStore : TenantStore).

Module Store.
Fixpoint get (s : TenantStore) (tenantId : string) : option TenantConfig.t :=
    match s with
    | InMemory tenants => InMemoryTenantStore.get tenants tenantId
    | EnvVar d => EnvVarTenantStore.get d tenantId
    | Composite p f =>
        match get p tenantId with
        | Some primary => Some primary
        | None => get f tenantId
        end
    end.

Fixpoint exists_ (s : TenantStore) (tenantId : string) : bool :=
    match s with
    | InMemory tenants => InMemoryTenantStore.exists_ tenants tenantId
    | EnvVar d => EnvVarTenantStore.exists_ d tenantId
    | Composite p f => exists_ p tenantId || exists_ f tenantId
    end.

Fixpoint create (s : TenantStore) (config : CreateConfig.t) (now : Z)
    : Result (TenantStore * TenantConfig.t) :=
    match s with
    | InMemory tenants =>
        let! r := InMemoryTenantStore.create tenants config now in
        let '(tenants', t) := r in
        Ok (InMemory tenants', t)
    | EnvVar _ => Throw StoreReadOnly
    | Composite p f =>
        let! r := create p config now in
        let '(p', t) := r in
        Ok (Composite p' f, t)
    end.

Fixpoint update (s : TenantStore) (tenantId : string) (config : PartialConfig.t)
      (now : Z) : Result (TenantStore * TenantConfig.t) :=
    match s with
    | InMemory tenants =>
        let! r := InMemoryTenantStore.update tenants tenantId config now in
        let '(tenants', t) := r in
        Ok (InMemory tenants', t)
    | EnvVar _ => Throw StoreReadOnly
    | Composite p f =>
        if exists_ p tenantId then
          let! r := update p tenantId config now in
          let '(p', t) := r in
          Ok (Composite p' f, t)
        else
          match get f tenantId with
          | Some fallbackTenant =>
              let newTenant := spread fallbackTenant config in
              let! r := create p (without_dates newTenant) now in
              let '(p', t) := r in
              Ok (Composite p' f, t)
          | None => Throw (TenantNotFound tenantId)
          end
    end.

Fixpoint delete (s : TenantStore) (tenantId : string) : Result (TenantStore * bool) :=
    match s with
    | InMemory tenants =>
        let '(tenants', b) := InMemoryTenantStore.delete tenants tenantId in
        Ok (InMemory tenants', b)
    | EnvVar _ => Throw StoreReadOnly
    | Composite p f =>
        let! r := delete p tenantId in
        let '(p', b) := r in
        Ok (Composite p' f, b)
    end.
(** [merged.set(tenant.tenantId, tenant)] on a [Map] kept in insertion
    order, as the list of its values. *)
Fixpoint merged_set (tenant : TenantConfig.t) (merged : list TenantConfig.t)
    : list TenantConfig.t :=
    match merged with
    | [] => [tenant]
    | x :: rest =>
        if String.eqb (TenantConfig.tenantId x) (TenantConfig.tenantId tenant)
        then tenant :: rest
        else x :: merged_set tenant rest
    end.

(** [Array.from(merged.values())] after [l.forEach(t => merged.set(...))]. *)
Definition merge_all (l : list TenantConfig.t) : list TenantConfig.t :=
    fold_left (fun merged tenant => merged_set tenant merged) l [].

Fixpoint getAll (s : TenantStore) : list TenantConfig.t :=
    match s with
    | InMemory tenants => InMemoryTenantStore.getAll tenants
    | EnvVar d => EnvVarTenantStore.getAll d
    | Composite p f => merge_all (getAll f ++ getAll p)
    end.
End Store.

(** [createTenantStore()], given the environment-derived record. *)
Definition createTenantStore (env : option TenantConfig.t) : TenantStore :=
  Composite (InMemory ∅) (EnvVar env).

(** ** API client factory (core/api-client-factory.ts) *)

Record GHLConfig := mkGHLConfig {
  accessToken : string;
  cfgBaseUrl : string;
  cfgVersion : string;
  cfgLocationId : string
}.

(** The upstream client class is an external collaborator; a client is
    determined by the configuration it was constructed from. *)
Record GHLApiClient := mkGHLApiClient { clientConfig : GHLConfig }.

Module Factory.
Record CachedClient := mkCached {
    client : GHLApiClient;
    lastUsed : Z;
    tenantId : string
  }.

  (** *** The [Map<string, CachedClient>] in insertion order *)

Definition Cache := list (string * CachedClient).

Fixpoint map_get (k : string) (m : Cache) : option CachedClient :=
    match m with
    | [] => None
    | (k', v) :: m' => if String.eqb k' k then Some v else map_get k m'
    end.

  (** [Map.set]: an existing key keeps its position, a new key goes last. *)
Fixpoint map_set (k : string) (v : CachedClient) (m : Cache) : Cache :=
    match m with
    | [] => [(k, v)]
    | (k', v') :: m' =>
        if String.eqb k' k then (k, v) :: m' else (k', v') :: map_set k v m'
    end.

Definition map_delete (k : string) (m : Cache) : Cache :=
    List.filter (fun e => negb (String.eqb (fst e) k)) m.

Definition map_size (m : Cache) : Z := Z.of_nat (List.length m).

Record t := mk {
    clientCache : Cache;
    maxCacheSize : Z;
    ttlMinutes : Z
  }.

Definition with_cache (f : t) (c : Cache) : t :=
    mk c (maxCacheSize f) (ttlMinutes f).

  (** [options?.x || d] on a number: 0 (and an absent option) give the default. *)
Definition num_or (o : option Z) (d : Z) : Z :=
    match o with
    | Some n => if n =? 0 then d else n
    | None => d
    end.

  (** The constructor; the cleanup timer it starts is the explicit
      [cleanupExpiredClients] step below. *)
Definition new (optMaxCacheSize optTtlMinutes : option Z) : t :=
    mk [] (num_or optMaxCacheSize 100) (num_or optTtlMinutes 60).

  (** *** hashString *)

  (** ToInt32 *)
Definition wrap32 (z : Z) : Z := (z + 2 ^ 31) mod 2 ^ 32 - 2 ^ 31.

Definition charCode (c : ascii) : Z := Z.of_N (N_of_ascii c).

  (** One iteration of the loop:
      [hash = ((hash << 5) - hash) + char; hash = hash & hash]. *)
Definition hash_step (hash : Z) (c : ascii) : Z :=
    wrap32 (wrap32 (hash * 32) - hash + charCode c).

Fixpoint hash_loop (hash : Z) (str : string) : Z :=
    match str with
    | EmptyString => hash
    | String c rest => hash_loop (hash_step hash c) rest
    end.

Definition digit36 (d : Z) : ascii :=
    match String.get (Z.to_nat d) "0123456789abcdefghijklmnopqrstuvwxyz" with
    | Some c => c
    | None => "0"%char
    end.

  (** Digits of [n > 0] in base 36, most significant first, accumulated in
      front of [acc]. *)
Fixpoint digits36 (fuel : nat) (n : Z) (acc : string) : string :=
    match fuel with
    | O => acc
    | S fuel' =>
        if n <=? 0 then acc
        else digits36 fuel' (n / 36) (String (digit36 (n mod 36)) acc)
    end.

  (** [n.toString(36)] for an integer [n >= 0]. *)
Definition toString36 (n : Z) : string :=
    if n <=? 0 then "0" else digits36 (S (Z.to_nat (Z.log2 n))) n "".

Definition hashString (str : string) : string :=
    toString36 (Z.abs (hash_loop 0 str)).

Definition cacheKey (tenantId apiKey : string) : string :=
    tenantId ++ "_" ++ hashString apiKey.

Definition getCacheKey (tenant : TenantConfig.t) : string :=
    cacheKey (TenantConfig.tenantId tenant) (TenantConfig.apiKey tenant).

  (** *** createClient *)

Definition createClient (tenant : TenantConfig.t) : GHLApiClient :=
    mkGHLApiClient
      (mkGHLConfig
         (TenantConfig.apiKey tenant)
         (or_default (TenantConfig.baseUrl tenant) "https://services.leadconnectorhq.com")
         (or_default (TenantConfig.version tenant) "2021-07-28")
         (TenantConfig.locationId tenant)).

  (** *** addToCache *)

  (** The loop of [addToCache]: the state is [(oldestKey, oldestTime)]. *)
Definition oldest_step (st : option string * Z) (e : string * CachedClient)
    : option string * Z :=
    if lastUsed (snd e) <? snd st then (Some (fst e), lastUsed (snd e)) else st.

Definition find_oldest (m : Cache) (now : Z) : option string * Z :=
    fold_left oldest_step m (None, now).

  (** [now] is the [new Date()] that initialises [oldestTime]. *)
Definition addToCache (f : t) (key : string) (cached : CachedClient) (now : Z) : t :=
    let cache :=
      if maxCacheSize f <=? map_size (clientCache f) then
        match fst (find_oldest (clientCache f) now) with
        | Some oldestKey =>
            if truthy oldestKey then map_delete oldestKey (clientCache f)
            else clientCache f
        | None => clientCache f
        end
      else clientCache f in
    with_cache f (map_set key cached cache).

  (** *** getClient

      [now] is the clock read for [lastUsed]; [now'] is the later read made
      inside [addToCache] on a miss. *)
Definition getClient (f : t) (tenant : TenantConfig.t) (now now' : Z)
    : GHLApiClient * t :=
    let key := getCacheKey tenant in
    match map_get key (clientCache f) with
    | Some cached =>
        (client cached,
         with_cache f
           (map_set key (mkCached (client cached) now (tenantId cached)) (clientCache f)))
    | None =>
        let c := createClient tenant in
        (c, addToCache f key (mkCached c now (TenantConfig.tenantId tenant)) now')
    end.

  (** *** cleanupExpiredClients, clearTenantCache, clearAllCache *)

Definition cleanupExpiredClients (f : t) (now : Z) : t :=
    let expiryTime := ttlMinutes f * 60 * 1000 in
    with_cache f
      (List.filter (fun e => negb (expiryTime <? now - lastUsed (snd e))) (clientCache f)).

Definition clearTenantCache (f : t) (tid : string) : t :=
    let keysToRemove :=
      List.map fst (List.filter (fun e => String.eqb (tenantId (snd e)) tid) (clientCache f)) in
    with_cache f (fold_left (fun m k => map_delete k m) keysToRemove (clientCache f)).

Definition clearAllCache (f : t) : t := with_cache f [].

  (** *** The singleton *)

  (** [factoryInstance], the module-level variable. *)
Definition Instance := option t.

Definition getApiClientFactory (g : Instance) : t :=
    match g with
    | Some f => f
    | None => new None None
    end.
(** *** getCacheStats and destroy *)





(** [destroy()]: the timer is stopped and the cache cleared. *)
Definition destroy (f : t) : t := clearAllCache f.

(** [resetApiClientFactory()] *)
Definition resetApiClientFactory (g : Instance) : Instance := None.
End Factory.

(** ** Tenant resolver (core/tenant-resolver.ts) *)

Definition lower_ascii (c : ascii) : ascii :=
  let n := N_of_ascii c in
  if ((65 <=? n) && (n <=? 90)
      || (192 <=? n) && (n <=? 222) && negb (n =? 215))%N
  then ascii_of_N (n + 32) else c.

Fixpoint toLowerCase (s : string) : string :=
  match s with
  | EmptyString => EmptyString
  | String c r => String (lower_ascii c) (toLowerCase r)
  end.

(** [s] with the prefix [p] removed, when [s] starts with [p]. *)
Fixpoint strip_prefix (p s : string) : option string :=
  match p, s with
  | EmptyString, _ => Some s
  | String a p', String b s' => if Ascii.eqb a b then strip_prefix p' s' else None
  | String _ _, EmptyString => None
  end.

Module Resolver.
  (** The string literals ['header'], ['query'], ['env'], ['default']. *)
Inductive Source := Header | Query | Env | Default.

Record TenantIdentifier := mkId {
    tenantId : string;
    source : Source
  }.

  (** A header value of [IncomingMessage]: a string or an array of strings. *)
Inductive HeaderValue :=
  | Single (s : string)
  | Multi (l : list string).

Record HttpRequest := mkReq {
    headers : list (string * HeaderValue);
    query : option (list (string * string));
    url : option string
  }.

  (** The options after the constructor has merged them over the defaults. *)
Record Options := mkOptions {
    headerName : string;
    queryParam : string;
    enableEnvFallback : bool
  }.

Definition new_options (h q : option string) (e : option bool) : Options :=
    mkOptions (override "x-tenant-id" h) (override "tenant" q) (override true e).

  (** [o[k]] on an object given by its own properties; the properties every
      object inherits ([constructor], [__proto__]) are not among them. *)
Fixpoint prop {A} (k : string) (o : list (string * A)) : option A :=
    match o with
    | [] => None
    | (k', v) :: o' => if String.eqb k' k then Some v else prop k o'
    end.

  (** [Array.isArray(value) ? value[0] : value] *)
Definition first_value (v : HeaderValue) : option string :=
    match v with
    | Single s => Some s
    | Multi l => List.head l
    end.

Definition value_truthy (v : HeaderValue) : bool :=
    match v with
    | Single s => truthy s
    | Multi _ => true
    end.

Fixpoint search_header (lowerHeaderName : string) (entries : list (string * HeaderValue))
    : option string :=
    match entries with
    | [] => None
    | (key, value) :: rest =>
        if String.eqb (toLowerCase key) lowerHeaderName then first_value value
        else search_header lowerHeaderName rest
    end.

Definition getHeaderValue (req : HttpRequest) (name : string) : option string :=
    let lowerHeaderName := toLowerCase name in
    match prop lowerHeaderName (headers req) with
    | Some value =>
        if value_truthy value then first_value value
        else search_header lowerHeaderName (headers req)
    | None => search_header lowerHeaderName (headers req)
    end.

  (** The capture group [([^\/]+)] taken greedily. *)
Fixpoint take_segment (s : string) : string :=
    match s with
    | EmptyString => EmptyString
    | String c r => if Ascii.eqb c "/" then EmptyString else String c (take_segment r)
    end.

  (** [url.match(/\/tenant\/([^\/]+)/)]: group 1 of the leftmost match. *)
Fixpoint match_tenant (s : string) : option string :=
    match s with
    | EmptyString => None
    | String _ r =>
        match strip_prefix "/tenant/" s with
        | Some rest =>
            let captured := take_segment rest in
            if truthy captured then Some captured else match_tenant r
        | None => match_tenant r
        end
    end.

Definition from_header (o : Options) (store : TenantStore) (req : HttpRequest)
    : option TenantIdentifier :=
    if truthy (headerName o) then
      match getHeaderValue req (headerName o) with
      | Some headerValue =>
          if truthy headerValue && Store.exists_ store headerValue
          then Some (mkId headerValue Header) else None
      | None => None
      end
    else None.

Definition from_query (o : Options) (store : TenantStore) (req : HttpRequest)
    : option TenantIdentifier :=
    match query req with
    | Some q =>
        if truthy (queryParam o) then
          match prop (queryParam o) q with
          | Some queryValue =>
              if truthy queryValue && Store.exists_ store queryValue
              then Some (mkId queryValue Query) else None
          | None => None
          end
        else None
    | None => None
    end.

Definition from_path (store : TenantStore) (req : HttpRequest)
    : option TenantIdentifier :=
    match url req with
    | Some u =>
        match match_tenant u with
        | Some pathTenantId =>
            if Store.exists_ store pathTenantId
            then Some (mkId pathTenantId Query) else None
        | None => None
        end
    | None => None
    end.

Definition from_fallback (o : Options) (store : TenantStore) : option TenantIdentifier :=
    if enableEnvFallback o && Store.exists_ store "default"
    then Some (mkId "default" Env) else None.

  (** The four numbered steps of the source, first match wins. *)
Definition resolveFromHttpRequest (o : Options) (store : TenantStore) (req : HttpRequest)
    : option TenantIdentifier :=
    match from_header o store req with
    | Some r => Some r
    | None =>
        match from_query o store req with
        | Some r => Some r
        | None =>
            match from_path store req with
            | Some r => Some r
            | None => from_fallback o store
            end
        end
    end.

Record Validation := mkValidation {
    valid : bool;
    error : option string
  }.

Definition validateTenant (store : TenantStore) (tid : string) : Validation :=
    match Store.get store tid with
    | None => mkValidation false (Some "Tenant not found")
    | Some tenant =>
        if negb (TenantConfig.isActive tenant) then
          mkValidation false (Some "Tenant is not active")
        else if negb (truthy (TenantConfig.apiKey tenant))
                || negb (truthy (TenantConfig.locationId tenant)) then
          mkValidation false (Some "Tenant configuration incomplete")
        else mkValidation true None
    end.
(** *** resolveFromCLI and resolveFromMCPMetadata *)

(** [args.findIndex(arg => arg === '--tenant')], [None] for -1. *)
Fixpoint findIndex_tenant (args : list string) : option nat :=
    match args with
    | [] => None
    | a :: rest =>
        if String.eqb a "--tenant" then Some O
        else match findIndex_tenant rest with
             | Some i => Some (S i)
             | None => None
             end
    end.

Definition from_flag (store : TenantStore) (args : option (list string))
    : option TenantIdentifier :=
    match args with
    | Some a =>
        match findIndex_tenant a with
        | Some tenantIndex =>
            match nth_error a (S tenantIndex) with
            | Some tid =>
                if truthy tid && Store.exists_ store tid
                then Some (mkId tid Query) else None
            | None => None
            end
        | None => None
        end
    | None => None
    end.

Definition from_env (store : TenantStore) (GHL_TENANT_ID : option string)
    : option TenantIdentifier :=
    match GHL_TENANT_ID with
    | Some tid =>
        if truthy tid && Store.exists_ store tid then Some (mkId tid Env) else None
    | None => None
    end.

(** [GHL_TENANT_ID] is [process.env.GHL_TENANT_ID]. *)
Definition resolveFromCLI (o : Options) (store : TenantStore)
      (args : option (list string)) (GHL_TENANT_ID : option string)
    : option TenantIdentifier :=
    match from_flag store args with
    | Some r => Some r
    | None =>
        match from_env store GHL_TENANT_ID with
        | Some r => Some r
        | None =>
            if enableEnvFallback o && Store.exists_ store "default"
            then Some (mkId "default" Default) else None
        end
    end.

(** [metaTenantId] is [metadata?.tenantId]. *)
Definition resolveFromMCPMetadata (store : TenantStore) (metaTenantId : option string)
    : option TenantIdentifier :=
    match
      match metaTenantId with
      | Some tid =>
          if truthy tid && Store.exists_ store tid then Some (mkId tid Header) else None
      | None => None
      end
    with
    | Some r => Some r
    | None =>
        if Store.exists_ store "default" then Some (mkId "default" Default) else None
    end.
End Resolver.

(** ** Tenant configuration manager (core/tenant-config-manager.ts) *)

(** *** Hex encoding of buffers and [split(':')] *)

Definition hexdigit (n : N) : ascii :=
  match String.get (N.to_nat n) "0123456789abcdef" with
  | Some c => c
  | None => "0"%char
  end.

Definition hex_of_byte (b : byte) : string :=
  let n := Byte.to_N b in
  String (hexdigit (n / 16)) (String (hexdigit (n mod 16)) EmptyString).

(** [buffer.toString('hex')] *)
Fixpoint toHex (l : list byte) : string :=
  match l with
  | [] => EmptyString
  | b :: r => hex_of_byte b ++ toHex r
  end.

Definition hexval (c : ascii) : option N :=
  let n := N_of_ascii c in
  if ((48 <=? n) && (n <=? 57))%N then Some (n - 48)%N
  else if ((97 <=? n) && (n <=? 102))%N then Some (n - 87)%N
  else if ((65 <=? n) && (n <=? 70))%N then Some (n - 55)%N
  else None.

(** [Buffer.from(s, 'hex')]: pairs of hex digits, stopping at the first pair
    that is not one (a trailing single character is dropped). *)
Fixpoint fromHex (s : string) : list byte :=
  match s with
  | String a (String b r) =>
      match hexval a, hexval b with
      | Some x, Some y =>
          match Byte.of_N (16 * x + y) with
          | Some v => v :: fromHex r
          | None => []
          end
      | _, _ => []
      end
  | _ => []
  end.

(** [s.split(sep)] for a one-character separator. *)
Fixpoint split_on (sep : ascii) (s : string) : list string :=
  match s with
  | EmptyString => [EmptyString]
  | String c r =>
      if Ascii.eqb c sep then EmptyString :: split_on sep r
      else
        match split_on sep r with
        | p :: ps => String c p :: ps
        | [] => [String c EmptyString]
        end
  end.

(** *** The cipher

    [crypto] is Node's library: key derivation and AES-256-GCM are taken as
    the operations of a [Cipher].  [gcmDecrypt] answers [None] wherever the
    library throws (bad IV, bad tag length, failed authentication, output
    that is not a string).  The operations take and give the text itself:
    its passage through UTF-8 on the way in and out is inside them, and is
    spelled out further down ([Utf8], [Utf16.cipher]). *)
Record Cipher := mkCipher {
  scryptSync : string -> list byte;
  gcmEncrypt : list byte -> list byte -> string -> list byte * list byte;
  gcmDecrypt : list byte -> list byte -> list byte -> list byte -> option string
}.

(** Decrypting, under the same key and IV, a ciphertext with the tag that
    encryption produced gives the plaintext back. *)
Definition cipher_correct (C : Cipher) : Prop :=
  forall key iv text,
    gcmDecrypt C key iv (snd (gcmEncrypt C key iv text)) (fst (gcmEncrypt C key iv text))
    = Some text.

(** A stand-in cipher used to run the definitions on concrete inputs: the
    ciphertext is the text reversed, the tag is the IV. *)
Module ToyCipher.
Definition bytes_of_string (s : string) : list byte :=
  List.map byte_of_ascii (list_ascii_of_string s).

Definition string_of_bytes (l : list byte) : string :=
  string_of_list_ascii (List.map ascii_of_byte l).

Definition encrypt (key iv : list byte) (text : string) : list byte * list byte :=
  (List.rev (bytes_of_string text), iv).

Definition decrypt (key iv tag ct : list byte) : option string :=
  if bool_decide (List.map Byte.to_N tag = List.map Byte.to_N iv)
  then Some (string_of_bytes (List.rev ct))
  else None.

Definition cipher : Cipher :=
  mkCipher (fun password => bytes_of_string password) encrypt decrypt.
End ToyCipher.

Module Manager.
Record CreateTenantRequest := mkCreate {
    tenantId : option string;
    name : string;
    apiKey : string;
    locationId : string;
    baseUrl : option string;
    version : option string;
    settings : option Settings
  }.

Record UpdateTenantRequest := mkUpdate {
    u_name : option string;
    u_apiKey : option string;
    u_locationId : option string;
    u_baseUrl : option string;
    u_version : option string;
    u_settings : option Settings;
    u_isActive : option bool
  }.

  (** The constructor's choice of [encryptionKey]. *)
Definition new (optKey envKey : option string) : string :=
    match optKey with
    | Some k => if truthy k then k
                else or_default envKey "default-encryption-key-change-in-production"
    | None => or_default envKey "default-encryption-key-change-in-production"
    end.

Section WithCipher.
Variable C : Cipher.
Variable encryptionKey : string.
    (** [testClient.testConnection()]: [true] when the upstream call succeeds. *)
Variable testConnection : GHLConfig -> bool.

    (** [iv] is the result of [crypto.randomBytes(16)]. *)
Definition encrypt (iv : list byte) (text : string) : string :=
      let key := scryptSync C encryptionKey in
      let '(encrypted, authTag) := gcmEncrypt C key iv text in
      toHex iv ++ ":" ++ toHex authTag ++ ":" ++ toHex encrypted.

Definition decrypt (encryptedText : string) : string :=
      let key := scryptSync C encryptionKey in
      match split_on ":" encryptedText with
      | [p0; p1; p2] =>
          match gcmDecrypt C key (fromHex p0) (fromHex p1) (fromHex p2) with
          | Some decrypted => decrypted
          | None => encryptedText
          end
      | _ => encryptedText
      end.

    (** The characters [trim()] strips, among the character codes a
        [string] carries: tab, line feed, vertical tab, form feed, carriage
        return, space and the no-break space (U+00A0). *)
Definition is_space (c : ascii) : bool :=
      let n := N_of_ascii c in ((9 <=? n) && (n <=? 13) || (n =? 32) || (n =? 160))%N.

Fixpoint trimStart (s : string) : string :=
      match s with
      | EmptyString => EmptyString
      | String c r => if is_space c then trimStart r else s
      end.

Fixpoint trimEnd (s : string) : string :=
      match s with
      | EmptyString => EmptyString
      | String c r =>
          match trimEnd r with
          | EmptyString => if is_space c then EmptyString else String c EmptyString
          | r' => String c r'
          end
      end.

Definition trim (s : string) : string := trimEnd (trimStart s).

    (** [!s || s.trim().length === 0] *)
Definition blank (s : string) : bool :=
      negb (truthy s) || (String.length (trim s) =? 0)%nat.

Definition is_id_char (c : ascii) : bool :=
      let n := N_of_ascii c in
      ((97 <=? n) && (n <=? 122) || (65 <=? n) && (n <=? 90)
       || (48 <=? n) && (n <=? 57) || (n =? 95) || (n =? 45))%N.

    (** [/^[a-zA-Z0-9_-]+$/.test(s)] *)
Definition id_pattern (s : string) : bool :=
      truthy s && forallb is_id_char (list_ascii_of_string s).

Definition validateCreateRequest (request : CreateTenantRequest) : Result unit :=
      if blank (name request) then Throw TenantNameRequired
      else if blank (apiKey request) then Throw ApiKeyRequired
      else if blank (locationId request) then Throw LocationIdRequired
      else if truthy_opt (tenantId request)
              && negb (id_pattern (or_default (tenantId request) "")) then
        Throw TenantIdFormat
      else Ok tt.

    (** [`tenant_${Date.now()}_${suffix}`]; [suffix] stands for
        [Math.random().toString(36).substring(2, 9)]. *)
Definition generateTenantId (now : Z) (suffix : string) : string :=
      "tenant_" ++ NilEmpty.string_of_int (Z.to_int now) ++ "_" ++ suffix.

Definition testTenantConfig (key loc : string) (base ver : option string)
      : Result unit :=
      if negb (truthy key) || negb (truthy loc) then Throw ApiKeyAndLocationRequired
      else if testConnection
                (mkGHLConfig key
                   (or_default base "https://services.leadconnectorhq.com")
                   (or_default ver "2021-07-28") loc)
      then Ok tt
      else Throw InvalidTenantConfiguration.

    (** [idNow], [suffix]: the clock and random inputs of [generateTenantId];
        [iv]: the random IV; [now]: the clock read by the store. *)
Definition createTenant (store : TenantStore) (request : CreateTenantRequest)
        (idNow : Z) (suffix : string) (iv : list byte) (now : Z)
      : Result (TenantStore * TenantConfig.t) :=
      let! _ := validateCreateRequest request in
      let tid :=
        if truthy_opt (tenantId request) then or_default (tenantId request) ""
        else generateTenantId idNow suffix in
      if Store.exists_ store tid then Throw (TenantAlreadyExists tid)
      else
        let encryptedApiKey := encrypt iv (apiKey request) in
        let config :=
          CreateConfig.mk tid (name request) encryptedApiKey (locationId request)
            (Some (or_default (baseUrl request) "https://services.leadconnectorhq.com"))
            (Some (or_default (version request) "2021-07-28"))
            (Some (override [] (settings request)))
            true in
        let! _ := testTenantConfig (CreateConfig.apiKey config)
                    (CreateConfig.locationId config) (CreateConfig.baseUrl config)
                    (CreateConfig.version config) in
        Store.create store config now.

Definition with_apiKey (c : TenantConfig.t) (k : string) : TenantConfig.t :=
      TenantConfig.mk (TenantConfig.tenantId c) (TenantConfig.name c) k
        (TenantConfig.locationId c) (TenantConfig.baseUrl c) (TenantConfig.version c)
        (TenantConfig.settings c) (TenantConfig.createdAt c) (TenantConfig.updatedAt c)
        (TenantConfig.isActive c).

Definition getTenant (store : TenantStore) (tid : string) : option TenantConfig.t :=
      match Store.get store tid with
      | None => None
      | Some tenant => Some (with_apiKey tenant (decrypt (TenantConfig.apiKey tenant)))
      end.

    (** The [update] object of [updateTenant]. *)
Definition prepare_update (request : UpdateTenantRequest) (iv : list byte)
      : PartialConfig.t :=
      PartialConfig.mk None (u_name request)
        (match u_apiKey request with
         | Some k => Some (encrypt iv k)
         | None => None
         end)
        (u_locationId request) (u_baseUrl request) (u_version request)
        (u_settings request) None None (u_isActive request).

    (** The state is the store and the factory singleton. *)
Definition updateTenant (store : TenantStore) (g : Factory.Instance)
        (tid : string) (request : UpdateTenantRequest) (iv : list byte) (now : Z)
      : Result (TenantStore * Factory.Instance * TenantConfig.t) :=
      match Store.get store tid with
      | None => Throw (TenantNotFound tid)
      | Some existing =>
          let update := prepare_update request iv in
          let! _ :=
            if truthy_opt (u_apiKey request) || truthy_opt (u_locationId request)
               || truthy_opt (u_baseUrl request) then
              let merged := spread existing update in
              let testKey :=
                if truthy_opt (u_apiKey request) then or_default (u_apiKey request) ""
                else decrypt (TenantConfig.apiKey existing) in
              testTenantConfig testKey (TenantConfig.locationId merged)
                (TenantConfig.baseUrl merged) (TenantConfig.version merged)
            else Ok tt in
          let! r := Store.update store tid update now in
          let '(store', updated) := r in
          let f := Factory.clearTenantCache (Factory.getApiClientFactory g) tid in
          Ok (store', Some f, with_apiKey updated (decrypt (TenantConfig.apiKey updated)))
      end.

Definition setTenantActive (store : TenantStore) (g : Factory.Instance)
        (tid : string) (active : bool) (iv : list byte) (now : Z) :=
      updateTenant store g tid (mkUpdate None None None None None None (Some active)) iv now.
End WithCipher.

(** The result of [deleteTenant]: the factory singleton as the call leaves
    it (the cache is cleared before the store is asked, so also when the
    store then throws), and what the call returns or throws. *)
Definition deleteTenant (store : TenantStore) (g : Factory.Instance) (tid : string)
    : Factory.Instance * Result (TenantStore * bool) :=
    if String.eqb tid "default" then (g, Throw CannotDeleteDefault)
    else
      (Some (Factory.clearTenantCache (Factory.getApiClientFactory g) tid),
       Store.delete store tid).
End Manager.

(** ** The credential cipher on arbitrary strings (core/tenant-config-manager.ts)

    [encrypt] hands the credential to the cipher as UTF-8
    ([cipher.update(text, 'utf8', 'hex')]) and [decrypt] reads the plaintext
    back as UTF-8 ([decipher.update(encrypted, 'hex', 'utf8')]).  To follow
    these conversions a string is taken here as the list of its UTF-16 code
    units, numbers from 0 to 65535, and the cipher works on bytes. *)

(** The code units of a string of the narrower kind. *)
Definition units (s : string) : list Z :=
  List.map Factory.charCode (list_ascii_of_string s).

Module Utf8.
(** High and low surrogates. *)
Definition is_high (u : Z) : bool := (0xD800 <=? u) && (u <=? 0xDBFF).
Definition is_low (u : Z) : bool := (0xDC00 <=? u) && (u <=? 0xDFFF).

Definition byte_of_Z (z : Z) : byte :=
  match Byte.of_N (Z.to_N z) with
  | Some b => b
  | None => x00
  end.

Definition Z_of_byte (b : byte) : Z := Z.of_N (Byte.to_N b).

(** The one to four bytes of a code point. *)
Definition encode_point (cp : Z) : list byte :=
  if cp <? 0x80 then [byte_of_Z cp]
  else if cp <? 0x800 then
    [byte_of_Z (0xC0 + cp / 64); byte_of_Z (0x80 + cp mod 64)]
  else if cp <? 0x10000 then
    [byte_of_Z (0xE0 + cp / 4096); byte_of_Z (0x80 + (cp / 64) mod 64);
     byte_of_Z (0x80 + cp mod 64)]
  else
    [byte_of_Z (0xF0 + cp / 262144); byte_of_Z (0x80 + (cp / 4096) mod 64);
     byte_of_Z (0x80 + (cp / 64) mod 64); byte_of_Z (0x80 + cp mod 64)].

(** The bytes of U+FFFD, the replacement character. *)
Definition replacement : list byte := [xef; xbf; xbd].

(** A string to its UTF-8 bytes, as Node encodes it: a surrogate pair is one
    code point, a surrogate without its partner is replaced by U+FFFD. *)
Fixpoint encode (s : list Z) : list byte :=
  match s with
  | [] => []
  | u :: r =>
      if is_high u then
        match r with
        | l :: r' =>
            if is_low l then
              (encode_point (0x10000 + (u - 0xD800) * 1024 + (l - 0xDC00)) ++ encode r')%list
            else (replacement ++ encode r)%list
        | [] => replacement
        end
      else if is_low u then (replacement ++ encode r)%list
      else (encode_point u ++ encode r)%list
  end.

(** The decoder's state inside a multi-byte sequence: continuation bytes
    still needed, the code point so far, and the range the next byte must
    lie in. *)
Record Pending := mkPending {
  needed : nat;
  point : Z;
  lower : Z;
  upper : Z
}.

Definition units_of_point (cp : Z) : list Z :=
  if cp <? 0x10000 then [cp]
  else [0xD800 + (cp - 0x10000) / 1024; 0xDC00 + (cp - 0x10000) mod 1024].

(** A byte read outside a sequence. *)
Definition lead (b : Z) : list Z * option Pending :=
  if b <? 0x80 then ([b], None)
  else if (0xC2 <=? b) && (b <=? 0xDF) then
    ([], Some (mkPending 1 (b - 0xC0) 0x80 0xBF))
  else if (0xE0 <=? b) && (b <=? 0xEF) then
    ([], Some (mkPending 2 (b - 0xE0)
                 (if b =? 0xE0 then 0xA0 else 0x80) (if b =? 0xED then 0x9F else 0xBF)))
  else if (0xF0 <=? b) && (b <=? 0xF4) then
    ([], Some (mkPending 3 (b - 0xF0)
                 (if b =? 0xF0 then 0x90 else 0x80) (if b =? 0xF4 then 0x8F else 0xBF)))
  else ([0xFFFD], None).

(** One byte: the code units it completes and the state after it.  A byte
    that cannot continue the sequence ends it with U+FFFD and is read again
    as the start of the next one. *)
Definition step (st : option Pending) (b : Z) : list Z * option Pending :=
  match st with
  | None => lead b
  | Some p =>
      if (lower p <=? b) && (b <=? upper p) then
        let cp := point p * 64 + (b - 0x80) in
        match needed p with
        | S (S n) => ([], Some (mkPending (S n) cp 0x80 0xBF))
        | _ => (units_of_point cp, None)
        end
      else
        let '(out, st') := lead b in (0xFFFD :: out, st')
  end.

Fixpoint decode_from (st : option Pending) (bs : list byte) : list Z :=
  match bs with
  | [] =>
      match st with
      | None => []
      | Some _ => [0xFFFD]
      end
  | b :: r =>
      let '(out, st') := step st (Z_of_byte b) in
      (out ++ decode_from st' r)%list
  end.

(** UTF-8 bytes to a string, as Node decodes them: every ill-formed part is
    replaced by U+FFFD. *)
Definition decode (bs : list byte) : list Z := decode_from None bs.

(** A string (every code unit below 65536) in which every surrogate has its
    partner. *)
Fixpoint well_formed (s : list Z) : Prop :=
  match s with
  | [] => True
  | u :: r =>
      0 <= u < 65536
      /\ if is_high u then
           match r with
           | l :: r' => is_low l = true /\ well_formed r'
           | [] => False
           end
         else is_low u = false /\ well_formed r
  end.

(** A code point that is no surrogate. *)
Definition scalar (cp : Z) : Prop := 0 <= cp < 0xD800 \/ 0xE000 <= cp < 0x110000.
End Utf8.

(** Key derivation and AES-256-GCM on bytes.  [aesDecrypt] answers [None]
    wherever the library throws (bad IV, bad tag length, failed
    authentication). *)
Record ByteCipher := mkByteCipher {
  scrypt : string -> list byte;
  aesEncrypt : list byte -> list byte -> list byte -> list byte * list byte;
  aesDecrypt : list byte -> list byte -> list byte -> list byte -> option (list byte)
}.

(** Decrypting, under the same key and IV, a ciphertext with the tag that
    encryption produced gives the plaintext bytes back. *)
Definition byte_cipher_correct (B : ByteCipher) : Prop :=
  forall key iv plain,
    aesDecrypt B key iv (snd (aesEncrypt B key iv plain)) (fst (aesEncrypt B key iv plain))
    = Some plain.

Module Utf16.
(** The character of a code unit below 256. *)
Definition narrow_char (u : Z) : option ascii :=
  if (0 <=? u) && (u <? 256) then Some (ascii_of_N (Z.to_N u)) else None.

(** The string of a list of code units that are all below 256. *)
Fixpoint narrow (s : list Z) : option string :=
  match s with
  | [] => Some EmptyString
  | u :: r =>
      match narrow_char u, narrow r with
      | Some c, Some r' => Some (String c r')
      | _, _ => None
      end
  end.

Definition hexval (u : Z) : option N :=
  match narrow_char u with
  | Some c => hexval c
  | None => None
  end.

(** [Buffer.from(s, 'hex')] *)
Fixpoint fromHex (s : list Z) : list byte :=
  match s with
  | a :: b :: r =>
      match hexval a, hexval b with
      | Some x, Some y =>
          match Byte.of_N (16 * x + y) with
          | Some v => v :: fromHex r
          | None => []
          end
      | _, _ => []
      end
  | _ => []
  end.

(** [s.split(sep)] for a one-character separator. *)
Fixpoint split (sep : Z) (s : list Z) : list (list Z) :=
  match s with
  | [] => [[]]
  | c :: r =>
      if c =? sep then [] :: split sep r
      else
        match split sep r with
        | p :: ps => (c :: p) :: ps
        | [] => [[c]]
        end
  end.

Section WithCipher.
Variable B : ByteCipher.
Variable encryptionKey : string.

(** [iv] is the result of [crypto.randomBytes(16)]. *)
Definition encrypt (iv : list byte) (text : list Z) : list Z :=
    let key := scrypt B encryptionKey in
    let '(encrypted, authTag) := aesEncrypt B key iv (Utf8.encode text) in
    units (toHex iv ++ ":" ++ toHex authTag ++ ":" ++ toHex encrypted).

Definition decrypt (encryptedText : list Z) : list Z :=
    let key := scrypt B encryptionKey in
    match split 58 encryptedText with
    | [p0; p1; p2] =>
        match aesDecrypt B key (fromHex p0) (fromHex p1) (fromHex p2) with
        | Some decrypted => Utf8.decode decrypted
        | None => encryptedText
        end
    | _ => encryptedText
    end.
End WithCipher.

(** The cipher of the narrower strings that a cipher on bytes gives: the
    text goes in as its UTF-8 bytes and comes out as the string of the
    decoded code units, when they are all below 256. *)
Definition cipher (B : ByteCipher) : Cipher :=
  mkCipher (scrypt B)
    (fun key iv text => aesEncrypt B key iv (Utf8.encode (units text)))
    (fun key iv tag ct =>
       match aesDecrypt B key iv tag ct with
       | Some decrypted => narrow (Utf8.decode decrypted)
       | None => None
       end).
End Utf16.

(** ** Per-tenant rate limiting (middleware/tenant-middleware.ts) *)

Module RateLimit.
Record Options := mkOptions {
    windowMs : Z;
    maxRequests : Z;
    message : option string
  }.

Record Entry := mkEntry {
    count : Z;
    resetTime : Z
  }.

  (** [X-RateLimit-Limit], [X-RateLimit-Remaining], [X-RateLimit-Reset]
      (the reset instant, before formatting). *)
Record Headers := mkHeaders {
    limit : Z;
    remaining : Z;
    reset : Z
  }.

Inductive Outcome :=
  | Next (h : option Headers)
  | Rejected (status : Z) (h : Headers) (body_message : string) (retryAfter : Z).

  (** [Math.ceil(ms / 1000)] *)
Definition ceil_seconds (ms : Z) : Z := - ((- ms) / 1000).

  (** The request handler; [tenantId] is [req.tenantId], [now] is
      [Date.now()], the state is the [tenantLimits] map. *)
Definition handle (o : Options) (tenantLimits : gmap string Entry)
      (tenantId : option string) (now : Z) : gmap string Entry * Outcome :=
    if negb (truthy_opt tenantId) then (tenantLimits, Next None)
    else
      let tid := or_default tenantId "" in
      let entry :=
        match tenantLimits !! tid with
        | Some e => if resetTime e <? now then mkEntry 0 (now + windowMs o) else e
        | None => mkEntry 0 (now + windowMs o)
        end in
      let entry' := mkEntry (count entry + 1) (resetTime entry) in
      let limits' := <[tid := entry']> tenantLimits in
      if maxRequests o <? count entry' then
        let retryAfter := ceil_seconds (resetTime entry' - now) in
        (limits',
         Rejected 429 (mkHeaders (maxRequests o) 0 (resetTime entry'))
           (override ("Rate limit exceeded for tenant " ++ tid)
              (if truthy_opt (message o) then message o else None))
           retryAfter)
      else
        (limits',
         Next (Some (mkHeaders (maxRequests o) (maxRequests o - count entry')
                       (resetTime entry')))).

  (** The body of the [setInterval] callback. *)
Definition sweep (tenantLimits : gmap string Entry) (now : Z) : gmap string Entry :=
    filter (fun kv => ¬ (resetTime (snd kv) < now)) tenantLimits.

  (** What can happen to the limiter: a request or a timer tick. *)
Inductive Event :=
  | Request (tenantId : option string) (now : Z)
  | Sweep (now : Z).

Definition time_of (e : Event) : Z :=
    match e with
    | Request _ now => now
    | Sweep now => now
    end.

Definition step (o : Options) (st : gmap string Entry) (e : Event) : gmap string Entry :=
    match e with
    | Request tid now => fst (handle o st tid now)
    | Sweep now => sweep st now
    end.


End RateLimit.

(** ** Request context and the tool base class *)

Module RequestContext.
Inductive Channel := stdio | http | sse.

Record RequestMetadata := mkMetadata {
    requestId : string;
    timestamp : Z;
    source : Channel;
    userAgent : option string;
    ip : option string
  }.

Record t := mk {
    tenant : TenantConfig.t;
    metadata : RequestMetadata
  }.

(** [Partial<RequestMetadata>] *)
Record PartialMetadata := mkPartial {
    p_requestId : option string;
    p_timestamp : option Z;
    p_source : option Channel;
    p_userAgent : option string;
    p_ip : option string
}.

Definition decimal (n : Z) : string := NilEmpty.string_of_int (Z.to_int n).

(** [++n] on the request counter, a JavaScript number that starts at 0:
    exact up to 2^53, where [n + 1] is no longer a number and rounds back
    to 2^53, so that the counter stays there. *)
Definition increment (n : Z) : Z := if n <? 2 ^ 53 then n + 1 else n.

(** [RequestContext.create]; [counter] is the static [requestCounter] (0
    to 2^53), [now] the [Date.now()] of the id and [now'] the [new Date()]
    of the timestamp.  Returns the context and the incremented counter. *)
Definition create (counter : Z) (tenant : TenantConfig.t) (source : Channel)
      (additionalMetadata : option PartialMetadata) (now now' : Z) : t * Z :=
    let counter' := increment counter in
    let requestId := "req_" ++ decimal now ++ "_" ++ decimal counter' in
    let metadata :=
      match additionalMetadata with
      | None => mkMetadata requestId now' source None None
      | Some a =>
          mkMetadata (override requestId (p_requestId a))
            (override now' (p_timestamp a)) (override source (p_source a))
            (p_userAgent a) (p_ip a)
      end in
    (mk tenant metadata, counter').

Definition getTenantId (c : t) : string := TenantConfig.tenantId (tenant c).

Definition getRequestId (c : t) : string := requestId (metadata c).

Definition getLogPrefix (c : t) : string :=
    "[" ++ requestId (metadata c) ++ "] [Tenant: " ++ TenantConfig.tenantId (tenant c) ++ "]".
End RequestContext.

Module BaseTool.
Record t := mk { singleTenantClient : option GHLApiClient }.

  (** [context] is the result of [getCurrentContext()], the context bound to
      the running asynchronous extent, if any; the state is the factory
      singleton. *)
Definition getClient (this : t) (context : option RequestContext.t)
      (g : Factory.Instance) (now now' : Z) : Result GHLApiClient * Factory.Instance :=
    match context with
    | Some ctx =>
        let '(c, f) :=
          Factory.getClient (Factory.getApiClientFactory g)
            (RequestContext.tenant ctx) now now' in
        (Ok c, Some f)
    | None =>
        match singleTenantClient this with
        | Some c => (Ok c, g)
        | None => (Throw NoApiClientAvailable, g)
        end
    end.

Definition getTenantId (context : option RequestContext.t) : string :=
    match context with
    | Some c => RequestContext.getTenantId c
    | None => "default"
    end.

Definition isMultiTenantMode (context : option RequestContext.t) : bool :=
    bool_decide (is_Some context).
End BaseTool.

(** ** Request middleware (middleware/tenant-middleware.ts) *)

Module Middleware.
(** The part of an Express request the middleware reads. *)
Record Request := mkRequest {
    http : Resolver.HttpRequest;
    path : string;
    method : string;
    ip : option string
}.

Record Options := mkOptions {
    requireTenant : bool;
    excludePaths : option (list string)
}.

Inductive Outcome :=
| Next
| NextInContext (tenantId : string) (context : RequestContext.t)
| Respond (status : Z) (error : string) (message : option string).

(** [req.headers['user-agent']] *)
Definition userAgent (req : Request) : option string :=
    match Resolver.prop "user-agent" (Resolver.headers (http req)) with
    | Some v => Resolver.first_value v
    | None => None
    end.

Definition excluded (o : Options) (req : Request) : bool :=
    match excludePaths o with
    | Some paths => existsb (fun p => String.prefix p (path req)) paths
    | None => false
    end.

(** [createTenantMiddleware].  The handler awaits three reads of the tenant
    store, and other requests may change the store in between: [atResolve]
    is the store as [tenantResolver.resolveFromHttpRequest] finds it,
    [atValidate] as [tenantResolver.validateTenant] finds it, [atGet] as
    [tenantConfigManager.getTenant] finds it.  [counter] is the request
    counter of [RequestContext]; nothing in the body throws, so the [catch]
    branch does not appear. *)
Definition createTenantMiddleware (o : Options) (ro : Resolver.Options)
      (atResolve atValidate atGet : TenantStore) (C : Cipher) (encryptionKey : string)
      (counter : Z) (req : Request) (now now' : Z) : Outcome * Z :=
    if excluded o req then (Next, counter)
    else
      match Resolver.resolveFromHttpRequest ro atResolve (http req) with
      | None =>
          if requireTenant o then
            (Respond 400 "Tenant identification required"
               (Some "Please provide tenant ID via X-Tenant-ID header or tenant query parameter"),
             counter)
          else (Next, counter)
      | Some tenantIdentifier =>
          let validation :=
            Resolver.validateTenant atValidate (Resolver.tenantId tenantIdentifier) in
          if negb (Resolver.valid validation) then
            (Respond 403 "Invalid tenant" (Resolver.error validation), counter)
          else
            match Manager.getTenant C encryptionKey atGet
                    (Resolver.tenantId tenantIdentifier) with
            | None =>
                (Respond 404 "Tenant not found"
                   (Some ("Tenant " ++ Resolver.tenantId tenantIdentifier
                          ++ " does not exist")),
                 counter)
            | Some tenant =>
                let '(context, counter') :=
                  RequestContext.create counter tenant RequestContext.http
                    (Some (RequestContext.mkPartial None None None (userAgent req) (ip req)))
                    now now' in
                (NextInContext (TenantConfig.tenantId tenant) context, counter')
            end
      end.

(** *** createTenantAdminMiddleware *)

(** The class [\s] on the character codes a [string] carries: tab, line
    feed, vertical tab, form feed, carriage return, space and the
    no-break space. *)
Definition is_ws (c : ascii) : bool :=
    let n := N_of_ascii c in ((9 <=? n) && (n <=? 13) || (n =? 32) || (n =? 160))%N.

Fixpoint skip_ws (s : string) : string :=
    match s with
    | EmptyString => EmptyString
    | String c r => if is_ws c then skip_ws r else s
    end.

(** [authHeader.replace(/^Bearer\s+/i, '')] *)
Definition strip_bearer (authHeader : string) : string :=
    if String.eqb (toLowerCase (substring 0 6 authHeader)) "bearer" then
      match substring 6 (String.length authHeader - 6) authHeader with
      | String c r => if is_ws c then skip_ws r else authHeader
      | EmptyString => authHeader
      end
    else authHeader.

Record AdminOptions := mkAdmin {
    adminApiKey : option string;
    adminTokens : option (list string)
}.

(** [authorization] is [req.headers.authorization]. *)
Definition createTenantAdminMiddleware (o : AdminOptions) (authorization : option string)
    : Outcome :=
    if negb (truthy_opt authorization) then
      Respond 401 "Unauthorized" (Some "Admin authentication required")
    else
      let token := strip_bearer (or_default authorization "") in
      if truthy_opt (adminApiKey o) && String.eqb token (or_default (adminApiKey o) "")
      then Next
      else
        match adminTokens o with
        | Some tokens =>
            if existsb (String.eqb token) tokens then Next
            else Respond 403 "Forbidden" (Some "Invalid admin credentials")
        | None => Respond 403 "Forbidden" (Some "Invalid admin credentials")
        end.
End Middleware.

(** ** Vocabulary of the properties *)

(** The window a request of [t] at [now] counts in: the stored one while it
    has not elapsed, a new one otherwise. *)
Definition window_of (o : RateLimit.Options) (st : gmap string RateLimit.Entry)
    (t : string) (now : Z) : RateLimit.Entry :=
  match st !! t with
  | Some e =>
      if RateLimit.resetTime e <? now
      then RateLimit.mkEntry 0 (now + RateLimit.windowMs o) else e
  | None => RateLimit.mkEntry 0 (now + RateLimit.windowMs o)
  end.

(** The value a state-passing operation returns, if it returns. *)
Definition returned {S A} (r : Result (S * A)) : option A :=
  match r with
  | Ok (_, a) => Some a
  | Throw _ => None
  end.

(** [s] has no occurrence of the character [c]. *)
Fixpoint no_char (c : ascii) (s : string) : bool :=
  match s with
  | EmptyString => true
  | String a r => negb (Ascii.eqb a c) && no_char c r
  end.

(** What can happen to the factory between two points of interest. *)
Inductive FactoryOp :=
| OpGetClient (tenant : TenantConfig.t) (now now' : Z)
| OpCleanup (now : Z)
| OpClearTenant (tid : string)
| OpClearAll.

Definition factory_step (f : Factory.t) (op : FactoryOp) : Factory.t :=
  match op with
  | OpGetClient tenant now now' => snd (Factory.getClient f tenant now now')
  | OpCleanup now => Factory.cleanupExpiredClients f now
  | OpClearTenant tid => Factory.clearTenantCache f tid
  | OpClearAll => Factory.clearAllCache f
  end.

Definition factory_run (f : Factory.t) (ops : list FactoryOp) : Factory.t :=
  fold_left factory_step ops f.

(** The key of a cache entry is its tenant id, an underscore and a string
    without underscore (the hash). *)
Definition entry_wf (e : string * Factory.CachedClient) : Prop :=
  exists h, no_char "_" h = true /\ fst e = Factory.tenantId (snd e) ++ "_" ++ h.

Definition cache_wf (m : Factory.Cache) : Prop := forall e, In e m -> entry_wf e.

Definition instance_wf (g : Factory.Instance) : Prop :=
  forall f, g = Some f -> cache_wf (Factory.clientCache f).

(** Every client cached under the key of tenant [tid] with credential [k]
    was constructed from credential [k]. *)
Definition built_from (tid k : string) (m : Factory.Cache) : Prop :=
  forall e, In e m -> fst e = Factory.cacheKey tid k ->
            accessToken (clientConfig (Factory.client (snd e))) = k.

(** A [getClient] for tenant [tid] whose credential hashes like [k] carries
    [k]: calls with the current credential qualify, and so do calls with a
    stale credential as long as its hash differs from that of [k]. *)
Definition op_current (tid k : string) (op : FactoryOp) : Prop :=
  match op with
  | OpGetClient tenant _ _ =>
      TenantConfig.tenantId tenant = tid ->
      Factory.hashString (TenantConfig.apiKey tenant) = Factory.hashString k ->
      TenantConfig.apiKey tenant = k
  | _ => True
  end.

(** Every stored record is stored under its own id. *)
Fixpoint store_wf (s : TenantStore) : Prop :=
  match s with
  | InMemory tenants =>
      forall k v, tenants !! k = Some v -> TenantConfig.tenantId v = k
  | EnvVar d => forall v, d = Some v -> TenantConfig.tenantId v = "default"
  | Composite p f => store_wf p /\ store_wf f
  end.

(** ** Sample data *)

Definition acme_v1 : TenantConfig.t :=
  TenantConfig.mk "acme" "Acme" "k1" "L1" None None None 1000 1000 true.


Definition env_default : TenantConfig.t :=
  TenantConfig.mk "default" "Default Tenant" "k0" "L0"
    (Some "https://services.leadconnectorhq.com") (Some "2021-07-28") None 1000 1000 true.

Definition rename (n : string) : PartialConfig.t :=
  PartialConfig.mk None (Some n) None None None None None None None None.

Definition acme_store : TenantStore := InMemory {["acme" := acme_v1]}.

Definition default_options : Resolver.Options := Resolver.new_options None None None.

Definition header_request : Resolver.HttpRequest :=
  Resolver.mkReq [("x-tenant-id", Resolver.Single "acme")] None (Some "/contacts").



Definition acme_request : Manager.CreateTenantRequest :=
  Manager.mkCreate (Some "acme") "Acme" "k1" "L1" None None None.

Definition zero_iv : list byte := List.repeat x00 16.

(** The stand-in cipher on bytes: the ciphertext is the plaintext reversed,
    the tag is the IV. *)
Definition toy_bytes : ByteCipher :=
  mkByteCipher ToyCipher.bytes_of_string
    (fun key iv plain => (List.rev plain, iv))
    (fun key iv tag ct =>
       if bool_decide (List.map Byte.to_N tag = List.map Byte.to_N iv)
       then Some (List.rev ct)
       else None).

(** A string of one code unit, a high surrogate without its partner. *)
Definition lone_surrogate : list Z := [0xD800].

Definition globex : TenantConfig.t :=
  TenantConfig.mk "globex" "Globex" "g1" "L9" None None None 1000 1000 true.

(** The stored form of [acme_v1]: the credential encrypted. *)
Definition acme_stored : TenantConfig.t :=
  Manager.with_apiKey acme_v1
    (Manager.encrypt ToyCipher.cipher "secret" [x0a; x0b] "k1").

(** A factory that has served [acme_v1] once. *)
Definition warm_factory : Factory.t :=
  factory_step (Factory.new None None) (OpGetClient acme_v1 100 100).

Definition rotate_key : Manager.UpdateTenantRequest :=
  Manager.mkUpdate None (Some "k2") None None None None None.

(** Two credentials with the same hash. *)
Definition acme_Aa : TenantConfig.t :=
  TenantConfig.mk "acme" "Acme" "Aa" "L1" None None None 1000 1000 true.

Definition acme_Aa_stored : TenantConfig.t :=
  Manager.with_apiKey acme_Aa
    (Manager.encrypt ToyCipher.cipher "secret" [x0a; x0b] "Aa").

Definition rotate_to_BB : Manager.UpdateTenantRequest :=
  Manager.mkUpdate None (Some "BB") None None None None None.

Definition tenant_a : TenantConfig.t :=
  TenantConfig.mk "a" "A" "ka" "La" None None None 0 0 true.

Definition tenant_b : TenantConfig.t :=
  TenantConfig.mk "b" "B" "kb" "Lb" None None None 0 0 true.

(** ** Vocabulary of the further properties *)

(** Mutations of a store; a call that throws leaves the store as it was. *)
Inductive StoreOp :=
| OpCreate (config : CreateConfig.t) (now : Z)
| OpUpdate (tenantId : string) (config : PartialConfig.t) (now : Z)
| OpDelete (tenantId : string).

Definition store_step (s : TenantStore) (op : StoreOp) : TenantStore :=
  match op with
  | OpCreate config now =>
      match Store.create s config now with
      | Ok (s', _) => s'
      | Throw _ => s
      end
  | OpUpdate tid config now =>
      match Store.update s tid config now with
      | Ok (s', _) => s'
      | Throw _ => s
      end
  | OpDelete tid =>
      match Store.delete s tid with
      | Ok (s', _) => s'
      | Throw _ => s
      end
  end.

Definition store_run (s : TenantStore) (ops : list StoreOp) : TenantStore :=
  fold_left store_step ops s.

(** The answers the rate limiter gives to the requests of a run, in
    order; timer ticks give no answer. *)
Fixpoint outcomes (o : RateLimit.Options) (st : gmap string RateLimit.Entry)
    (es : list RateLimit.Event) : list RateLimit.Outcome :=
  match es with
  | [] => []
  | RateLimit.Request tid now :: es' =>
      snd (RateLimit.handle o st tid now)
      :: outcomes o (fst (RateLimit.handle o st tid now)) es'
  | RateLimit.Sweep now :: es' => outcomes o (RateLimit.sweep st now) es'
  end.

Definition is_request (e : RateLimit.Event) : bool :=
  match e with
  | RateLimit.Request _ _ => true
  | RateLimit.Sweep _ => false
  end.

(** The clock reads of the events, from [T] on, never go back. *)
Fixpoint nondecreasing (T : Z) (es : list RateLimit.Event) : Prop :=
  match es with
  | [] => True
  | e :: es' => T <= RateLimit.time_of e /\ nondecreasing (RateLimit.time_of e) es'
  end.

(** [swept] is [full] without some entries whose window had elapsed
    before [T]. *)
Definition swept_of (T : Z) (swept full : gmap string RateLimit.Entry) : Prop :=
  forall t,
    swept !! t = full !! t
    \/ (swept !! t = None
        /\ exists e, full !! t = Some e /\ RateLimit.resetTime e < T).

(** A composite store: "acme" in the primary, the environment's "default"
    in the fallback. *)
Definition two_tenant_store : TenantStore :=
  Composite (InMemory {["acme" := acme_v1]}) (EnvVar (Some env_default)).

(** The clock advances: the eviction search of every [getClient] reads the
    clock strictly later than every clock read of the calls before it, and
    not earlier than the call's own first read. *)
Fixpoint clock_advances (T : Z) (ops : list FactoryOp) : Prop :=
  match ops with
  | [] => True
  | OpGetClient _ now now' :: rest => T < now' /\ now <= now' /\ clock_advances now' rest
  | _ :: rest => clock_advances T rest
  end.

(** [getClient] was called with the configuration [origin] in the run
    [ops]. *)
Definition called (ops : list FactoryOp) (origin : TenantConfig.t) : Prop :=
  exists now now', In (OpGetClient origin now now') ops.

(** Where a cache entry comes from: a [getClient] call of the run [ops],
    with a configuration whose key is the entry's key and from which the
    entry's client was constructed. *)
Definition entry_origin (ops : list FactoryOp) (e : string * Factory.CachedClient) : Prop :=
  exists origin,
    called ops origin
    /\ fst e = Factory.getCacheKey origin
    /\ Factory.client (snd e) = Factory.createClient origin
    /\ Factory.tenantId (snd e) = TenantConfig.tenantId origin.

(** The names, all in lower case, that a lookup [object[name]] finds on a
    plain object without the object carrying them: those inherited from
    [Object.prototype]. *)
Definition inherited_name (k : string) : bool :=
  String.eqb k "constructor" || String.eqb k "__proto__".

(** A cache holding two clients of "acme" (two credentials) around one of
    "globex". *)
Definition mixed_factory : Factory.t :=
  factory_run (Factory.new None None)
    [OpGetClient acme_v1 100 100; OpGetClient globex 200 200; OpGetClient acme_Aa 300 300].

(** [acme_v1] moved to another location. *)
Definition acme_moved : TenantConfig.t :=
  TenantConfig.mk "acme" "Acme" "k1" "L2" (Some "https://example.test") None None
    1000 2000 true.



(** A request that identifies no tenant. *)
Definition anonymous_request : Resolver.HttpRequest :=
  Resolver.mkReq [] None (Some "/contacts").

(** The id a create request gets and the record [createTenant] builds. *)
Definition create_id (request : Manager.CreateTenantRequest) (idNow : Z) (suffix : string)
  : string :=
  if truthy_opt (Manager.tenantId request) then or_default (Manager.tenantId request) ""
  else Manager.generateTenantId idNow suffix.

Definition create_config (C : Cipher) (encryptionKey : string)
    (request : Manager.CreateTenantRequest) (idNow : Z) (suffix : string) (iv : list byte)
  : CreateConfig.t :=
  CreateConfig.mk (create_id request idNow suffix) (Manager.name request)
    (Manager.encrypt C encryptionKey iv (Manager.apiKey request))
    (Manager.locationId request)
    (Some (or_default (Manager.baseUrl request) "https://services.leadconnectorhq.com"))
    (Some (or_default (Manager.version request) "2021-07-28"))
    (Some (override [] (Manager.settings request)))
    true.

(** A GET request of [path] from an unknown address. *)
Definition plain_request (http : Resolver.HttpRequest) (path : string) : Middleware.Request :=
  Middleware.mkRequest http path "GET" None.

(** * Properties *)

(** ** Sample evaluations *)

Example hashString_k1 : Factory.hashString "k1" = "2li".
Proof. reflexivity. Qed.

Example match_tenant_api :
  Resolver.match_tenant "/api/tenant/acme/contacts" = Some "acme".
Proof. reflexivity. Qed.

Example match_tenant_skips_empty_segment :
  Resolver.match_tenant "/tenant//tenant/acme" = Some "acme".
Proof. reflexivity. Qed.

(** ** Strings *)

Lemma truthy_true (s : string) : truthy s = true <-> s <> "".
Proof.
  unfold truthy. destruct (String.eqb_spec s ""); simpl; split; congruence.
Qed.

Lemma truthy_opt_Some (s : string) : s <> "" -> truthy_opt (Some s) = true.
Proof. intros H. simpl. now apply truthy_true. Qed.

Lemma or_default_Some (s d : string) : s <> "" -> or_default (Some s) d = s.
Proof. intros H. unfold or_default. now rewrite (proj2 (truthy_true s) H). Qed.

(** ** Rate limiter *)

Section RateLimitFacts.
Import RateLimit.
Variable o : Options.

Lemma handle_state (st : gmap string Entry) t now :
    t <> "" ->
    fst (handle o st (Some t) now)
    = <[t := mkEntry (count (window_of o st t now) + 1) (resetTime (window_of o st t now))]> st.
Proof.
    intros Ht. unfold handle, window_of.
    rewrite (truthy_opt_Some t Ht), (or_default_Some t "" Ht). simpl.
    destruct (st !! t) as [e|]; [destruct (resetTime e <? now)|]; simpl;
      match goal with |- context [if ?b then _ else _] => destruct b end; reflexivity.
Qed.

Lemma handle_outcome (st : gmap string Entry) t now :
    t <> "" ->
    snd (handle o st (Some t) now)
    = let w := window_of o st t now in
      if maxRequests o <? count w + 1 then
        Rejected 429 (mkHeaders (maxRequests o) 0 (resetTime w))
          (override ("Rate limit exceeded for tenant " ++ t)
             (if truthy_opt (message o) then message o else None))
          (ceil_seconds (resetTime w - now))
      else Next (Some (mkHeaders (maxRequests o) (maxRequests o - (count w + 1))
                         (resetTime w))).
Proof.
    intros Ht. unfold handle, window_of.
    rewrite (truthy_opt_Some t Ht), (or_default_Some t "" Ht). simpl.
    destruct (st !! t) as [e|]; [destruct (resetTime e <? now)|]; simpl;
      match goal with |- context [if ?b then _ else _] => destruct b end; reflexivity.
Qed.

Lemma handle_skip (st : gmap string Entry) tid now :
    truthy_opt tid = false -> handle o st tid now = (st, Next None).
Proof. intros H. unfold handle. now rewrite H. Qed.


Lemma sweep_lookup (st : gmap string Entry) now t :
    sweep st now !! t
    = match st !! t with
      | Some e => if resetTime e <? now then None else Some e
      | None => None
      end.
Proof.
    unfold sweep. destruct (st !! t) as [e|] eqn:He.
    - destruct (Z.ltb_spec (resetTime e) now).
      + apply map_lookup_filter_None. right. intros e' He'. simpl.
        rewrite He in He'. injection He' as <-. tauto.
      + apply map_lookup_filter_Some. split; [assumption|]. simpl. lia.
    - apply map_lookup_filter_None. now left.
Qed.


End RateLimitFacts.




(** C10. A request without a tenant id ([req.tenantId] absent, or the empty
    string, which is falsy too) is passed on with no rate-limit header and
    leaves the whole table of windows as it was, whatever that table holds. *)
Theorem rate_limit_skips_request_without_tenant (o : RateLimit.Options)
    (st : gmap string RateLimit.Entry) (now : Z) :
  RateLimit.handle o st None now = (st, RateLimit.Next None)
  /\ RateLimit.handle o st (Some "") now = (st, RateLimit.Next None).
Proof. split; reflexivity. Qed.

(** C9. With a bound context the tool's client is the one the factory
    singleton returns for the context's tenant, whatever client the tool was
    constructed with; with no bound context it is the constructor-supplied
    client and the factory is not consulted; with neither, the call throws. *)
Theorem BaseTool_getClient_cases (g : Factory.Instance) (now now' : Z) :
  (forall this ctx,
      BaseTool.getClient this (Some ctx) g now now'
      = (Ok (fst (Factory.getClient (Factory.getApiClientFactory g)
                    (RequestContext.tenant ctx) now now')),
         Some (snd (Factory.getClient (Factory.getApiClientFactory g)
                      (RequestContext.tenant ctx) now now'))))
  /\ (forall c, BaseTool.getClient (BaseTool.mk (Some c)) None g now now' = (Ok c, g))
  /\ BaseTool.getClient (BaseTool.mk None) None g now now'
     = (Throw NoApiClientAvailable, g).
Proof.
  split; [|split].
  - intros this ctx. unfold BaseTool.getClient.
    destruct (Factory.getClient _ _ _ _). reflexivity.
  - reflexivity.
  - reflexivity.
Qed.

(** ** Tenant store *)

(** The store's [create] fails only on a read-only store; otherwise it
    stores the stamped record under its id, whatever was there. *)
Lemma Store_create_cases (s : TenantStore) (config : CreateConfig.t) (now : Z) :
  Store.create s config now = Throw StoreReadOnly
  \/ exists s', Store.create s config now = Ok (s', stamped config now)
                /\ Store.get s' (CreateConfig.tenantId config) = Some (stamped config now).
Proof.
  induction s as [tenants|d|p IHp f IHf].
  - right. eexists. split; [reflexivity|]. simpl.
    unfold InMemoryTenantStore.get. apply lookup_insert_eq.
  - now left.
  - destruct IHp as [E|(p' & E & G)]; simpl; rewrite E; simpl.
    + now left.
    + right. eexists. split; [reflexivity|]. simpl. now rewrite G.
Qed.




(** The in-memory store's [update] keeps [tenantId] and [createdAt] of the
    existing record and stamps [updatedAt] with the clock. *)
Lemma InMemory_update_dates (tenants : gmap string TenantConfig.t) (tid : string)
    (config : PartialConfig.t) (now : Z) (existing : TenantConfig.t) :
  tenants !! tid = Some existing ->
  exists t, InMemoryTenantStore.update tenants tid config now
            = Ok (<[tid := t]> tenants, t)
            /\ TenantConfig.createdAt t = TenantConfig.createdAt existing
            /\ TenantConfig.updatedAt t = now
            /\ TenantConfig.tenantId t = TenantConfig.tenantId existing.
Proof.
  intros H. unfold InMemoryTenantStore.update, InMemoryTenantStore.get. rewrite H.
  eexists. split; [reflexivity|]. simpl. auto.
Qed.

(** C7 fails on the promotion path.  The composite store holds "default"
    only in its environment fallback, created at time 1000; [update] at time
    5000 returns, and stores in the primary, a record whose [createdAt] is
    5000, not 1000.  On the same record held by the in-memory store,
    [update] keeps 1000. *)
Theorem composite_update_promotion_resets_createdAt :
  returned (Store.update (createTenantStore (Some env_default)) "default"
              (rename "Renamed") 5000)
  = Some (TenantConfig.mk "default" "Renamed" "k0" "L0"
            (Some "https://services.leadconnectorhq.com") (Some "2021-07-28") None
            5000 5000 true)
  /\ TenantConfig.createdAt env_default = 1000
  /\ returned (Store.update (InMemory {["default" := env_default]}) "default"
                 (rename "Renamed") 5000)
     = Some (TenantConfig.mk "default" "Renamed" "k0" "L0"
               (Some "https://services.leadconnectorhq.com") (Some "2021-07-28") None
               1000 5000 true).
Proof. split; [|split]; vm_compute; reflexivity. Qed.

(** ** Tenant resolver *)

Lemma take_segment_app (t post : string) :
  no_char "/" t = true -> Resolver.take_segment (t ++ String "/" post) = t.
Proof.
  induction t as [|a t IH]; simpl; intros H.
  - reflexivity.
  - apply andb_prop in H as [Ha Ht]. destruct (Ascii.eqb a "/"); [discriminate|].
    now rewrite IH.
Qed.

Lemma match_tenant_hit (s rest : string) :
  strip_prefix "/tenant/" s = Some rest ->
  truthy (Resolver.take_segment rest) = true ->
  Resolver.match_tenant s = Some (Resolver.take_segment rest).
Proof.
  intros Hp Ht. destruct s as [|c s']; [discriminate|].
  cbn [Resolver.match_tenant]. now rewrite Hp, Ht.
Qed.

(** A path that starts with [/tenant/<t>/] identifies [t]. *)
Lemma match_tenant_segment (t post : string) :
  t <> "" -> no_char "/" t = true ->
  Resolver.match_tenant ("/tenant/" ++ t ++ String "/" post) = Some t.
Proof.
  intros Ht Hs.
  rewrite (match_tenant_hit _ (t ++ String "/" post)).
  - now rewrite take_segment_app.
  - reflexivity.
  - rewrite take_segment_app by assumption. now apply truthy_true.
Qed.




(** ** Credential encryption *)

Lemma fromHex_hex_of_byte (b : byte) (r : string) :
  fromHex (hex_of_byte b ++ r) = b :: fromHex r.
Proof. destruct b; reflexivity. Qed.

Lemma fromHex_toHex (l : list byte) : fromHex (toHex l) = l.
Proof.
  induction l as [|b l IH].
  - reflexivity.
  - cbn [toHex]. rewrite fromHex_hex_of_byte. now rewrite IH.
Qed.

Lemma no_char_app (c : ascii) (a b : string) :
  no_char c (a ++ b) = no_char c a && no_char c b.
Proof.
  induction a as [|x a IH]; [reflexivity|].
  change (String x a ++ b) with (String x (a ++ b)).
  cbn [no_char]. rewrite IH. now rewrite andb_assoc.
Qed.

Lemma no_colon_hex_of_byte (b : byte) : no_char ":" (hex_of_byte b) = true.
Proof. destruct b; reflexivity. Qed.

Lemma no_colon_toHex (l : list byte) : no_char ":" (toHex l) = true.
Proof.
  induction l as [|b l IH]; [reflexivity|].
  cbn [toHex]. now rewrite no_char_app, no_colon_hex_of_byte, IH.
Qed.

Lemma split_on_no_sep (sep : ascii) (s : string) :
  no_char sep s = true -> split_on sep s = [s].
Proof.
  induction s as [|c s IH]; [reflexivity|].
  cbn [no_char split_on]. intros H. apply andb_prop in H as [Hc Hs].
  destruct (Ascii.eqb c sep); [discriminate|]. now rewrite IH.
Qed.

Lemma split_on_app (sep : ascii) (a b : string) :
  no_char sep a = true ->
  split_on sep (a ++ String sep b) = a :: split_on sep b.
Proof.
  induction a as [|c a IH]; intros H.
  - change ("" ++ String sep b) with (String sep b). cbn [split_on].
    now rewrite Ascii.eqb_refl.
  - change (String c a ++ String sep b) with (String c (a ++ String sep b)).
    cbn [no_char] in H. cbn [split_on].
    apply andb_prop in H as [Hc Ha].
    destruct (Ascii.eqb c sep); [discriminate|]. now rewrite IH.
Qed.

(** The three-part cipher text splits back into its three parts. *)
Lemma split_cipher_text (iv tag ct : list byte) :
  split_on ":" (toHex iv ++ ":" ++ toHex tag ++ ":" ++ toHex ct)
  = [toHex iv; toHex tag; toHex ct].
Proof.
  change (toHex iv ++ ":" ++ toHex tag ++ ":" ++ toHex ct)
    with (toHex iv ++ String ":" (toHex tag ++ String ":" (toHex ct))).
  rewrite split_on_app by apply no_colon_toHex.
  rewrite split_on_app by apply no_colon_toHex.
  rewrite split_on_no_sep by apply no_colon_toHex.
  reflexivity.
Qed.

Lemma decrypt_encrypt (C : Cipher) (encryptionKey : string) (iv : list byte)
    (text : string) :
  cipher_correct C ->
  Manager.decrypt C encryptionKey (Manager.encrypt C encryptionKey iv text) = text.
Proof.
  intros HC. unfold Manager.encrypt, Manager.decrypt.
  pose proof (HC (scryptSync C encryptionKey) iv text) as E.
  destruct (gcmEncrypt C (scryptSync C encryptionKey) iv text) as [ct tag].
  simpl in E. rewrite split_cipher_text, !fromHex_toHex, E. reflexivity.
Qed.

Lemma decrypt_not_three_parts (C : Cipher) (encryptionKey : string) (s : string) :
  List.length (split_on ":" s) <> 3%nat ->
  Manager.decrypt C encryptionKey s = s.
Proof.
  intros H. unfold Manager.decrypt.
  destruct (split_on ":" s) as [|p0 [|p1 [|p2 [|p3 l]]]]; try reflexivity.
  now contradiction H.
Qed.

Lemma toy_cipher_correct : cipher_correct ToyCipher.cipher.
Proof.
  intros key iv text. simpl. unfold ToyCipher.decrypt.
  rewrite bool_decide_eq_true_2 by reflexivity. f_equal.
  unfold ToyCipher.string_of_bytes, ToyCipher.bytes_of_string.
  rewrite List.rev_involutive, List.map_map.
  rewrite (List.map_ext _ (fun a => a)) by (intros a; apply ascii_of_byte_of_ascii).
  rewrite List.map_id. apply string_of_list_ascii_of_string.
Qed.

(** *** UTF-8 *)

Lemma Z_of_byte_of_Z (z : Z) : 0 <= z < 256 -> Utf8.Z_of_byte (Utf8.byte_of_Z z) = z.
Proof.
  intros H. unfold Utf8.Z_of_byte, Utf8.byte_of_Z.
  destruct (Byte.of_N (Z.to_N z)) as [b|] eqn:E.
  - apply Byte.to_of_N in E. rewrite E. lia.
  - apply Byte.of_N_None_iff in E. lia.
Qed.

Ltac zcase :=
  match goal with
  | |- context [Z.ltb ?a ?b] => destruct (Z.ltb_spec a b)
  | |- context [Z.leb ?a ?b] => destruct (Z.leb_spec a b)
  | |- context [Z.eqb ?a ?b] => destruct (Z.eqb_spec a b)
  end; cbn [andb orb negb]; try lia.

Ltac same_point cp :=
  repeat match goal with
         | |- context [Utf8.units_of_point ?e] =>
             lazymatch e with
             | cp => fail
             | _ => replace e with cp by lia
             end
         end;
  reflexivity.

(** Decoding the bytes of a code point that is no surrogate gives its code
    units, and leaves the decoder outside a sequence. *)
Lemma decode_point (cp : Z) (rest : list byte) :
  Utf8.scalar cp ->
  Utf8.decode_from None (Utf8.encode_point cp ++ rest)%list
  = (Utf8.units_of_point cp ++ Utf8.decode_from None rest)%list.
Proof.
  intros Hs. unfold Utf8.scalar in Hs. unfold Utf8.encode_point.
  pose proof (Z.div_mod cp 64 ltac:(lia)) as E.
  pose proof (Z.mod_pos_bound cp 64 ltac:(lia)) as B.
  pose proof (Z.div_mod (cp / 64) 64 ltac:(lia)) as E2.
  pose proof (Z.mod_pos_bound (cp / 64) 64 ltac:(lia)) as B2.
  pose proof (Z.div_mod (cp / 64 / 64) 64 ltac:(lia)) as E4.
  pose proof (Z.mod_pos_bound (cp / 64 / 64) 64 ltac:(lia)) as B4.
  assert (E3 : cp / 4096 = cp / 64 / 64) by (rewrite Z.div_div by lia; reflexivity).
  assert (E5 : cp / 262144 = cp / 64 / 64 / 64)
    by (rewrite !Z.div_div by lia; reflexivity).
  rewrite E3, E5. clear E3 E5.
  set (q := cp / 64) in *. set (r := cp mod 64) in *.
  set (q2 := q / 64) in *. set (r2 := q mod 64) in *.
  set (q3 := q2 / 64) in *. set (r3 := q2 mod 64) in *.
  destruct (Z.ltb_spec cp 0x80); [|destruct (Z.ltb_spec cp 0x800);
                                   [|destruct (Z.ltb_spec cp 0x10000)]].
  all: cbn [app Utf8.decode_from]; rewrite !Z_of_byte_of_Z by lia.
  all: unfold Utf8.step at 1; unfold Utf8.lead; repeat zcase.
  all: cbn [Utf8.step Utf8.lower Utf8.upper Utf8.point Utf8.needed]; repeat zcase.
  all: cbn [Utf8.step Utf8.lower Utf8.upper Utf8.point Utf8.needed]; repeat zcase.
  all: cbn [Utf8.step Utf8.lower Utf8.upper Utf8.point Utf8.needed]; repeat zcase.
  all: cbn [app]; try same_point cp.
  unfold Utf8.units_of_point. repeat zcase. reflexivity.
Qed.

Lemma units_of_pair (hi lo : Z) :
  Utf8.is_high hi = true -> Utf8.is_low lo = true ->
  Utf8.scalar (0x10000 + (hi - 0xD800) * 1024 + (lo - 0xDC00))
  /\ Utf8.units_of_point (0x10000 + (hi - 0xD800) * 1024 + (lo - 0xDC00)) = [hi; lo].
Proof.
  unfold Utf8.is_high, Utf8.is_low, Utf8.scalar. intros Hh Hl.
  apply andb_prop in Hh as [Hh1 Hh2]. apply andb_prop in Hl as [Hl1 Hl2].
  apply Z.leb_le in Hh1, Hh2, Hl1, Hl2. split; [lia|].
  unfold Utf8.units_of_point. zcase.
  replace (65536 + (hi - 55296) * 1024 + (lo - 56320) - 65536)
    with ((lo - 56320) + (hi - 55296) * 1024) by lia.
  rewrite Z.div_add by lia. rewrite Z.mod_add by lia.
  rewrite Z.div_small by lia. rewrite Z.mod_small by lia.
  f_equal; [lia|]. f_equal. lia.
Qed.

Lemma units_of_unit (u : Z) :
  0 <= u < 65536 -> Utf8.is_high u = false -> Utf8.is_low u = false ->
  Utf8.scalar u /\ Utf8.units_of_point u = [u].
Proof.
  unfold Utf8.is_high, Utf8.is_low, Utf8.scalar, Utf8.units_of_point. intros Hu Hh Hl.
  destruct (Z.leb_spec 0xD800 u), (Z.leb_spec u 0xDBFF), (Z.leb_spec 0xDC00 u),
    (Z.leb_spec u 0xDFFF); try discriminate; (split; [lia|]); zcase; reflexivity.
Qed.

Lemma decode_encode_bounded (n : nat) : forall s,
  (List.length s <= n)%nat -> Utf8.well_formed s -> Utf8.decode (Utf8.encode s) = s.
Proof.
  unfold Utf8.decode.
  induction n as [|n IH]; intros s Hn Hwf.
  - destruct s; [reflexivity | simpl in Hn; lia].
  - destruct s as [|u r]; [reflexivity|].
    cbn [Utf8.well_formed] in Hwf. destruct Hwf as [Hu Hwf].
    cbn [Utf8.encode]. destruct (Utf8.is_high u) eqn:Hh.
    + destruct r as [|l r']; [contradiction|]. destruct Hwf as [Hl Hwf]. rewrite Hl.
      destruct (units_of_pair u l Hh Hl) as [Hs Hp].
      rewrite (decode_point _ _ Hs), Hp. cbn [app]. f_equal. f_equal.
      apply IH; [simpl in Hn; lia | exact Hwf].
    + destruct Hwf as [Hl Hwf]. rewrite Hl.
      destruct (units_of_unit u Hu Hh Hl) as [Hs Hp].
      rewrite (decode_point _ _ Hs), Hp. cbn [app]. f_equal.
      apply IH; [simpl in Hn; lia | exact Hwf].
Qed.

(** UTF-8 is lossless on the strings in which every surrogate has its
    partner. *)
Lemma decode_encode (s : list Z) : Utf8.well_formed s -> Utf8.decode (Utf8.encode s) = s.
Proof. apply (decode_encode_bounded (List.length s)). lia. Qed.

Example encode_euro_sign : Utf8.encode [0x20AC] = [xe2; x82; xac].
Proof. reflexivity. Qed.

Example encode_surrogate_pair : Utf8.encode [0xD83D; 0xDE00] = [xf0; x9f; x98; x80].
Proof. reflexivity. Qed.

Example encode_lone_surrogate : Utf8.encode lone_surrogate = [xef; xbf; xbd].
Proof. reflexivity. Qed.

(** *** Narrow strings as lists of code units *)

Lemma charCode_bounds (c : ascii) : 0 <= Factory.charCode c < 256.
Proof.
  unfold Factory.charCode. pose proof (N_ascii_bounded c). lia.
Qed.

Lemma narrow_char_charCode (c : ascii) : Utf16.narrow_char (Factory.charCode c) = Some c.
Proof.
  unfold Utf16.narrow_char. pose proof (charCode_bounds c) as H.
  destruct (Z.leb_spec 0 (Factory.charCode c)); [|lia].
  destruct (Z.ltb_spec (Factory.charCode c) 256); [|lia]. simpl.
  unfold Factory.charCode. rewrite N2Z.id. now rewrite ascii_N_embedding.
Qed.

Lemma charCode_eqb (c d : ascii) : (Factory.charCode c =? Factory.charCode d) = Ascii.eqb c d.
Proof.
  destruct (Ascii.eqb_spec c d) as [->|Hne].
  - apply Z.eqb_refl.
  - apply Z.eqb_neq. intros E. apply Hne.
    assert (H : Some c = Some d) by now rewrite <- !narrow_char_charCode, E.
    now injection H.
Qed.

Lemma narrow_units (s : string) : Utf16.narrow (units s) = Some s.
Proof.
  induction s as [|c s IH]; [reflexivity|].
  change (units (String c s)) with (Factory.charCode c :: units s).
  cbn [Utf16.narrow]. now rewrite narrow_char_charCode, IH.
Qed.

Lemma units_app (a b : string) : units (a ++ b) = (units a ++ units b)%list.
Proof.
  induction a as [|c a IH]; [reflexivity|].
  change (String c a ++ b) with (String c (a ++ b)).
  change (units (String c (a ++ b))) with (Factory.charCode c :: units (a ++ b)).
  now rewrite IH.
Qed.

Lemma well_formed_units (s : string) : Utf8.well_formed (units s).
Proof.
  induction s as [|c s IH]; [exact I|].
  change (units (String c s)) with (Factory.charCode c :: units s).
  pose proof (charCode_bounds c) as H. cbn [Utf8.well_formed].
  unfold Utf8.is_high, Utf8.is_low.
  destruct (Z.leb_spec 0xD800 (Factory.charCode c)); [lia|].
  destruct (Z.leb_spec 0xDC00 (Factory.charCode c)); [lia|]. simpl.
  split; [lia|]. now split.
Qed.

Lemma fromHex_units_both (s : string) :
  Utf16.fromHex (units s) = fromHex s
  /\ forall c, Utf16.fromHex (units (String c s)) = fromHex (String c s).
Proof.
  induction s as [|d s [IH1 IH2]].
  - split; [reflexivity|]. intros c. reflexivity.
  - split; [apply IH2|]. intros c.
    change (units (String c (String d s)))
      with (Factory.charCode c :: Factory.charCode d :: units s).
    cbn [Utf16.fromHex fromHex]. unfold Utf16.hexval.
    rewrite !narrow_char_charCode.
    destruct (hexval c) as [x|]; [|reflexivity].
    destruct (hexval d) as [y|]; [|reflexivity].
    destruct (Byte.of_N (16 * x + y)) as [v|]; [|reflexivity].
    now rewrite IH1.
Qed.

Lemma fromHex_units (s : string) : Utf16.fromHex (units s) = fromHex s.
Proof. apply fromHex_units_both. Qed.

Lemma split_units (sep : ascii) (s : string) :
  Utf16.split (Factory.charCode sep) (units s) = List.map units (split_on sep s).
Proof.
  induction s as [|c s IH]; [reflexivity|].
  change (units (String c s)) with (Factory.charCode c :: units s).
  cbn [Utf16.split split_on]. rewrite charCode_eqb, IH.
  destruct (Ascii.eqb c sep); [reflexivity|].
  now destruct (split_on sep s).
Qed.

(** *** The cipher on arbitrary strings *)

(** Under a cipher that gives the plaintext bytes back, what [decrypt]
    returns for [encrypt(text)] is [text] taken through UTF-8 and back. *)
Lemma decrypt_encrypt_through_utf8 (B : ByteCipher) (encryptionKey : string)
    (iv : list byte) (text : list Z) :
  byte_cipher_correct B ->
  Utf16.decrypt B encryptionKey (Utf16.encrypt B encryptionKey iv text)
  = Utf8.decode (Utf8.encode text).
Proof.
  intros HB. unfold Utf16.encrypt, Utf16.decrypt.
  pose proof (HB (scrypt B encryptionKey) iv (Utf8.encode text)) as E.
  destruct (aesEncrypt B (scrypt B encryptionKey) iv (Utf8.encode text)) as [ct tag].
  simpl in E.
  change 58 with (Factory.charCode ":").
  rewrite split_units, split_cipher_text. cbn [List.map].
  now rewrite !fromHex_units, !fromHex_toHex, E.
Qed.

Lemma toy_bytes_correct : byte_cipher_correct toy_bytes.
Proof.
  intros key iv plain. simpl.
  rewrite bool_decide_eq_true_2 by reflexivity. now rewrite List.rev_involutive.
Qed.

(** On the narrower strings, the cipher that a cipher on bytes gives
    decrypts what it encrypts, and [encrypt] is the [encrypt] above on the
    code units of the text. *)
Lemma cipher_of_bytes_correct (B : ByteCipher) :
  byte_cipher_correct B -> cipher_correct (Utf16.cipher B).
Proof.
  intros HB key iv text. simpl. rewrite HB.
  rewrite (decode_encode _ (well_formed_units text)). apply narrow_units.
Qed.

Lemma encrypt_of_bytes (B : ByteCipher) (encryptionKey : string) (iv : list byte)
    (text : string) :
  units (Manager.encrypt (Utf16.cipher B) encryptionKey iv text)
  = Utf16.encrypt B encryptionKey iv (units text).
Proof.
  unfold Manager.encrypt, Utf16.encrypt. simpl.
  now destruct (aesEncrypt B (scrypt B encryptionKey) iv (Utf8.encode (units text))).
Qed.

(** C3, as stated, fails: a credential that is a high surrogate without its
    partner is a string, and it does not come back from
    [decrypt(encrypt(s))]; it comes back as U+FFFD, the replacement
    character, because [encrypt] hands the text to the cipher as UTF-8. *)
Lemma lone_surrogate_is_not_round_tripped :
  Utf16.decrypt toy_bytes "secret" (Utf16.encrypt toy_bytes "secret" zero_iv lone_surrogate)
  = [0xFFFD]
  /\ Utf16.decrypt toy_bytes "secret"
       (Utf16.encrypt toy_bytes "secret" zero_iv lone_surrogate)
     <> lone_surrogate
  /\ Forall (fun u => 0 <= u < 65536) lone_surrogate.
Proof.
  split; [vm_compute; reflexivity|]. split; [vm_compute; discriminate|].
  repeat constructor; vm_compute; discriminate.
Qed.

(** The same under every cipher that gives the plaintext bytes back. *)
Lemma lone_surrogate_under_any_cipher (B : ByteCipher) (encryptionKey : string)
    (iv : list byte) :
  byte_cipher_correct B ->
  Utf16.decrypt B encryptionKey (Utf16.encrypt B encryptionKey iv lone_surrogate)
  = [0xFFFD].
Proof. intros HB. now rewrite decrypt_encrypt_through_utf8. Qed.

(** C3 (amended). Under a cipher whose decryption gives back the bytes that
    were encrypted, and for every encryption key and every IV drawn by
    [encrypt]: [decrypt (encrypt s) = s] for every string [s] in which every
    surrogate has its partner; and [decrypt] returns unchanged every string
    that [split(':')] does not cut into exactly three parts. *)
Theorem encrypt_decrypt_roundtrip (B : ByteCipher) (encryptionKey : string) :
  byte_cipher_correct B ->
  (forall iv s,
      Utf8.well_formed s ->
      Utf16.decrypt B encryptionKey (Utf16.encrypt B encryptionKey iv s) = s)
  /\ (forall s, List.length (Utf16.split 58 s) <> 3%nat ->
                Utf16.decrypt B encryptionKey s = s).
Proof.
  intros HB. split.
  - intros iv s Hs. rewrite decrypt_encrypt_through_utf8 by assumption.
    now apply decode_encode.
  - intros s H. unfold Utf16.decrypt.
    destruct (Utf16.split 58 s) as [|p0 [|p1 [|p2 [|p3 l]]]]; try reflexivity.
    now contradiction H.
Qed.

Lemma encrypt_decrypt_roundtrip_witness :
  Utf16.decrypt toy_bytes "secret"
    (Utf16.encrypt toy_bytes "secret" [x01; x02] [0x6B; 0x20AC; 0xD83D; 0xDE00])
  = [0x6B; 0x20AC; 0xD83D; 0xDE00]
  /\ Utf16.decrypt toy_bytes "secret" (units "pit-legacy:key") = units "pit-legacy:key".
Proof.
  destruct (encrypt_decrypt_roundtrip toy_bytes "secret" toy_bytes_correct) as [Hr Hp].
  split.
  - apply Hr. vm_compute. intuition discriminate.
  - apply Hp. vm_compute. discriminate.
Defined.

Example toy_encrypt_k1 :
  Manager.encrypt ToyCipher.cipher "secret" [x01; x02] "k1" = "0102:0102:316b".
Proof. reflexivity. Qed.

Example toy_bytes_encrypt_euro :
  Utf16.encrypt toy_bytes "secret" [x01; x02] [0x20AC] = units "0102:0102:ac82e2".
Proof. reflexivity. Qed.

(** ** Tenant configuration manager *)

(** C5 fails on the returned view.  Whatever the cipher and the key, creating
    tenant "acme" with credential "k1" on an empty store (upstream test
    passing) stores the record with the credential encrypted, and returns
    that same stored record: its [apiKey] is the cipher text
    [iv:authTag:ciphertext], which begins with the IV in hex, not "k1". *)
Theorem createTenant_returns_encrypted_view (C : Cipher) (encryptionKey : string) :
  Manager.createTenant C encryptionKey (fun _ => true) (InMemory ∅) acme_request
    0 "abc" zero_iv 2000
  = Ok (InMemory
          (<["acme" :=
              TenantConfig.mk "acme" "Acme"
                (Manager.encrypt C encryptionKey zero_iv "k1") "L1"
                (Some "https://services.leadconnectorhq.com") (Some "2021-07-28")
                (Some []) 2000 2000 true]> ∅),
        TenantConfig.mk "acme" "Acme"
          (Manager.encrypt C encryptionKey zero_iv "k1") "L1"
          (Some "https://services.leadconnectorhq.com") (Some "2021-07-28")
          (Some []) 2000 2000 true)
  /\ Manager.apiKey acme_request = "k1"
  /\ Manager.encrypt C encryptionKey zero_iv "k1" <> "k1"
  /\ strip_prefix "00000000000000000000000000000000:"
       (Manager.encrypt C encryptionKey zero_iv "k1") <> None.
Proof.
  unfold Manager.createTenant, Manager.encrypt.
  change (Manager.apiKey acme_request) with "k1".
  destruct (gcmEncrypt C (scryptSync C encryptionKey) zero_iv "k1") as [ct tag].
  split; [|split; [|split]].
  - reflexivity.
  - reflexivity.
  - discriminate.
  - discriminate.
Qed.

(** ** API client factory *)

Lemma digit36_not_underscore (d : Z) : Ascii.eqb (Factory.digit36 d) "_" = false.
Proof.
  unfold Factory.digit36. generalize (Z.to_nat d) as n. intros n.
  do 36 (destruct n as [|n]; [reflexivity|]). reflexivity.
Qed.

Lemma digits36_no_underscore (fuel : nat) : forall n acc,
  no_char "_" acc = true -> no_char "_" (Factory.digits36 fuel n acc) = true.
Proof.
  induction fuel as [|fuel IH]; intros n acc H; simpl.
  - assumption.
  - destruct (n <=? 0); [assumption|]. apply IH.
    cbn [no_char]. now rewrite digit36_not_underscore, H.
Qed.

Lemma hashString_no_underscore (s : string) : no_char "_" (Factory.hashString s) = true.
Proof.
  unfold Factory.hashString, Factory.toString36.
  destruct (_ <=? 0); [reflexivity|]. now apply digits36_no_underscore.
Qed.

(** The hash part has no underscore, so the key determines the tenant id. *)
Lemma key_tenant_inj (t1 : string) : forall t2 h1 h2,
  no_char "_" h1 = true -> no_char "_" h2 = true ->
  t1 ++ "_" ++ h1 = t2 ++ "_" ++ h2 -> t1 = t2.
Proof.
  assert (Hbad : forall t h, no_char "_" (t ++ String "_" h) = false).
  { intros t h. rewrite no_char_app. cbn [no_char]. rewrite Ascii.eqb_refl.
    simpl. apply andb_false_r. }
  induction t1 as [|c1 t1 IH]; intros [|c2 t2] h1 h2 H1 H2 E.
  - reflexivity.
  - change (String "_" h1 = String c2 (t2 ++ String "_" h2)) in E.
    injection E as _ E. rewrite E, Hbad in H1. discriminate.
  - change (String c1 (t1 ++ String "_" h1) = String "_" h2) in E.
    injection E as _ E. rewrite <- E, Hbad in H2. discriminate.
  - change (String c1 (t1 ++ "_" ++ h1) = String c2 (t2 ++ "_" ++ h2)) in E.
    injection E as -> E. f_equal. now apply (IH t2 h1 h2).
Qed.

Lemma map_get_In (k : string) (m : Factory.Cache) (v : Factory.CachedClient) :
  Factory.map_get k m = Some v -> In (k, v) m.
Proof.
  induction m as [|[k' v'] m IH]; simpl; [discriminate|].
  destruct (String.eqb_spec k' k) as [-> |_].
  - intros [= ->]. now left.
  - intros H. right. now apply IH.
Qed.

Lemma In_map_set (k : string) (v : Factory.CachedClient) (m : Factory.Cache) e :
  In e (Factory.map_set k v m) -> e = (k, v) \/ In e m.
Proof.
  induction m as [|[k' v'] m IH]; simpl.
  - intros [<- |[]]. now left.
  - destruct (String.eqb k' k); simpl.
    + intros [<- |H]; [now left | right; now right].
    + intros [<- |H]; [right; now left|].
      destruct (IH H) as [-> |H']; [now left | right; now right].
Qed.

Lemma In_map_delete (k : string) (m : Factory.Cache) e :
  In e (Factory.map_delete k m) -> In e m /\ fst e <> k.
Proof.
  unfold Factory.map_delete. rewrite List.filter_In. intros [H Hk]. split; [assumption|].
  destruct (String.eqb_spec (fst e) k); [discriminate|assumption].
Qed.

Lemma In_fold_delete (keys : list string) : forall (m : Factory.Cache) e,
  In e (fold_left (fun m k => Factory.map_delete k m) keys m) ->
  In e m /\ ~ In (fst e) keys.
Proof.
  induction keys as [|k keys IH]; simpl; intros m e H.
  - tauto.
  - apply IH in H as [H Hn]. apply In_map_delete in H as [H Hk].
    split; [assumption|]. intros [E|E]; [now symmetry in E | contradiction].
Qed.

(** [clearTenantCache] leaves no entry of that tenant, and only removes. *)
Lemma clearTenantCache_spec (f : Factory.t) (tid : string) e :
  In e (Factory.clientCache (Factory.clearTenantCache f tid)) ->
  In e (Factory.clientCache f) /\ Factory.tenantId (snd e) <> tid.
Proof.
  unfold Factory.clearTenantCache. simpl. intros H.
  apply In_fold_delete in H as [H Hn]. split; [assumption|].
  intros E. apply Hn. apply List.in_map. apply List.filter_In. split; [assumption|].
  rewrite E. apply String.eqb_refl.
Qed.

Lemma In_addToCache (f : Factory.t) key cached now e :
  In e (Factory.clientCache (Factory.addToCache f key cached now)) ->
  e = (key, cached) \/ In e (Factory.clientCache f).
Proof.
  unfold Factory.addToCache. simpl. intros H.
  apply In_map_set in H as [-> |H]; [now left|]. right.
  destruct (_ <=? _); [|assumption].
  destruct (fst _) as [k|]; [|assumption].
  destruct (truthy k); [|assumption].
  now apply In_map_delete in H as [H _].
Qed.

(** What [getClient] leaves in the cache: old entries, or one entry under
    the tenant's key, holding either the client that was cached under that
    key or a client newly constructed from the tenant's configuration. *)
Lemma In_getClient (f : Factory.t) tenant now now' e :
  In e (Factory.clientCache (snd (Factory.getClient f tenant now now'))) ->
  In e (Factory.clientCache f)
  \/ (exists old, In (Factory.getCacheKey tenant, old) (Factory.clientCache f)
                  /\ e = (Factory.getCacheKey tenant,
                          Factory.mkCached (Factory.client old) now (Factory.tenantId old)))
  \/ e = (Factory.getCacheKey tenant,
          Factory.mkCached (Factory.createClient tenant) now
            (TenantConfig.tenantId tenant)).
Proof.
  unfold Factory.getClient.
  destruct (Factory.map_get _ _) as [old|] eqn:G; simpl; intros H.
  - apply In_map_set in H as [-> |H]; [|now left].
    right. left. exists old. split; [now apply map_get_In | reflexivity].
  - apply In_addToCache in H as [-> |H]; [right; now right | now left].
Qed.

Lemma entry_wf_fresh (tenant : TenantConfig.t) (c : GHLApiClient) (now : Z) :
  entry_wf (Factory.getCacheKey tenant,
            Factory.mkCached c now (TenantConfig.tenantId tenant)).
Proof.
  exists (Factory.hashString (TenantConfig.apiKey tenant)).
  split; [apply hashString_no_underscore | reflexivity].
Qed.

Lemma factory_step_wf (f : Factory.t) (op : FactoryOp) :
  cache_wf (Factory.clientCache f) ->
  cache_wf (Factory.clientCache (factory_step f op)).
Proof.
  intros Hwf e H. destruct op as [tenant now now'|now|tid|]; simpl in H.
  - apply In_getClient in H as [H|[(old & Hold & ->)| ->]].
    + now apply Hwf.
    + destruct (Hwf _ Hold) as (h & Hh & E). exists h. split; assumption.
    + apply entry_wf_fresh.
  - apply List.filter_In in H as [H _]. now apply Hwf.
  - apply clearTenantCache_spec in H as [H _]. now apply Hwf.
  - contradiction.
Qed.

Lemma append_inv_head (t x y : string) : t ++ x = t ++ y -> x = y.
Proof.
  induction t as [|c t IH]; intros E; [exact E|].
  change (String c (t ++ x) = String c (t ++ y)) in E. injection E as E. now apply IH.
Qed.

(** Equal keys: same tenant id and same credential hash. *)
Lemma cacheKey_inj (t1 t2 k1 k2 : string) :
  Factory.cacheKey t1 k1 = Factory.cacheKey t2 k2 ->
  t1 = t2 /\ Factory.hashString k1 = Factory.hashString k2.
Proof.
  unfold Factory.cacheKey. intros E.
  assert (Ht : t1 = t2).
  { apply (key_tenant_inj _ _ _ _ (hashString_no_underscore k1)
             (hashString_no_underscore k2) E). }
  subst t2. split; [reflexivity|].
  apply append_inv_head in E. now injection E.
Qed.

Lemma factory_step_built_from (tid k : string) (f : Factory.t) (op : FactoryOp) :
  op_current tid k op ->
  built_from tid k (Factory.clientCache f) ->
  built_from tid k (Factory.clientCache (factory_step f op)).
Proof.
  intros Hop Hb e H Hkey. destruct op as [tenant now now'|now|tid'|]; simpl in H.
  - apply In_getClient in H as [H|[(old & Hold & ->)| ->]].
    + now apply Hb.
    + simpl in *. now apply (Hb _ Hold).
    + simpl in *. apply cacheKey_inj in Hkey as [Ht Hh]. now apply Hop.
  - apply List.filter_In in H as [H _]. now apply Hb.
  - apply clearTenantCache_spec in H as [H _]. now apply Hb.
  - contradiction.
Qed.

Lemma factory_run_built_from (tid k : string) (ops : list FactoryOp) : forall f,
  Forall (op_current tid k) ops ->
  built_from tid k (Factory.clientCache f) ->
  built_from tid k (Factory.clientCache (factory_run f ops)).
Proof.
  induction ops as [|op ops IH]; intros f Hops Hb.
  - exact Hb.
  - inversion Hops as [|? ? Hop Hops']; subst.
    change (factory_run f (op :: ops)) with (factory_run (factory_step f op) ops).
    apply IH; [assumption | now apply factory_step_built_from].
Qed.

Lemma factory_run_wf (ops : list FactoryOp) : forall f,
  cache_wf (Factory.clientCache f) ->
  cache_wf (Factory.clientCache (factory_run f ops)).
Proof.
  induction ops as [|op ops IH]; intros f Hwf; [exact Hwf|].
  change (factory_run f (op :: ops)) with (factory_run (factory_step f op) ops).
  apply IH. now apply factory_step_wf.
Qed.

(** In a cache in which every client under the tenant's key was built from
    the tenant's credential, [getClient] returns a client built from that
    credential, by hit or by miss. *)
Lemma getClient_built_from (f : Factory.t) (tenant : TenantConfig.t) (now now' : Z) :
  built_from (TenantConfig.tenantId tenant) (TenantConfig.apiKey tenant)
    (Factory.clientCache f) ->
  accessToken (clientConfig (fst (Factory.getClient f tenant now now')))
  = TenantConfig.apiKey tenant.
Proof.
  intros Hb. unfold Factory.getClient.
  destruct (Factory.map_get _ _) as [old|] eqn:G; simpl; [|reflexivity].
  apply map_get_In in G. now apply (Hb _ G).
Qed.

Lemma Store_get_wf (s : TenantStore) (tid : string) (t : TenantConfig.t) :
  store_wf s -> Store.get s tid = Some t -> TenantConfig.tenantId t = tid.
Proof.
  induction s as [tenants|d|p IHp f IHf]; simpl.
  - intros Hwf H. now apply Hwf.
  - unfold EnvVarTenantStore.get. intros Hwf H.
    destruct (String.eqb_spec tid "default") as [-> |_]; [now apply Hwf | discriminate].
  - intros [Hp Hf] H. destruct (Store.get p tid) as [t'|] eqn:G.
    + injection H as <-. now apply IHp.
    + now apply IHf.
Qed.

Lemma Store_create_Ok (s s' : TenantStore) (config : CreateConfig.t) (now : Z)
    (t : TenantConfig.t) :
  Store.create s config now = Ok (s', t) ->
  t = stamped config now /\ Store.get s' (CreateConfig.tenantId config) = Some t.
Proof.
  intros H. destruct (Store_create_cases s config now) as [E|(s'' & E & G)];
    rewrite E in H; [discriminate|].
  injection H as <- <-. now split.
Qed.

(** A successful [update] that does not name a tenant id returns the record
    now stored under [tid]; it carries that id, and the credential of the
    update when there is one. *)
Lemma Store_update_Ok (s : TenantStore) : forall s' tid config now u,
  store_wf s ->
  PartialConfig.tenantId config = None ->
  Store.update s tid config now = Ok (s', u) ->
  TenantConfig.tenantId u = tid
  /\ Store.get s' tid = Some u
  /\ (forall x, PartialConfig.apiKey config = Some x -> TenantConfig.apiKey u = x).
Proof.
  induction s as [tenants|d|p IHp f IHf]; intros s' tid config now u Hwf Hc H; simpl in H.
  - unfold InMemoryTenantStore.update, InMemoryTenantStore.get in H.
    destruct (tenants !! tid) as [existing|] eqn:G; [|discriminate].
    simpl in H. injection H as <- <-. simpl. split; [|split].
    + now apply Hwf.
    + unfold InMemoryTenantStore.get. apply lookup_insert_eq.
    + intros x Hx. now rewrite Hx.
  - discriminate.
  - destruct Hwf as [Hp Hf]. destruct (Store.exists_ p tid).
    + destruct (Store.update p tid config now) as [[p' t]|e] eqn:U; [|discriminate].
      simpl in H. injection H as <- <-.
      destruct (IHp _ _ _ _ _ Hp Hc U) as (Ht & Hg & Hk).
      split; [assumption|]. split; [|assumption]. simpl. now rewrite Hg.
    + destruct (Store.get f tid) as [ft|] eqn:G; [|discriminate].
      destruct (Store.create p _ now) as [[p' t]|e] eqn:Cr; [|discriminate].
      simpl in H. injection H as <- <-.
      apply Store_create_Ok in Cr as [-> Hg]. simpl in Hg.
      rewrite Hc in Hg. simpl in Hg.
      rewrite (Store_get_wf f tid ft Hf G) in Hg.
      split; [|split].
      * simpl. rewrite Hc. simpl. now apply (Store_get_wf f tid ft).
      * simpl. now rewrite Hg.
      * intros x Hx. simpl. now rewrite Hx.
Qed.

(** [store_wf] holds of the store the server starts with and is kept by
    [create] and [update]. *)
Lemma createTenantStore_wf (key loc base : option string) (now : Z) :
  store_wf (createTenantStore (EnvVarTenantStore.new key loc base now)).
Proof.
  split; simpl.
  - intros k v H. rewrite lookup_empty in H. discriminate.
  - unfold EnvVarTenantStore.new. intros v H.
    destruct (truthy_opt key && truthy_opt loc); [|discriminate].
    now injection H as <-.
Qed.

Lemma Store_create_wf (s : TenantStore) : forall s' config now t,
  store_wf s -> Store.create s config now = Ok (s', t) -> store_wf s'.
Proof.
  induction s as [tenants|d|p IHp f IHf]; intros s' config now t Hwf H; simpl in H.
  - injection H as <- _. simpl. intros k v Hk.
    apply lookup_insert_Some in Hk as [[<- <-]|[_ Hk]]; [reflexivity | now apply Hwf].
  - discriminate.
  - destruct Hwf as [Hp Hf].
    destruct (Store.create p config now) as [[p' t']|e] eqn:Cr; [|discriminate].
    simpl in H. injection H as <- _. split; [|assumption]. now apply (IHp _ _ _ _ Hp Cr).
Qed.

Lemma Store_update_wf (s : TenantStore) : forall s' tid config now t,
  store_wf s -> Store.update s tid config now = Ok (s', t) -> store_wf s'.
Proof.
  induction s as [tenants|d|p IHp f IHf]; intros s' tid config now t Hwf H; simpl in H.
  - unfold InMemoryTenantStore.update, InMemoryTenantStore.get in H.
    destruct (tenants !! tid) as [existing|] eqn:G; [|discriminate].
    simpl in H. injection H as <- _. simpl. intros k v Hk.
    apply lookup_insert_Some in Hk as [[<- <-]|[_ Hk]]; [simpl; now apply Hwf | now apply Hwf].
  - discriminate.
  - destruct Hwf as [Hp Hf]. destruct (Store.exists_ p tid).
    + destruct (Store.update p tid config now) as [[p' t']|e] eqn:U; [|discriminate].
      simpl in H. injection H as <- _. split; [|assumption]. now apply (IHp _ _ _ _ _ Hp U).
    + destruct (Store.get f tid) as [ft|]; [|discriminate].
      destruct (Store.create p _ now) as [[p' t']|e] eqn:Cr; [|discriminate].
      simpl in H. injection H as <- _. split; [|assumption].
      now apply (Store_create_wf _ _ _ _ _ Hp Cr).
Qed.

(** C1, as stated, fails when a stale call meets a hash collision.  The
    credentials "Aa" and "BB" have the same [hashString].  Tenant "acme" is
    updated from "Aa" to "BB" (the cache is cleared); a request still holding
    the old configuration then calls [getClient], which caches a client built
    from "Aa" under the key [acme_<hash>]; the next [getClient] with the
    updated configuration computes the same key, hits, and returns the
    client built from "Aa". *)
Lemma stale_call_with_colliding_hash_serves_old_client :
  Factory.hashString "Aa" = Factory.hashString "BB"
  /\ match Manager.updateTenant ToyCipher.cipher "secret" (fun _ => true)
             (InMemory {["acme" := acme_Aa_stored]}) (Some (Factory.new None None))
             "acme" rotate_to_BB [x01; x02] 5000 with
     | Ok (_, Some f, updated) =>
         TenantConfig.apiKey updated = "BB"
         /\ accessToken
              (clientConfig
                 (fst (Factory.getClient (snd (Factory.getClient f acme_Aa 5500 5500))
                         updated 6000 6000)))
            = "Aa"
     | _ => False
     end.
Proof. split; [reflexivity|]. vm_compute. split; reflexivity. Qed.

(** C1 (amended). Let [updateTenant tid request] with a new credential [k] succeed,
    on a store whose records sit under their own ids and with a well-formed
    factory cache, under a cipher whose decryption inverts its encryption.
    Then the configuration it returns (also what [getTenant] serves from
    then on) carries id [tid] and credential [k]; the factory cache holds no
    entry of tenant [tid] any more, so the key of the updated configuration
    misses; and after any further factory activity in which calls for [tid]
    carry [k] or a credential whose hash differs from that of [k] (calls for
    other tenants, expiry sweeps and cache clears are unrestricted),
    [getClient] with the updated configuration returns a client whose access
    token is [k]. *)
Theorem updateTenant_then_getClient_uses_new_credential (C : Cipher)
    (encryptionKey : string) (testConnection : GHLConfig -> bool)
    (store store' : TenantStore) (g g' : Factory.Instance) (tid k : string)
    (request : Manager.UpdateTenantRequest) (iv : list byte) (now : Z)
    (updated : TenantConfig.t) :
  cipher_correct C ->
  store_wf store ->
  instance_wf g ->
  Manager.u_apiKey request = Some k ->
  Manager.updateTenant C encryptionKey testConnection store g tid request iv now
  = Ok (store', g', updated) ->
  TenantConfig.tenantId updated = tid
  /\ TenantConfig.apiKey updated = k
  /\ Manager.getTenant C encryptionKey store' tid = Some updated
  /\ exists f,
      g' = Some f
      /\ (forall e, In e (Factory.clientCache f) -> Factory.tenantId (snd e) <> tid)
      /\ Factory.map_get (Factory.getCacheKey updated) (Factory.clientCache f) = None
      /\ forall ops t1 t2,
          Forall (op_current tid k) ops ->
          accessToken
            (clientConfig (fst (Factory.getClient (factory_run f ops) updated t1 t2)))
          = k.
Proof.
  intros HC Hstore Hg Hk H. unfold Manager.updateTenant in H.
  destruct (Store.get store tid) as [existing|]; [|discriminate].
  match type of H with (let! _ := ?test in _) = _ => destruct test as [[]|e] end;
    [|discriminate].
  simpl in H.
  destruct (Store.update store tid _ now) as [[s1 u]|e] eqn:U; [|discriminate].
  simpl in H. injection H as <- <- <-.
  destruct (Store_update_Ok store s1 tid
              (Manager.prepare_update C encryptionKey request iv) now u Hstore eq_refl U)
    as (Hid & Hget & Hkey).
  assert (Hu : TenantConfig.apiKey u = Manager.encrypt C encryptionKey iv k).
  { apply Hkey. simpl. now rewrite Hk. }
  assert (Hdec : Manager.decrypt C encryptionKey (TenantConfig.apiKey u) = k).
  { rewrite Hu. now apply decrypt_encrypt. }
  rewrite Hdec.
  set (f := Factory.clearTenantCache (Factory.getApiClientFactory g) tid).
  assert (Hwf0 : cache_wf (Factory.clientCache (Factory.getApiClientFactory g))).
  { destruct g as [f0|]; simpl; [now apply Hg | intros e []]. }
  assert (Hwf : cache_wf (Factory.clientCache f)).
  { intros e He. apply clearTenantCache_spec in He as [He _]. now apply Hwf0. }
  assert (Hnone : forall e, In e (Factory.clientCache f) -> Factory.tenantId (snd e) <> tid).
  { intros e He. now apply clearTenantCache_spec in He as [_ He]. }
  split; [exact Hid|]. split; [reflexivity|]. split.
  { unfold Manager.getTenant. rewrite Hget. now rewrite Hdec. }
  exists f. split; [reflexivity|]. split; [exact Hnone|]. split.
  - destruct (Factory.map_get _ _) as [old|] eqn:G; [|reflexivity].
    apply map_get_In in G. exfalso. apply (Hnone _ G). simpl.
    destruct (Hwf _ G) as (h & Hh & E).
    unfold Factory.getCacheKey, Factory.cacheKey in E. simpl in E. rewrite Hid in E.
    symmetry. apply (key_tenant_inj _ _ _ h (hashString_no_underscore _) Hh E).
  - intros ops t1 t2 Hops.
    rewrite getClient_built_from; [reflexivity|].
    simpl. rewrite Hid. apply factory_run_built_from; [assumption|].
    intros e He Hfst. exfalso. apply (Hnone e He).
    destruct (Hwf _ He) as (h & Hh & E). rewrite Hfst in E.
    symmetry. apply (key_tenant_inj _ _ _ h (hashString_no_underscore _) Hh E).
Qed.

Lemma updateTenant_then_getClient_uses_new_credential_witness :
  exists store' g' updated,
    Manager.updateTenant ToyCipher.cipher "secret" (fun _ => true)
      (InMemory {["acme" := acme_stored]}) (Some warm_factory) "acme" rotate_key
      [x01; x02] 5000
    = Ok (store', g', updated)
    /\ TenantConfig.apiKey updated = "k2"
    /\ exists f,
        g' = Some f
        /\ accessToken
             (clientConfig
                (fst (Factory.getClient
                        (factory_run f
                           [OpGetClient globex 5500 5500; OpGetClient acme_v1 5550 5550;
                            OpCleanup 5600])
                        updated 6000 6000)))
           = "k2".
Proof.
  destruct (Manager.updateTenant ToyCipher.cipher "secret" (fun _ => true)
              (InMemory {["acme" := acme_stored]}) (Some warm_factory) "acme" rotate_key
              [x01; x02] 5000) as [[[s' g'] u]|e] eqn:E.
  - exists s', g', u. split; [reflexivity|].
    destruct (updateTenant_then_getClient_uses_new_credential ToyCipher.cipher "secret"
                (fun _ => true) (InMemory {["acme" := acme_stored]}) s'
                (Some warm_factory) g' "acme" "k2" rotate_key [x01; x02] 5000 u)
      as (_ & Hk & _ & f & Hf & _ & _ & Hops).
    + exact toy_cipher_correct.
    + intros k v H. apply lookup_singleton_Some in H as [<- <-]. reflexivity.
    + intros f [= <-]. apply factory_step_wf. intros e [].
    + reflexivity.
    + exact E.
    + split; [exact Hk|]. exists f. split; [exact Hf|]. apply Hops.
      repeat constructor; simpl; intros H1 H2; [discriminate H1|].
      vm_compute in H2. discriminate H2.
  - vm_compute in E. discriminate.
Defined.

(** C2 fails when clock reads coincide.  A factory with [maxCacheSize = 1]
    serves tenant "a" and then tenant "b" within the same millisecond
    (all four clock reads are 1000): at the second insertion the cache is at
    capacity, but the only entry was last used at 1000, which is not earlier
    than the [oldestTime] the search starts from, so nothing is evicted and
    the cache ends with two entries. *)
Theorem cache_exceeds_maxCacheSize_within_one_millisecond :
  Factory.maxCacheSize (Factory.new (Some 1) None) = 1
  /\ Factory.find_oldest
       (Factory.clientCache
          (snd (Factory.getClient (Factory.new (Some 1) None) tenant_a 1000 1000)))
       1000
     = (None, 1000)
  /\ Factory.map_size
       (Factory.clientCache
          (snd (Factory.getClient
                  (snd (Factory.getClient (Factory.new (Some 1) None) tenant_a 1000 1000))
                  tenant_b 1000 1000)))
     = 2.
Proof. split; [|split]; vm_compute; reflexivity. Qed.

(** *** Eviction when some entry is older than the clock read *)

(** The search loop: the running time only decreases, it bounds every entry
    seen from below, and a key is chosen exactly when an entry is strictly
    older than the time the search started from; that key's entry has the
    least [lastUsed]. *)
Lemma oldest_loop_spec (m : Factory.Cache) : forall ok ot,
  let r := fold_left Factory.oldest_step m (ok, ot) in
  snd r <= ot
  /\ (forall e, In e m -> snd r <= Factory.lastUsed (snd e))
  /\ (r = (ok, ot)
      \/ exists k v, In (k, v) m /\ fst r = Some k /\ Factory.lastUsed v = snd r
                     /\ snd r < ot)
  /\ ((exists e, In e m /\ Factory.lastUsed (snd e) < ot) -> r <> (ok, ot)).
Proof.
  induction m as [|e m IH]; intros ok ot r; subst r.
  - simpl. split; [lia|]. split; [tauto|]. split; [now left|]. intros (e & [] & _).
  - cbn [fold_left].
    assert (Hs : Factory.oldest_step (ok, ot) e
                 = if Factory.lastUsed (snd e) <? ot
                   then (Some (fst e), Factory.lastUsed (snd e)) else (ok, ot))
      by reflexivity.
    rewrite Hs. clear Hs.
    destruct (Z.ltb_spec (Factory.lastUsed (snd e)) ot) as [Hlt|Hge].
    + destruct (IH (Some (fst e)) (Factory.lastUsed (snd e))) as (H1 & H2 & H3 & H4).
      split; [lia|]. split.
      { intros e' [<- |He']; [exact H1 | now apply H2]. }
      split.
      * right. destruct H3 as [E|(k & v & Hin & Hk & Hv & Hlt')].
        -- exists (fst e), (snd e). rewrite E. simpl.
           split; [left; now destruct e|]. split; [reflexivity|]. split; [reflexivity|lia].
        -- exists k, v. split; [now right|]. split; [assumption|]. split; [assumption|lia].
      * intros _ E. rewrite E in H1. simpl in H1. lia.
    + destruct (IH ok ot) as (H1 & H2 & H3 & H4).
      split; [exact H1|]. split.
      { intros e' [<- |He']; [lia | now apply H2]. }
      split.
      * destruct H3 as [E|(k & v & Hin & Hk & Hv & Hlt')]; [now left|].
        right. exists k, v. split; [now right|]. tauto.
      * intros (e' & [<- |He'] & Hlt'); [lia|]. apply H4. eauto.
Qed.

Lemma find_oldest_least_recent (m : Factory.Cache) (now : Z) :
  (exists e, In e m /\ Factory.lastUsed (snd e) < now) ->
  exists k v, In (k, v) m
              /\ fst (Factory.find_oldest m now) = Some k
              /\ Factory.lastUsed v < now
              /\ forall e, In e m -> Factory.lastUsed v <= Factory.lastUsed (snd e).
Proof.
  intros Hex. unfold Factory.find_oldest.
  destruct (oldest_loop_spec m None now) as (H1 & H2 & H3 & H4).
  destruct H3 as [E|(k & v & Hin & Hk & Hv & Hlt)]; [now destruct (H4 Hex)|].
  exists k, v. split; [assumption|]. split; [assumption|]. split; [lia|].
  intros e He. rewrite Hv. now apply H2.
Qed.

Lemma length_map_set_le (k : string) (v : Factory.CachedClient) (m : Factory.Cache) :
  (List.length (Factory.map_set k v m) <= S (List.length m))%nat.
Proof.
  induction m as [|[k' v'] m IH]; simpl; [lia|].
  destruct (String.eqb k' k); simpl; lia.
Qed.

Lemma length_map_set_hit (k : string) (v v' : Factory.CachedClient) (m : Factory.Cache) :
  Factory.map_get k m = Some v' ->
  List.length (Factory.map_set k v m) = List.length m.
Proof.
  induction m as [|[k' v''] m IH]; simpl; [discriminate|].
  destruct (String.eqb k' k); simpl; [reflexivity|]. intros H. now rewrite IH.
Qed.

Lemma length_map_delete_lt (k : string) (v : Factory.CachedClient) (m : Factory.Cache) :
  In (k, v) m -> (List.length (Factory.map_delete k m) < List.length m)%nat.
Proof.
  unfold Factory.map_delete. induction m as [|[k' v'] m IH]; simpl; [tauto|].
  intros [E|H].
  - injection E as -> ->. rewrite String.eqb_refl. simpl.
    pose proof (List.filter_length_le (fun e => negb (String.eqb (fst e) k)) m). lia.
  - specialize (IH H). destruct (negb (String.eqb k' k)); simpl; lia.
Qed.

(** With the cache at capacity and some entry last used before the clock
    read of [addToCache], the entry removed is one with the least
    [lastUsed], and the cache does not grow. *)
Lemma addToCache_evicts_least_recent (f : Factory.t) (key : string)
    (cached : Factory.CachedClient) (now : Z) :
  cache_wf (Factory.clientCache f) ->
  Factory.maxCacheSize f <= Factory.map_size (Factory.clientCache f) ->
  (exists e, In e (Factory.clientCache f) /\ Factory.lastUsed (snd e) < now) ->
  exists k v,
    In (k, v) (Factory.clientCache f)
    /\ (forall e, In e (Factory.clientCache f) ->
                  Factory.lastUsed v <= Factory.lastUsed (snd e))
    /\ Factory.clientCache (Factory.addToCache f key cached now)
       = Factory.map_set key cached (Factory.map_delete k (Factory.clientCache f))
    /\ Factory.map_size (Factory.clientCache (Factory.addToCache f key cached now))
       <= Factory.map_size (Factory.clientCache f).
Proof.
  intros Hwf Hfull Hex.
  destruct (find_oldest_least_recent _ now Hex) as (k & v & Hin & Hk & _ & Hmin).
  exists k, v. split; [assumption|]. split; [assumption|].
  assert (Htr : truthy k = true).
  { destruct (Hwf _ Hin) as (h & _ & E). simpl in E. rewrite E.
    apply truthy_true. now destruct (Factory.tenantId v). }
  assert (E : Factory.clientCache (Factory.addToCache f key cached now)
              = Factory.map_set key cached (Factory.map_delete k (Factory.clientCache f))).
  { unfold Factory.addToCache. simpl.
    destruct (Z.leb_spec (Factory.maxCacheSize f) (Factory.map_size (Factory.clientCache f)));
      [|lia].
    now rewrite Hk, Htr. }
  split; [exact E|]. rewrite E. unfold Factory.map_size.
  pose proof (length_map_set_le key cached (Factory.map_delete k (Factory.clientCache f))).
  pose proof (length_map_delete_lt k v _ Hin). lia.
Qed.

(** Hence [getClient] keeps the cache within [maxCacheSize] as long as, at
    each insertion, the cached entries were last used before the clock read
    made by the eviction search. *)
Lemma getClient_within_capacity (f : Factory.t) (tenant : TenantConfig.t) (now now' : Z) :
  cache_wf (Factory.clientCache f) ->
  1 <= Factory.maxCacheSize f ->
  Factory.map_size (Factory.clientCache f) <= Factory.maxCacheSize f ->
  (forall e, In e (Factory.clientCache f) -> Factory.lastUsed (snd e) < now') ->
  Factory.map_size (Factory.clientCache (snd (Factory.getClient f tenant now now')))
  <= Factory.maxCacheSize f.
Proof.
  intros Hwf Hmax Hsize Hold. unfold Factory.getClient.
  destruct (Factory.map_get _ _) as [old|] eqn:G; cbn [fst snd].
  - unfold Factory.map_size in *. simpl.
    rewrite (length_map_set_hit _ _ old) by assumption. exact Hsize.
  - destruct (Z.leb_spec (Factory.maxCacheSize f) (Factory.map_size (Factory.clientCache f)))
      as [Hfull|Hroom].
    + assert (Hne : exists e, In e (Factory.clientCache f)).
      { unfold Factory.map_size in Hfull.
        destruct (Factory.clientCache f) as [|e m]; [simpl in Hfull; lia|].
        exists e. now left. }
      destruct Hne as (e & He).
      destruct (addToCache_evicts_least_recent f (Factory.getCacheKey tenant)
                  (Factory.mkCached (Factory.createClient tenant) now
                     (TenantConfig.tenantId tenant)) now' Hwf Hfull)
        as (k & v & _ & _ & _ & Hle).
      * exists e. split; [assumption | now apply Hold].
      * lia.
    + unfold Factory.addToCache. simpl.
      destruct (Z.leb_spec (Factory.maxCacheSize f) (Factory.map_size (Factory.clientCache f)));
        [lia|].
      unfold Factory.map_size in *.
      pose proof (length_map_set_le (Factory.getCacheKey tenant)
                    (Factory.mkCached (Factory.createClient tenant) now
                       (TenantConfig.tenantId tenant)) (Factory.clientCache f)).
      lia.
Qed.

(** * Further properties *)

(** ** Tenant store: lookups, listing and mutations *)

Lemma Store_exists_is_Some (s : TenantStore) (tid : string) :
  Store.exists_ s tid = true <-> is_Some (Store.get s tid).
Proof.
  induction s as [tenants|d|p IHp f IHf]; simpl.
  - unfold InMemoryTenantStore.exists_, InMemoryTenantStore.get.
    apply bool_decide_eq_true.
  - unfold EnvVarTenantStore.exists_, EnvVarTenantStore.get.
    destruct (String.eqb tid "default"); simpl.
    + apply bool_decide_eq_true.
    + split; [discriminate | intros [x Hx]; discriminate].
  - rewrite orb_true_iff, IHp, IHf.
    destruct (Store.get p tid) as [t|]; split.
    + eauto.
    + intros _. left. eauto.
    + intros [[x Hx]|H]; [discriminate | exact H].
    + intros H. now right.
Qed.

Lemma Store_exists_false (s : TenantStore) (tid : string) :
  Store.exists_ s tid = false <-> Store.get s tid = None.
Proof.
  pose proof (Store_exists_is_Some s tid) as H. split.
  - intros E. destruct (Store.get s tid) as [t|]; [|reflexivity].
    assert (Store.exists_ s tid = true) by (apply H; eauto). congruence.
  - intros E. rewrite E in H. destruct (Store.exists_ s tid); [|reflexivity].
    destruct (proj1 H eq_refl) as [x Hx]. discriminate.
Qed.

(** Membership in a list built by [merged_set] from a list without
    duplicate ids. *)
Lemma merged_set_spec (t : TenantConfig.t) (m : list TenantConfig.t) :
  NoDup (List.map TenantConfig.tenantId m) ->
  NoDup (List.map TenantConfig.tenantId (Store.merged_set t m))
  /\ forall x, In x (Store.merged_set t m)
               <-> x = t \/ (In x m /\ TenantConfig.tenantId x <> TenantConfig.tenantId t).
Proof.
  induction m as [|y m IH]; simpl; intros Hnd.
  - split; [repeat constructor; intros H; inversion H|].
    intros x. split; [intros [<- |[]]; now left | intros [-> |[[] _]]; now left].
  - apply NoDup_cons in Hnd as [Hy Hnd]. destruct (IH Hnd) as [IH1 IH2].
    destruct (String.eqb_spec (TenantConfig.tenantId y) (TenantConfig.tenantId t)) as [E|E];
      simpl.
    + split.
      * apply NoDup_cons. split; [now rewrite <- E | assumption].
      * intros x. split.
        -- intros [<- |H]; [now left|]. right. split; [now right|].
           intros Ex. apply Hy. rewrite E, <- Ex.
           apply list_elem_of_In. now apply List.in_map.
        -- intros [-> |[[<- |H] Hne]]; [now left | congruence | now right].
    + split.
      * apply NoDup_cons. split; [|assumption].
        intros Hin. apply list_elem_of_In, List.in_map_iff in Hin as (x & Ex & Hx).
        apply IH2 in Hx as [-> |[Hx _]]; [congruence|].
        apply Hy. rewrite <- Ex. apply list_elem_of_In. now apply List.in_map.
      * intros x. rewrite IH2. split.
        -- intros [<- |[-> |[H Hne]]]; [right; split; [now left|assumption] | now left |].
           right. split; [now right | assumption].
        -- intros [-> |[[<- |H] Hne]]; [right; now left | now left | right; right; now split].
Qed.

(** Folding [merged_set] over [l] from a map [acc]: no duplicate ids; a
    record of [l] is kept when no later record of [l] has its id, and a
    record of [acc] when no record of [l] has its id. *)
Lemma merged_fold_spec (l : list TenantConfig.t) : forall acc,
  NoDup (List.map TenantConfig.tenantId acc) ->
  let r := fold_left (fun merged tenant => Store.merged_set tenant merged) l acc in
  NoDup (List.map TenantConfig.tenantId r)
  /\ forall x, In x r
               <-> (exists l1 l2, l = (l1 ++ x :: l2)%list
                                  /\ forall y, In y l2 ->
                                       TenantConfig.tenantId y <> TenantConfig.tenantId x)
                   \/ (In x acc /\ forall y, In y l ->
                                       TenantConfig.tenantId y <> TenantConfig.tenantId x).
Proof.
  induction l as [|t l IH] using List.rev_ind; intros acc Hacc r; subst r.
  - simpl. split; [assumption|]. intros x. split.
    + intros H. right. split; [assumption | intros y []].
    + intros [(l1 & l2 & E & _)|[H _]]; [now destruct l1 | assumption].
  - rewrite List.fold_left_app. simpl. destruct (IH acc Hacc) as [IH1 IH2].
    destruct (merged_set_spec t _ IH1) as [H1 H2]. split; [exact H1|].
    intros x. rewrite H2, IH2. split.
    + intros [-> |[[(l1 & l2 & -> & Hl2)|[Hx Hl]] Hne]].
      * left. exists l, []. split; [reflexivity | intros y []].
      * left. exists l1, (l2 ++ [t])%list. split; [now rewrite <- List.app_assoc|].
        intros y Hy. apply List.in_app_or in Hy as [Hy|[<- |[]]]; [now apply Hl2|].
        congruence.
      * right. split; [assumption|]. intros y Hy.
        apply List.in_app_or in Hy as [Hy|[<- |[]]]; [now apply Hl | congruence].
    + intros [(l1 & l2 & E & Hl2)|[Hx Hl]].
      * destruct l2 as [|z l2 _] using List.rev_ind.
        -- left. apply List.app_inj_tail in E as [_ E]. congruence.
        -- right. rewrite List.app_comm_cons, List.app_assoc in E.
           apply List.app_inj_tail in E as [-> <-]. split.
           ++ left. exists l1, l2. split; [reflexivity|]. intros y Hy. apply Hl2.
              apply List.in_or_app. now left.
           ++ intros Ex. apply (Hl2 t); [|now symmetry].
              apply List.in_or_app. right. now left.
      * right. split.
        -- right. split; [assumption|]. intros y Hy. apply Hl.
           apply List.in_or_app. now left.
        -- intros Ex. apply (Hl t); [|now symmetry]. apply List.in_or_app. right. now left.
Qed.

(** In a list without duplicate ids every member is the last of its id. *)
Lemma last_of_id_NoDup (l : list TenantConfig.t) (x : TenantConfig.t) :
  NoDup (List.map TenantConfig.tenantId l) ->
  (exists l1 l2, l = (l1 ++ x :: l2)%list
                 /\ forall y, In y l2 -> TenantConfig.tenantId y <> TenantConfig.tenantId x)
  <-> In x l.
Proof.
  intros Hnd. split.
  - intros (l1 & l2 & -> & _). apply List.in_or_app. right. now left.
  - intros H. apply List.in_split in H as (l1 & l2 & ->). exists l1, l2.
    split; [reflexivity|]. intros y Hy E.
    rewrite List.map_app in Hnd. apply NoDup_app in Hnd as (_ & _ & Hnd).
    simpl in Hnd. apply NoDup_cons in Hnd as [Hx _]. apply Hx. rewrite <- E.
    apply list_elem_of_In. now apply List.in_map.
Qed.

Lemma getAll_spec (s : TenantStore) :
  store_wf s ->
  NoDup (List.map TenantConfig.tenantId (Store.getAll s))
  /\ forall t, In t (Store.getAll s) <-> Store.get s (TenantConfig.tenantId t) = Some t.
Proof.
  induction s as [tenants|d|p IHp f IHf]; simpl; intros Hwf.
  - unfold InMemoryTenantStore.getAll, InMemoryTenantStore.get. split.
    + rewrite List.map_map.
      rewrite (List.map_ext_in _ fst).
      * apply NoDup_fst_map_to_list.
      * intros [k v] H. simpl. apply Hwf.
        now apply elem_of_map_to_list, list_elem_of_In.
    + intros t. rewrite List.in_map_iff. split.
      * intros ([k v] & <- & H). simpl.
        apply list_elem_of_In, elem_of_map_to_list in H.
        now rewrite (Hwf _ _ H).
      * intros H. exists (TenantConfig.tenantId t, t). split; [reflexivity|].
        now apply list_elem_of_In, elem_of_map_to_list.
  - unfold EnvVarTenantStore.getAll, EnvVarTenantStore.get.
    destruct d as [t0|]; simpl.
    + split; [repeat constructor; intros H; inversion H|].
      intros t. split.
      * intros [<- |[]]. now rewrite (Hwf _ eq_refl).
      * destruct (String.eqb (TenantConfig.tenantId t) "default"); [|discriminate].
        intros [= ->]. now left.
    + split; [constructor|]. intros t. split; [intros [] |].
      destruct (String.eqb _ _); discriminate.
  - destruct Hwf as [Hp Hf].
    destruct (IHp Hp) as [Np Mp]. destruct (IHf Hf) as [Nf Mf].
    unfold Store.merge_all. rewrite List.fold_left_app.
    destruct (merged_fold_spec (Store.getAll f) [] ltac:(constructor)) as [Na Ma].
    destruct (merged_fold_spec (Store.getAll p) _ Na) as [Nr Mr].
    split; [exact Nr|]. intros t. rewrite Mr, (last_of_id_NoDup _ _ Np), Ma,
      (last_of_id_NoDup _ _ Nf), Mp, Mf.
    split.
    + intros [H|[[H|[[] _]] Hno]]; [now rewrite H|].
      destruct (Store.get p (TenantConfig.tenantId t)) as [y|] eqn:G; [|assumption].
      exfalso. apply (Hno y).
      * apply Mp. now rewrite (Store_get_wf p _ y Hp G).
      * now apply (Store_get_wf p _ y Hp).
    + destruct (Store.get p (TenantConfig.tenantId t)) as [y|] eqn:G.
      * intros [= ->]. now left.
      * intros H. right. split; [now left|]. intros y Hy E.
        apply Mp in Hy. rewrite E, G in Hy. discriminate.
Qed.

(** X1. In a store whose records sit under their own ids, [exists], [get]
    and [getAll] agree: [exists(id)] is true exactly when [get(id)] finds a
    record, [getAll] lists exactly the records [get] finds, and it lists
    each tenant id once (on the composite store the primary's record
    shadowing the fallback's). *)
Theorem store_exists_get_getAll_agree (s : TenantStore) :
  store_wf s ->
  (forall tid, Store.exists_ s tid = true <-> is_Some (Store.get s tid))
  /\ (forall t, In t (Store.getAll s) <-> Store.get s (TenantConfig.tenantId t) = Some t)
  /\ NoDup (List.map TenantConfig.tenantId (Store.getAll s)).
Proof.
  intros Hwf. destruct (getAll_spec s Hwf) as [Hn Hm].
  split; [|split]; [intros tid; apply Store_exists_is_Some | exact Hm | exact Hn].
Qed.

Lemma two_tenant_store_wf : store_wf two_tenant_store.
Proof.
  split; simpl.
  - intros k v H. apply lookup_singleton_Some in H as [<- <-]. reflexivity.
  - intros v [= <-]. reflexivity.
Qed.

Lemma store_exists_get_getAll_agree_witness :
  In acme_v1 (Store.getAll two_tenant_store)
  /\ In env_default (Store.getAll two_tenant_store).
Proof.
  destruct (store_exists_get_getAll_agree two_tenant_store two_tenant_store_wf)
    as (_ & Hm & _).
  split; apply Hm; reflexivity.
Defined.

(** X2. The composite store never writes to its fallback: whatever
    [create], [update] or [delete] does when it succeeds, the store that
    results has the very same fallback store, and only its primary store has
    changed. *)
Theorem composite_never_writes_fallback (p f : TenantStore) :
  (forall config now s' t,
      Store.create (Composite p f) config now = Ok (s', t) ->
      exists p', s' = Composite p' f /\ Store.create p config now = Ok (p', t))
  /\ (forall tid config now s' t,
        Store.update (Composite p f) tid config now = Ok (s', t) ->
        exists p', s' = Composite p' f)
  /\ (forall tid s' b,
        Store.delete (Composite p f) tid = Ok (s', b) ->
        exists p', s' = Composite p' f /\ Store.delete p tid = Ok (p', b)).
Proof.
  split; [|split].
  - intros config now s' t H. simpl in H.
    destruct (Store.create p config now) as [[p' t']|e]; [|discriminate].
    simpl in H. injection H as <- <-. eauto.
  - intros tid config now s' t H. simpl in H.
    destruct (Store.exists_ p tid).
    + destruct (Store.update p tid config now) as [[p' t']|e]; [|discriminate].
      simpl in H. injection H as <- _. eauto.
    + destruct (Store.get f tid) as [ft|]; [|discriminate].
      destruct (Store.create p _ now) as [[p' t']|e]; [|discriminate].
      simpl in H. injection H as <- _. eauto.
  - intros tid s' b H. simpl in H.
    destruct (Store.delete p tid) as [[p' b']|e]; [|discriminate].
    simpl in H. injection H as <- <-. eauto.
Qed.

Lemma composite_never_writes_fallback_witness :
  exists p' t,
    Store.update two_tenant_store "default" (rename "Renamed") 5000
    = Ok (Composite p' (EnvVar (Some env_default)), t).
Proof.
  destruct (Store.update two_tenant_store "default" (rename "Renamed") 5000)
    as [[s' t]|e] eqn:U; [|vm_compute in U; discriminate].
  destruct (composite_never_writes_fallback (InMemory {["acme" := acme_v1]})
              (EnvVar (Some env_default))) as (_ & H & _).
  destruct (H "default" (rename "Renamed") 5000 s' t U) as [p' ->].
  now exists p', t.
Defined.



(** X4. [update] of an id the store does not hold never writes: it throws
    "not found" on the in-memory and the composite store, and "read-only" on
    the environment store. *)
Theorem store_update_missing_throws (s : TenantStore) (tid : string)
    (config : PartialConfig.t) (now : Z) :
  Store.get s tid = None ->
  Store.update s tid config now
  = Throw (match s with
           | EnvVar _ => StoreReadOnly
           | _ => TenantNotFound tid
           end).
Proof.
  intros G. destruct s as [tenants|d|p f]; simpl in *.
  - unfold InMemoryTenantStore.update. now rewrite G.
  - reflexivity.
  - destruct (Store.get p tid) as [t|] eqn:Gp; [discriminate|].
    apply Store_exists_false in Gp. now rewrite Gp, G.
Qed.

Lemma store_update_missing_throws_witness :
  Store.update two_tenant_store "nobody" (rename "X") 1
  = Throw (TenantNotFound "nobody").
Proof.
  apply (store_update_missing_throws two_tenant_store "nobody" (rename "X") 1).
  reflexivity.
Defined.

(** X5. The update of a record held only by the fallback honours a tenant
    id in the update: the record is created in the primary under the new
    id, and the old id still resolves to the untouched fallback record.  On
    the in-memory store the same update keeps the id ("Prevent ID
    change"). *)
Theorem composite_promotion_can_change_tenantId (tenants : gmap string TenantConfig.t)
    (f : TenantStore) (tid other : string) (config : PartialConfig.t) (now : Z)
    (ft : TenantConfig.t) :
  tenants !! tid = None ->
  Store.get f tid = Some ft ->
  PartialConfig.tenantId config = Some other ->
  other <> tid ->
  (exists r,
      Store.update (Composite (InMemory tenants) f) tid config now
      = Ok (Composite (InMemory (<[other := r]> tenants)) f, r)
      /\ TenantConfig.tenantId r = other
      /\ Store.get (Composite (InMemory (<[other := r]> tenants)) f) other = Some r
      /\ Store.get (Composite (InMemory (<[other := r]> tenants)) f) tid = Some ft)
  /\ (forall r tenants',
        InMemoryTenantStore.update (<[tid := ft]> tenants) tid config now
        = Ok (tenants', r) ->
        TenantConfig.tenantId r = TenantConfig.tenantId ft).
Proof.
  intros Hnone Hf Hc Hne. split.
  - set (r := stamped (without_dates (spread ft config)) now).
    assert (Hr : TenantConfig.tenantId r = other) by (simpl; now rewrite Hc).
    exists r. split; [|split; [exact Hr|]].
    + cbn [Store.update Store.exists_ Store.create].
      unfold InMemoryTenantStore.exists_. rewrite Hnone.
      rewrite bool_decide_eq_false_2 by (intros [x Hx]; discriminate).
      rewrite Hf. unfold InMemoryTenantStore.create. fold r.
      cbn [bind]. now rewrite Hr.
    + cbn [Store.get]. unfold InMemoryTenantStore.get. split.
      * now rewrite lookup_insert_eq.
      * rewrite lookup_insert_ne by assumption. now rewrite Hnone.
  - intros r tenants' H. unfold InMemoryTenantStore.update, InMemoryTenantStore.get in H.
    rewrite lookup_insert_eq in H. simpl in H. now injection H as _ <-.
Qed.

Lemma composite_promotion_can_change_tenantId_witness :
  exists r,
    Store.update (createTenantStore (Some env_default)) "default"
      (PartialConfig.mk (Some "moved") None None None None None None None None None) 5000
    = Ok (Composite (InMemory (<["moved" := r]> ∅)) (EnvVar (Some env_default)), r)
    /\ TenantConfig.tenantId r = "moved".
Proof.
  destruct (composite_promotion_can_change_tenantId ∅ (EnvVar (Some env_default))
              "default" "moved"
              (PartialConfig.mk (Some "moved") None None None None None None None None None)
              5000 env_default) as [(r & H1 & H2 & _) _].
  - reflexivity.
  - reflexivity.
  - reflexivity.
  - discriminate.
  - exists r. split; [exact H1 | exact H2].
Defined.

Lemma Store_delete_wf (s : TenantStore) : forall s' tid b,
  store_wf s -> Store.delete s tid = Ok (s', b) -> store_wf s'.
Proof.
  induction s as [tenants|d|p IHp f IHf]; intros s' tid b Hwf H; simpl in H.
  - injection H as <- _. simpl. intros k v Hk.
    apply lookup_delete_Some in Hk as [_ Hk]. now apply Hwf.
  - discriminate.
  - destruct Hwf as [Hp Hf].
    destruct (Store.delete p tid) as [[p' b']|e] eqn:D; [|discriminate].
    simpl in H. injection H as <- _. split; [|assumption]. now apply (IHp _ _ _ Hp D).
Qed.

Lemma store_step_wf (s : TenantStore) (op : StoreOp) :
  store_wf s -> store_wf (store_step s op).
Proof.
  intros Hwf. destruct op as [config now|tid config now|tid]; simpl.
  - destruct (Store.create s config now) as [[s' t]|e] eqn:E; [|assumption].
    now apply (Store_create_wf _ _ _ _ _ Hwf E).
  - destruct (Store.update s tid config now) as [[s' t]|e] eqn:E; [|assumption].
    now apply (Store_update_wf _ _ _ _ _ _ Hwf E).
  - destruct (Store.delete s tid) as [[s' b]|e] eqn:E; [|assumption].
    now apply (Store_delete_wf _ _ _ _ Hwf E).
Qed.

(** X6. One record per tenant id, under its own id: in the store the
    server starts with ([createTenantStore], over whatever the environment
    holds) and after any sequence of [create], [update] and [delete] calls,
    failed ones included, every record [get(id)] returns carries the tenant
    id [id]. *)
Theorem store_records_sit_under_their_id (key loc base : option string) (now : Z)
    (ops : list StoreOp) (tid : string) (t : TenantConfig.t) :
  Store.get (store_run (createTenantStore (EnvVarTenantStore.new key loc base now)) ops)
    tid = Some t ->
  TenantConfig.tenantId t = tid.
Proof.
  apply Store_get_wf.
  assert (H : forall s, store_wf s -> store_wf (store_run s ops)).
  { induction ops as [|op ops IH]; intros s Hs; [exact Hs|].
    apply (IH (store_step s op)). now apply store_step_wf. }
  apply H. apply createTenantStore_wf.
Qed.

Lemma store_records_sit_under_their_id_witness :
  TenantConfig.tenantId
    (stamped (without_dates (spread
       (TenantConfig.mk "default" "Default Tenant" "k0" "L0"
          (Some "https://services.leadconnectorhq.com") (Some "2021-07-28") None 7 7 true)
       (rename "Renamed"))) 9)
  = "default".
Proof.
  apply (store_records_sit_under_their_id (Some "k0") (Some "L0") None 7
           [OpUpdate "default" (rename "Renamed") 9] "default").
  vm_compute. reflexivity.
Defined.

(** ** API client factory: reuse, invalidation, bounds, expiry *)





Lemma filter_filter {A} (P Q : A -> bool) (l : list A) :
  List.filter P (List.filter Q l) = List.filter (fun x => Q x && P x) l.
Proof.
  induction l as [|x l IH]; simpl; [reflexivity|].
  destruct (Q x); simpl; [destruct (P x)|]; now rewrite IH.
Qed.

Lemma fold_delete_filter (keys : list string) : forall m : Factory.Cache,
  fold_left (fun m k => Factory.map_delete k m) keys m
  = List.filter (fun e => negb (existsb (String.eqb (fst e)) keys)) m.
Proof.
  induction keys as [|k keys IH]; intros m; simpl.
  - induction m as [|e m IHm]; simpl; [reflexivity | now rewrite <- IHm].
  - rewrite IH. unfold Factory.map_delete. rewrite filter_filter.
    apply List.filter_ext. intros e. now rewrite negb_orb.
Qed.

(** Entries of a well-formed cache with the same key belong to the same
    tenant. *)
Lemma same_key_same_tenant (m : Factory.Cache) e e' :
  cache_wf m -> In e m -> In e' m -> fst e = fst e' ->
  Factory.tenantId (snd e) = Factory.tenantId (snd e').
Proof.
  intros Hwf He He' E.
  destruct (Hwf _ He) as (h & Hh & K). destruct (Hwf _ He') as (h' & Hh' & K').
  rewrite E, K' in K. symmetry. now apply (key_tenant_inj _ _ _ _ Hh' Hh K).
Qed.

Lemma clearTenantCache_filter (f : Factory.t) (tid : string) :
  cache_wf (Factory.clientCache f) ->
  Factory.clientCache (Factory.clearTenantCache f tid)
  = List.filter (fun e => negb (String.eqb (Factory.tenantId (snd e)) tid))
      (Factory.clientCache f).
Proof.
  intros Hwf. unfold Factory.clearTenantCache. simpl. rewrite fold_delete_filter.
  apply List.filter_ext_in. intros e He. f_equal.
  destruct (String.eqb_spec (Factory.tenantId (snd e)) tid) as [E|E].
  - apply existsb_exists. exists (fst e). split; [|apply String.eqb_refl].
    apply List.in_map. apply List.filter_In. split; [assumption|].
    rewrite E. apply String.eqb_refl.
  - apply not_true_is_false. intros H. apply existsb_exists in H as (k & Hk & Ek).
    apply String.eqb_eq in Ek. apply List.in_map_iff in Hk as (e' & <- & He').
    apply List.filter_In in He' as [He' Ht]. apply String.eqb_eq in Ht.
    apply E. rewrite <- Ht. now apply (same_key_same_tenant _ _ _ Hwf He He').
Qed.

Lemma map_get_filter_all (P : string * Factory.CachedClient -> bool) (k : string)
    (m : Factory.Cache) :
  (forall e, In e m -> fst e = k -> P e = true) ->
  Factory.map_get k (List.filter P m) = Factory.map_get k m.
Proof.
  induction m as [|[k' v] m IH]; intros H; simpl; [reflexivity|].
  destruct (String.eqb_spec k' k) as [E|E].
  - rewrite (H (k', v)); [|now left|exact E]. simpl.
    destruct (String.eqb_spec k' k); [reflexivity|contradiction].
  - destruct (P (k', v)); simpl.
    + destruct (String.eqb_spec k' k); [contradiction|].
      apply IH. intros e He. apply H. now right.
    + apply IH. intros e He. apply H. now right.
Qed.

(** X8. [clearTenantCache(tid)] on a well-formed cache removes the entries
    of tenant [tid], all of them and nothing else, keeping the order of the
    rest; so a [getClient] for any other tenant returns what it would have
    returned without the clearing. *)
Theorem clearTenantCache_removes_exactly_the_tenant (f : Factory.t) (tid : string) :
  cache_wf (Factory.clientCache f) ->
  Factory.clientCache (Factory.clearTenantCache f tid)
  = List.filter (fun e => negb (String.eqb (Factory.tenantId (snd e)) tid))
      (Factory.clientCache f)
  /\ forall tenant now now',
      TenantConfig.tenantId tenant <> tid ->
      fst (Factory.getClient (Factory.clearTenantCache f tid) tenant now now')
      = fst (Factory.getClient f tenant now now').
Proof.
  intros Hwf. split; [now apply clearTenantCache_filter|].
  intros tenant now now' Hne. unfold Factory.getClient.
  rewrite clearTenantCache_filter by assumption.
  rewrite map_get_filter_all; [now destruct (Factory.map_get _ _)|].
  intros e He Ek. destruct (Hwf _ He) as (h & Hh & K). rewrite Ek in K.
  apply negb_true_iff, String.eqb_neq. intros Et. apply Hne.
  rewrite <- Et. apply (key_tenant_inj _ _ _ h (hashString_no_underscore _) Hh K).
Qed.

Lemma warm_factory_wf : cache_wf (Factory.clientCache warm_factory).
Proof. apply factory_step_wf. intros e []. Qed.

Lemma mixed_factory_wf : cache_wf (Factory.clientCache mixed_factory).
Proof. apply factory_run_wf. intros e []. Qed.

Lemma clearTenantCache_removes_exactly_the_tenant_witness :
  List.map fst (Factory.clientCache mixed_factory) = ["acme_2li"; "globex_2i2"; "acme_1mo"]
  /\ Factory.clientCache (Factory.clearTenantCache mixed_factory "acme")
     = [("globex_2i2", Factory.mkCached (Factory.createClient globex) 200 "globex")]
  /\ fst (Factory.getClient (Factory.clearTenantCache mixed_factory "acme") globex 400 400)
     = fst (Factory.getClient mixed_factory globex 400 400).
Proof.
  destruct (clearTenantCache_removes_exactly_the_tenant mixed_factory "acme"
              mixed_factory_wf) as [H1 H2].
  split; [reflexivity|]. split.
  - rewrite H1. reflexivity.
  - apply H2. discriminate.
Defined.

Lemma length_fold_delete_le (keys : list string) (m : Factory.Cache) :
  (List.length (fold_left (fun m k => Factory.map_delete k m) keys m) <= List.length m)%nat.
Proof. rewrite fold_delete_filter. apply List.filter_length_le. Qed.

Lemma factory_step_max (f : Factory.t) (op : FactoryOp) :
  Factory.maxCacheSize (factory_step f op) = Factory.maxCacheSize f.
Proof.
  destruct op as [tenant now now'|now|tid|]; simpl; try reflexivity.
  unfold Factory.getClient. now destruct (Factory.map_get _ _).
Qed.

Lemma lastUsed_after_getClient (f : Factory.t) tenant now now' (T : Z) :
  (forall e, In e (Factory.clientCache f) -> Factory.lastUsed (snd e) <= T) ->
  T < now' -> now <= now' ->
  forall e, In e (Factory.clientCache (snd (Factory.getClient f tenant now now'))) ->
            Factory.lastUsed (snd e) <= now'.
Proof.
  intros Hold HT Hn e H.
  apply In_getClient in H as [H|[(old & _ & ->)| ->]]; simpl; [|lia|lia].
  specialize (Hold e H). lia.
Qed.

(** X9. While the clock advances between calls, the cache never holds more
    than [maxCacheSize] entries: from a new factory with a positive
    [maxCacheSize], after any sequence of [getClient] calls, expiry sweeps
    and cache clears whose eviction clock reads increase strictly. *)
Theorem cache_bounded_while_clock_advances (optMax optTtl : option Z) (T : Z)
    (ops : list FactoryOp) :
  1 <= Factory.maxCacheSize (Factory.new optMax optTtl) ->
  clock_advances T ops ->
  Factory.map_size (Factory.clientCache (factory_run (Factory.new optMax optTtl) ops))
  <= Factory.maxCacheSize (Factory.new optMax optTtl).
Proof.
  intros Hmax Hclock.
  set (M := Factory.maxCacheSize (Factory.new optMax optTtl)) in *.
  assert (H : forall ops f T,
             clock_advances T ops ->
             Factory.maxCacheSize f = M ->
             cache_wf (Factory.clientCache f) ->
             Factory.map_size (Factory.clientCache f) <= M ->
             (forall e, In e (Factory.clientCache f) -> Factory.lastUsed (snd e) <= T) ->
             Factory.map_size (Factory.clientCache (factory_run f ops)) <= M).
  { clear Hclock ops T. intros ops. induction ops as [|op ops IH]; intros f T Hc HM Hwf Hsize Hold.
    - exact Hsize.
    - change (factory_run f (op :: ops)) with (factory_run (factory_step f op) ops).
      destruct op as [tenant now now'|now|tid|]; simpl in Hc.
      + destruct Hc as (HT & Hn & Hc). apply (IH _ now' Hc).
        * now rewrite factory_step_max.
        * now apply factory_step_wf.
        * simpl. rewrite <- HM. apply getClient_within_capacity; try assumption.
          -- lia.
          -- lia.
          -- intros e He. specialize (Hold e He). lia.
        * now apply (lastUsed_after_getClient f tenant now now' T).
      + apply (IH _ T Hc).
        * now rewrite factory_step_max.
        * now apply factory_step_wf.
        * simpl. unfold Factory.map_size in *.
          pose proof (List.filter_length_le
                        (fun e => negb (Factory.ttlMinutes f * 60 * 1000
                                        <? now - Factory.lastUsed (snd e)))
                        (Factory.clientCache f)). lia.
        * simpl. intros e He. apply List.filter_In in He as [He _]. now apply Hold.
      + apply (IH _ T Hc).
        * now rewrite factory_step_max.
        * now apply factory_step_wf.
        * simpl. unfold Factory.map_size in *.
          pose proof (length_fold_delete_le
                        (List.map fst
                           (List.filter (fun e => String.eqb (Factory.tenantId (snd e)) tid)
                              (Factory.clientCache f)))
                        (Factory.clientCache f)). lia.
        * intros e He. simpl in He. apply clearTenantCache_spec in He as [He _].
          now apply Hold.
      + apply (IH _ T Hc).
        * reflexivity || now rewrite factory_step_max.
        * now apply factory_step_wf.
        * simpl. unfold Factory.map_size. simpl. lia.
        * intros e []. }
  apply (H ops _ T Hclock eq_refl).
  - intros e [].
  - unfold Factory.map_size. simpl. lia.
  - intros e [].
Qed.

Lemma cache_bounded_while_clock_advances_witness :
  Factory.map_size
    (Factory.clientCache
       (factory_run (Factory.new (Some 1) None)
          [OpGetClient tenant_a 1000 1000; OpGetClient tenant_b 1001 1001]))
  <= 1.
Proof.
  apply (cache_bounded_while_clock_advances (Some 1) None 0
           [OpGetClient tenant_a 1000 1000; OpGetClient tenant_b 1001 1001]).
  - simpl. lia.
  - simpl. lia.
Defined.

Lemma map_set_absent (k : string) (v : Factory.CachedClient) (m : Factory.Cache) :
  Factory.map_get k m = None -> Factory.map_set k v m = (m ++ [(k, v)])%list.
Proof.
  induction m as [|[k' v'] m IH]; simpl; [reflexivity|].
  destruct (String.eqb k' k); [discriminate|]. intros H. now rewrite IH.
Qed.

Lemma map_get_delete_absent (k k' : string) (m : Factory.Cache) :
  Factory.map_get k m = None -> Factory.map_get k (Factory.map_delete k' m) = None.
Proof.
  unfold Factory.map_delete. induction m as [|[k0 v0] m IH]; simpl; [reflexivity|].
  destruct (String.eqb k0 k) eqn:E; [discriminate|]. intros H.
  destruct (negb (String.eqb k0 k')); simpl; [rewrite E|]; now apply IH.
Qed.

(** X10. Least-recently-used eviction.  When [getClient] misses with the
    cache at capacity and some entry was last used before the clock read of
    the eviction search, the entry removed is one whose [lastUsed] is least
    among all entries, whatever its position in the insertion order; every
    entry under another key stays, in order, and the new client goes last. *)
Theorem getClient_miss_evicts_least_recently_used (f : Factory.t)
    (tenant : TenantConfig.t) (now now' : Z) :
  cache_wf (Factory.clientCache f) ->
  Factory.map_get (Factory.getCacheKey tenant) (Factory.clientCache f) = None ->
  Factory.maxCacheSize f <= Factory.map_size (Factory.clientCache f) ->
  (exists e, In e (Factory.clientCache f) /\ Factory.lastUsed (snd e) < now') ->
  exists k v,
    In (k, v) (Factory.clientCache f)
    /\ (forall e, In e (Factory.clientCache f) ->
                  Factory.lastUsed v <= Factory.lastUsed (snd e))
    /\ Factory.getClient f tenant now now'
       = (Factory.createClient tenant,
          Factory.with_cache f
            (List.filter (fun e => negb (String.eqb (fst e) k)) (Factory.clientCache f)
             ++ [(Factory.getCacheKey tenant,
                  Factory.mkCached (Factory.createClient tenant) now
                    (TenantConfig.tenantId tenant))])%list).
Proof.
  intros Hwf Hmiss Hfull Hex.
  destruct (addToCache_evicts_least_recent f (Factory.getCacheKey tenant)
              (Factory.mkCached (Factory.createClient tenant) now
                 (TenantConfig.tenantId tenant)) now' Hwf Hfull Hex)
    as (k & v & Hin & Hmin & Hcache & _).
  exists k, v. split; [assumption|]. split; [assumption|].
  unfold Factory.getClient. rewrite Hmiss. f_equal.
  assert (E : forall g : Factory.t,
             g = Factory.with_cache g (Factory.clientCache g)) by (now intros []).
  rewrite (E (Factory.addToCache f _ _ _)), Hcache.
  rewrite map_set_absent by now apply map_get_delete_absent.
  unfold Factory.addToCache, Factory.with_cache. simpl. reflexivity.
Qed.

Lemma getClient_miss_evicts_least_recently_used_witness :
  exists k v,
    In (k, v)
      (Factory.clientCache
         (factory_run (Factory.new (Some 2) None)
            [OpGetClient tenant_a 10 10; OpGetClient tenant_b 20 20;
             OpGetClient tenant_a 30 30]))
    /\ Factory.clientCache
         (snd (Factory.getClient
                 (factory_run (Factory.new (Some 2) None)
                    [OpGetClient tenant_a 10 10; OpGetClient tenant_b 20 20;
                     OpGetClient tenant_a 30 30])
                 globex 40 40))
       = (List.filter (fun e => negb (String.eqb (fst e) k))
            (Factory.clientCache
               (factory_run (Factory.new (Some 2) None)
                  [OpGetClient tenant_a 10 10; OpGetClient tenant_b 20 20;
                   OpGetClient tenant_a 30 30]))
          ++ [(Factory.getCacheKey globex,
               Factory.mkCached (Factory.createClient globex) 40
                 (TenantConfig.tenantId globex))])%list.
Proof.
  destruct (getClient_miss_evicts_least_recently_used
              (factory_run (Factory.new (Some 2) None)
                 [OpGetClient tenant_a 10 10; OpGetClient tenant_b 20 20;
                  OpGetClient tenant_a 30 30])
              globex 40 40) as (k & v & Hin & _ & H).
  - apply factory_run_wf. intros e [].
  - vm_compute. reflexivity.
  - vm_compute. discriminate.
  - eexists. split; [left; reflexivity|]. vm_compute. reflexivity.
  - exists k, v. split; [exact Hin|]. now rewrite H.
Defined.

(** Touching the older-inserted entry moves the eviction to the other one:
    usage recency decides, not insertion order. *)
Example lru_follows_usage_not_insertion :
  List.map (fun e => Factory.tenantId (snd e))
    (Factory.clientCache
       (factory_run (Factory.new (Some 2) None)
          [OpGetClient tenant_a 10 10; OpGetClient tenant_b 20 20;
           OpGetClient tenant_a 30 30; OpGetClient globex 40 40]))
  = ["a"; "globex"].
Proof. vm_compute. reflexivity. Qed.




Lemma called_app (pre post : list FactoryOp) (origin : TenantConfig.t) :
  called pre origin -> called (pre ++ post)%list origin.
Proof.
  intros (now & now' & H). exists now, now'. apply List.in_or_app. now left.
Qed.

Lemma entry_origin_app (pre post : list FactoryOp) (e : string * Factory.CachedClient) :
  entry_origin pre e -> entry_origin (pre ++ post)%list e.
Proof.
  intros (t0 & Hc & H). exists t0. split; [now apply called_app | exact H].
Qed.

Lemma factory_step_origin (pre : list FactoryOp) (f : Factory.t) (op : FactoryOp) :
  (forall e, In e (Factory.clientCache f) -> entry_origin pre e) ->
  forall e, In e (Factory.clientCache (factory_step f op)) ->
            entry_origin (pre ++ [op])%list e.
Proof.
  intros Ho e H. destruct op as [tenant now now'|now|tid|]; simpl in H.
  - apply In_getClient in H as [H|[(old & Hold & ->)| ->]].
    + now apply entry_origin_app, Ho.
    + destruct (Ho _ Hold) as (t0 & Hc & K & Cl & Ti). exists t0.
      split; [now apply called_app | now split].
    + exists tenant. split; [|now split].
      exists now, now'. apply List.in_or_app. right. now left.
  - apply List.filter_In in H as [H _]. now apply entry_origin_app, Ho.
  - apply clearTenantCache_spec in H as [H _]. now apply entry_origin_app, Ho.
  - contradiction.
Qed.

Lemma factory_run_origin (ops : list FactoryOp) : forall pre f,
  (forall e, In e (Factory.clientCache f) -> entry_origin pre e) ->
  forall e, In e (Factory.clientCache (factory_run f ops)) ->
            entry_origin (pre ++ ops)%list e.
Proof.
  induction ops as [|op ops IH]; intros pre f Hf e He.
  - rewrite List.app_nil_r. now apply Hf.
  - change (factory_run f (op :: ops)) with (factory_run (factory_step f op) ops) in He.
    replace (pre ++ op :: ops)%list with ((pre ++ [op]) ++ ops)%list
      by (rewrite <- List.app_assoc; reflexivity).
    apply (IH (pre ++ [op])%list (factory_step f op)); [|exact He].
    now apply factory_step_origin.
Qed.

(** X12. Tenant isolation of cached clients.  Whatever calls a factory has
    served since it was constructed, the client [getClient] returns for a
    configuration is the one constructed from the configuration of one of
    the [getClient] calls made so far, this one included, and that call was
    made for the same tenant id with a credential of the same hash: a client
    constructed for another tenant's call is never returned. *)
Theorem getClient_never_crosses_tenants (optMax optTtl : option Z)
    (ops : list FactoryOp) (tenant : TenantConfig.t) (now now' : Z) :
  exists origin,
    called (ops ++ [OpGetClient tenant now now'])%list origin
    /\ fst (Factory.getClient (factory_run (Factory.new optMax optTtl) ops) tenant now now')
       = Factory.createClient origin
    /\ TenantConfig.tenantId origin = TenantConfig.tenantId tenant
    /\ Factory.hashString (TenantConfig.apiKey origin)
       = Factory.hashString (TenantConfig.apiKey tenant).
Proof.
  assert (Ho : forall e,
             In e (Factory.clientCache (factory_run (Factory.new optMax optTtl) ops)) ->
             entry_origin ops e).
  { apply (factory_run_origin ops [] (Factory.new optMax optTtl)). intros e []. }
  unfold Factory.getClient.
  destruct (Factory.map_get _ _) as [old|] eqn:G; simpl.
  - apply map_get_In in G. destruct (Ho _ G) as (t0 & Hc & K & Cl & _). simpl in *.
    exists t0. split; [now apply called_app|]. split; [exact Cl|]. symmetry in K.
    apply cacheKey_inj in K as [K1 K2]. now split.
  - exists tenant. split; [|now split].
    exists now, now'. apply List.in_or_app. right. now left.
Qed.

(** A run in which "globex" is served between two calls for "acme": the
    second "acme" call gets the client of the first, built from "L1". *)
Example getClient_never_crosses_tenants_run :
  fst (Factory.getClient
         (factory_run (Factory.new None None)
            [OpGetClient acme_v1 100 100; OpGetClient globex 200 200])
         acme_moved 300 300)
  = Factory.createClient acme_v1.
Proof. reflexivity. Qed.








(** ** Tenant resolver: soundness, validation, other entry points *)

Lemma exists_get_Some (s : TenantStore) (tid : string) :
  Store.exists_ s tid = true -> exists t, Store.get s tid = Some t.
Proof. intros H. now apply Store_exists_is_Some in H. Qed.

Lemma validate_found (s : TenantStore) (tid : string) :
  Store.exists_ s tid = true ->
  Resolver.error (Resolver.validateTenant s tid) <> Some "Tenant not found".
Proof.
  intros H. apply exists_get_Some in H as [t G]. unfold Resolver.validateTenant.
  rewrite G. destruct (negb (TenantConfig.isActive t)); [discriminate|].
  destruct (_ || _); discriminate.
Qed.

(** X14. Whatever [resolveFromHttpRequest] returns names a tenant the
    store holds, so the validation that follows never answers "Tenant not
    found"; a result of source ['header'] is the value of the configured
    header; a result of source ['env'] is the id "default" with the fallback
    enabled; the source ['default'] is never used here.  And when the store
    holds no tenant at all, the result is none. *)
Theorem resolveFromHttpRequest_sound (o : Resolver.Options) (store : TenantStore)
    (req : Resolver.HttpRequest) :
  (forall id,
      Resolver.resolveFromHttpRequest o store req = Some id ->
      Store.exists_ store (Resolver.tenantId id) = true
      /\ Resolver.error (Resolver.validateTenant store (Resolver.tenantId id))
         <> Some "Tenant not found"
      /\ match Resolver.source id with
         | Resolver.Header =>
             Resolver.getHeaderValue req (Resolver.headerName o)
             = Some (Resolver.tenantId id)
         | Resolver.Query => True
         | Resolver.Env =>
             Resolver.tenantId id = "default" /\ Resolver.enableEnvFallback o = true
         | Resolver.Default => False
         end)
  /\ ((forall tid, Store.exists_ store tid = false) ->
      Resolver.resolveFromHttpRequest o store req = None).
Proof.
  split.
  - intros id H.
    assert (Hex : Store.exists_ store (Resolver.tenantId id) = true
                  /\ match Resolver.source id with
                     | Resolver.Header =>
                         Resolver.getHeaderValue req (Resolver.headerName o)
                         = Some (Resolver.tenantId id)
                     | Resolver.Query => True
                     | Resolver.Env =>
                         Resolver.tenantId id = "default"
                         /\ Resolver.enableEnvFallback o = true
                     | Resolver.Default => False
                     end).
    { unfold Resolver.resolveFromHttpRequest in H.
      destruct (Resolver.from_header o store req) as [r|] eqn:Hh.
      - injection H as ->. unfold Resolver.from_header in Hh.
        destruct (truthy (Resolver.headerName o)); [|discriminate].
        destruct (Resolver.getHeaderValue req (Resolver.headerName o)) as [v|];
          [|discriminate].
        destruct (truthy v); [|discriminate]. simpl in Hh.
        destruct (Store.exists_ store v) eqn:E; [|discriminate]. injection Hh as <-.
        simpl. now split.
      - destruct (Resolver.from_query o store req) as [r|] eqn:Hq.
        + injection H as ->. unfold Resolver.from_query in Hq.
          destruct (Resolver.query req) as [q|]; [|discriminate].
          destruct (truthy (Resolver.queryParam o)); [|discriminate].
          destruct (Resolver.prop (Resolver.queryParam o) q) as [v|]; [|discriminate].
          destruct (truthy v); [|discriminate]. simpl in Hq.
          destruct (Store.exists_ store v) eqn:E; [|discriminate]. injection Hq as <-.
          simpl. now split.
        + destruct (Resolver.from_path store req) as [r|] eqn:Hp.
          * injection H as ->. unfold Resolver.from_path in Hp.
            destruct (Resolver.url req) as [u|]; [|discriminate].
            destruct (Resolver.match_tenant u) as [v|]; [|discriminate].
            destruct (Store.exists_ store v) eqn:E; [|discriminate]. injection Hp as <-.
            simpl. now split.
          * unfold Resolver.from_fallback in H.
            destruct (Resolver.enableEnvFallback o); [|discriminate]. simpl in H.
            destruct (Store.exists_ store "default") eqn:E; [|discriminate].
            injection H as <-. simpl. now split. }
    destruct Hex as [Hex Hsrc]. split; [exact Hex|]. split; [|exact Hsrc].
    now apply validate_found.
  - intros Hnone. unfold Resolver.resolveFromHttpRequest, Resolver.from_header,
      Resolver.from_query, Resolver.from_path, Resolver.from_fallback.
    rewrite (Hnone "default"), andb_false_r.
    destruct (truthy (Resolver.headerName o));
      [destruct (Resolver.getHeaderValue req (Resolver.headerName o)) as [v|];
       [rewrite (Hnone v), andb_false_r|]|];
      (destruct (Resolver.query req) as [q|];
       [destruct (truthy (Resolver.queryParam o));
        [destruct (Resolver.prop (Resolver.queryParam o) q) as [v'|];
         [rewrite (Hnone v'), andb_false_r|]|]|]);
      (destruct (Resolver.url req) as [u|];
       [destruct (Resolver.match_tenant u) as [w|]; [rewrite (Hnone w)|]|]);
      reflexivity.
Qed.

Lemma resolveFromHttpRequest_sound_witness :
  Store.exists_ acme_store "acme" = true
  /\ Resolver.getHeaderValue header_request "x-tenant-id" = Some "acme".
Proof.
  destruct (resolveFromHttpRequest_sound default_options acme_store header_request)
    as [H _].
  destruct (H (Resolver.mkId "acme" Resolver.Header)) as (H1 & _ & H3).
  - vm_compute. reflexivity.
  - split; [exact H1 | exact H3].
Defined.



Lemma findIndex_tenant_first (pre rest : list string) :
  ~ In "--tenant" pre ->
  Resolver.findIndex_tenant (pre ++ "--tenant" :: rest)%list = Some (List.length pre).
Proof.
  induction pre as [|a pre IH]; simpl; intros H; [reflexivity|].
  destruct (String.eqb_spec a "--tenant") as [-> |_]; [exfalso; apply H; now left|].
  rewrite IH; [reflexivity|]. intros Hin. apply H. now right.
Qed.

Lemma nth_error_after (pre : list string) (x : string) (l : list string) :
  nth_error (pre ++ x :: l)%list (S (List.length pre)) = nth_error l 0.
Proof. induction pre as [|a pre IH]; simpl; [reflexivity | exact IH]. Qed.

(** X16. [resolveFromCLI]: what it returns names a tenant the store holds
    (source ['header'] is never used, source ['default'] is the id "default"
    with the fallback enabled).  Only the first [--tenant] flag counts: when
    the argument after it names a stored tenant that tenant wins over the
    environment variable; when it does not (unknown, empty, or missing), the
    result is what the call without arguments gives, later [--tenant] flags
    being ignored. *)
Theorem resolveFromCLI_first_flag (o : Resolver.Options) (store : TenantStore)
    (GHL_TENANT_ID : option string) :
  (forall args id,
      Resolver.resolveFromCLI o store args GHL_TENANT_ID = Some id ->
      Store.exists_ store (Resolver.tenantId id) = true
      /\ Resolver.source id <> Resolver.Header
      /\ (Resolver.source id = Resolver.Default ->
          Resolver.tenantId id = "default" /\ Resolver.enableEnvFallback o = true))
  /\ (forall pre v rest,
        ~ In "--tenant" pre -> v <> "" -> Store.exists_ store v = true ->
        Resolver.resolveFromCLI o store (Some (pre ++ "--tenant" :: v :: rest)%list)
          GHL_TENANT_ID
        = Some (Resolver.mkId v Resolver.Query))
  /\ (forall pre rest,
        ~ In "--tenant" pre ->
        match rest with
        | [] => True
        | v :: _ => v = "" \/ Store.exists_ store v = false
        end ->
        Resolver.resolveFromCLI o store (Some (pre ++ "--tenant" :: rest)%list)
          GHL_TENANT_ID
        = Resolver.resolveFromCLI o store None GHL_TENANT_ID).
Proof.
  split; [|split].
  - intros args id H. unfold Resolver.resolveFromCLI in H.
    destruct (Resolver.from_flag store args) as [r|] eqn:Hf.
    + injection H as ->. unfold Resolver.from_flag in Hf.
      destruct args as [a|]; [|discriminate].
      destruct (Resolver.findIndex_tenant a) as [i|]; [|discriminate].
      destruct (nth_error a (S i)) as [v|]; [|discriminate].
      destruct (truthy v); [|discriminate]. simpl in Hf.
      destruct (Store.exists_ store v) eqn:E; [|discriminate]. injection Hf as <-.
      simpl. split; [assumption|]. split; discriminate.
    + destruct (Resolver.from_env store GHL_TENANT_ID) as [r|] eqn:He.
      * injection H as ->. unfold Resolver.from_env in He.
        destruct GHL_TENANT_ID as [v|]; [|discriminate].
        destruct (truthy v); [|discriminate]. simpl in He.
        destruct (Store.exists_ store v) eqn:E; [|discriminate]. injection He as <-.
        simpl. split; [assumption|]. split; discriminate.
      * destruct (Resolver.enableEnvFallback o) eqn:Ef; [|discriminate]. simpl in H.
        destruct (Store.exists_ store "default") eqn:E; [|discriminate].
        injection H as <-. simpl. split; [assumption|]. split; [discriminate|]. auto.
  - intros pre v rest Hpre Hv Hex. unfold Resolver.resolveFromCLI, Resolver.from_flag.
    rewrite findIndex_tenant_first by assumption. rewrite nth_error_after. simpl.
    now rewrite (proj2 (truthy_true v) Hv), Hex.
  - intros pre rest Hpre Hrest. unfold Resolver.resolveFromCLI, Resolver.from_flag.
    rewrite findIndex_tenant_first by assumption. rewrite nth_error_after.
    destruct rest as [|v rest]; simpl; [reflexivity|].
    destruct Hrest as [-> |E]; [reflexivity|]. now rewrite E, andb_false_r.
Qed.

Lemma resolveFromCLI_first_flag_witness :
  Resolver.resolveFromCLI default_options acme_store
    (Some ["--verbose"; "--tenant"; "acme"]) (Some "default")
  = Some (Resolver.mkId "acme" Resolver.Query)
  /\ Resolver.resolveFromCLI default_options acme_store
       (Some ["--tenant"; "ghost"; "--tenant"; "acme"]) None
     = Resolver.resolveFromCLI default_options acme_store None None.
Proof.
  destruct (resolveFromCLI_first_flag default_options acme_store (Some "default"))
    as (_ & H2 & _).
  destruct (resolveFromCLI_first_flag default_options acme_store None) as (_ & _ & H3).
  split.
  - apply (H2 ["--verbose"] "acme" []).
    + intros [E|[]]. discriminate.
    + discriminate.
    + vm_compute. reflexivity.
  - apply (H3 [] ["ghost"; "--tenant"; "acme"]).
    + intros [].
    + right. vm_compute. reflexivity.
Defined.

(** X17. With the fallback switched off and nothing identifying a tenant,
    the HTTP and the command-line entry points resolve to none, but
    [resolveFromMCPMetadata] still falls back to the "default" tenant
    whenever the store holds one: it does not consult [enableEnvFallback].
    What it returns always names a tenant the store holds. *)
Theorem resolveFromMCPMetadata_ignores_fallback_switch (o : Resolver.Options)
    (store : TenantStore) :
  (forall m id,
      Resolver.resolveFromMCPMetadata store m = Some id ->
      Store.exists_ store (Resolver.tenantId id) = true)
  /\ (Store.exists_ store "default" = true ->
      (forall m, Resolver.resolveFromMCPMetadata store m <> None)
      /\ Resolver.resolveFromMCPMetadata store None
         = Some (Resolver.mkId "default" Resolver.Default)
      /\ (Resolver.enableEnvFallback o = false ->
          Resolver.resolveFromHttpRequest o store anonymous_request = None
          /\ Resolver.resolveFromCLI o store None None = None)).
Proof.
  split.
  - intros m id H. unfold Resolver.resolveFromMCPMetadata in H.
    destruct m as [v|].
    + destruct (truthy v); simpl in H.
      * destruct (Store.exists_ store v) eqn:E.
        -- now injection H as <-.
        -- destruct (Store.exists_ store "default") eqn:E'; [|discriminate].
           now injection H as <-.
      * destruct (Store.exists_ store "default") eqn:E'; [|discriminate].
        now injection H as <-.
    + destruct (Store.exists_ store "default") eqn:E'; [|discriminate].
      now injection H as <-.
  - intros Hd. split; [|split].
    + intros m. unfold Resolver.resolveFromMCPMetadata. rewrite Hd.
      destruct m as [v|]; [|discriminate].
      destruct (truthy v && Store.exists_ store v); discriminate.
    + unfold Resolver.resolveFromMCPMetadata. now rewrite Hd.
    + intros Hoff. split.
      * unfold Resolver.resolveFromHttpRequest, Resolver.from_header, Resolver.from_query,
          Resolver.from_path, Resolver.from_fallback. rewrite Hoff. simpl.
        unfold Resolver.getHeaderValue. simpl.
        now destruct (truthy (Resolver.headerName o)).
      * unfold Resolver.resolveFromCLI. simpl. now rewrite Hoff.
Qed.

Lemma resolveFromMCPMetadata_ignores_fallback_switch_witness :
  Resolver.resolveFromMCPMetadata two_tenant_store None
  = Some (Resolver.mkId "default" Resolver.Default)
  /\ Resolver.resolveFromHttpRequest (Resolver.new_options None None (Some false))
       two_tenant_store anonymous_request = None.
Proof.
  destruct (resolveFromMCPMetadata_ignores_fallback_switch
              (Resolver.new_options None None (Some false)) two_tenant_store)
    as [_ H].
  destruct H as (_ & H1 & H2); [vm_compute; reflexivity|].
  split; [exact H1|]. now destruct (H2 eq_refl).
Defined.

Lemma strip_prefix_Some (p : string) : forall s r,
  strip_prefix p s = Some r -> s = p ++ r.
Proof.
  induction p as [|a p IH]; intros s r H; simpl in H.
  - now injection H as ->.
  - destruct s as [|b s]; [discriminate|].
    destruct (Ascii.eqb_spec a b) as [-> |_]; [|discriminate].
    change (String b p ++ r) with (String b (p ++ r)). f_equal. now apply IH.
Qed.

Lemma strip_prefix_app (p r : string) : strip_prefix p (p ++ r) = Some r.
Proof.
  induction p as [|a p IH]; [reflexivity|].
  change (String a p ++ r) with (String a (p ++ r)). simpl.
  now rewrite Ascii.eqb_refl.
Qed.

Lemma take_segment_spec (s : string) :
  no_char "/" (Resolver.take_segment s) = true
  /\ exists post, s = Resolver.take_segment s ++ post
                  /\ (post = "" \/ exists r, post = String "/" r).
Proof.
  induction s as [|c s [IH1 (post & IH2 & IH3)]]; simpl.
  - split; [reflexivity|]. exists "". split; [reflexivity | now left].
  - destruct (Ascii.eqb_spec c "/") as [-> |Hc]; simpl.
    + split; [reflexivity|]. exists (String "/" s). split; [reflexivity|]. right. eauto.
    + split.
      * rewrite IH1, andb_true_r. apply negb_true_iff. now apply Ascii.eqb_neq.
      * exists post. split; [|assumption].
        change (String c (Resolver.take_segment s) ++ post)
          with (String c (Resolver.take_segment s ++ post)). now rewrite <- IH2.
Qed.

Lemma string_app_assoc (a b c : string) : (a ++ b) ++ c = a ++ (b ++ c).
Proof.
  induction a as [|x a IH]; [reflexivity|].
  change (String x ((a ++ b) ++ c) = String x (a ++ (b ++ c))). now rewrite IH.
Qed.

(** X18. The path pattern [/\/tenant\/([^\/]+)/].  A match captures a
    non-empty segment without slash that follows [/tenant/] in the URL and
    runs to the next slash or to the end of the URL (so a query string that
    follows the id directly is captured with it); and there is a match as
    soon as the URL contains [/tenant/] followed by a character other than a
    slash. *)
Theorem match_tenant_sound_and_complete (u : string) :
  (forall t,
      Resolver.match_tenant u = Some t ->
      t <> "" /\ no_char "/" t = true
      /\ exists pre post,
          u = pre ++ "/tenant/" ++ t ++ post
          /\ (post = "" \/ exists r, post = String "/" r))
  /\ (forall pre c rest,
        c <> "/"%char -> u = pre ++ "/tenant/" ++ String c rest ->
        Resolver.match_tenant u <> None).
Proof.
  split.
  - induction u as [|a u IH]; intros t H; [discriminate|].
    cbn [Resolver.match_tenant] in H.
    assert (Hrec : Resolver.match_tenant u = Some t ->
                   t <> "" /\ no_char "/" t = true
                   /\ exists pre post,
                       String a u = pre ++ "/tenant/" ++ t ++ post
                       /\ (post = "" \/ exists r, post = String "/" r)).
    { intros Hu. destruct (IH t Hu) as (H1 & H2 & pre & post & E & Hpost).
      split; [assumption|]. split; [assumption|].
      exists (String a pre), post. split; [|assumption]. now rewrite E. }
    destruct (strip_prefix "/tenant/" (String a u)) as [rest|] eqn:Hp; [|now apply Hrec].
    destruct (truthy (Resolver.take_segment rest)) eqn:Ht; [|now apply Hrec].
    injection H as <-. apply truthy_true in Ht.
    destruct (take_segment_spec rest) as (Hno & post & E & Hpost).
    split; [assumption|]. split; [assumption|].
    exists "", post. split; [|assumption].
    apply strip_prefix_Some in Hp. rewrite Hp. now rewrite <- E.
  - intros pre c rest Hc ->. induction pre as [|a pre IH].
    + change ("" ++ "/tenant/" ++ String c rest) with ("/tenant/" ++ String c rest).
      rewrite (match_tenant_hit _ (String c rest)).
      * discriminate.
      * apply strip_prefix_app.
      * simpl. destruct (Ascii.eqb_spec c "/"); [contradiction | reflexivity].
    + change (String a pre ++ "/tenant/" ++ String c rest)
        with (String a (pre ++ "/tenant/" ++ String c rest)).
      cbn [Resolver.match_tenant].
      destruct (strip_prefix "/tenant/" _) as [r|]; [|exact IH].
      destruct (truthy (Resolver.take_segment r)); [discriminate | exact IH].
Qed.

Lemma match_tenant_sound_and_complete_witness :
  Resolver.match_tenant "/api/tenant/acme?x=1" <> None
  /\ no_char "/" "acme?x=1" = true.
Proof.
  destruct (match_tenant_sound_and_complete "/api/tenant/acme?x=1") as [Hs Hc].
  split.
  - apply (Hc "/api" "a"%char "cme?x=1"); [discriminate | reflexivity].
  - destruct (Hs "acme?x=1") as (_ & H & _); [reflexivity | exact H].
Defined.

Lemma search_header_lowercase (lower : string) (hs : list (string * Resolver.HeaderValue)) :
  (forall e, In e hs -> toLowerCase (fst e) = fst e) ->
  Resolver.search_header lower hs
  = match Resolver.prop lower hs with
    | Some v => Resolver.first_value v
    | None => None
    end.
Proof.
  induction hs as [|[k v] hs IH]; intros H; simpl; [reflexivity|].
  assert (Hk : toLowerCase k = k) by (apply (H (k, v)); now left).
  rewrite Hk. destruct (String.eqb k lower); [reflexivity|].
  apply IH. intros e He. apply H. now right.
Qed.

(** X19. On headers as Node delivers them (names in lower case) the
    configured header name is matched without regard to its own case: the
    value returned is that of the header whose name is the configured name
    in lower case (the first element when the value is an array), an empty
    value included, and none when there is no header of that name.  The
    configured name is not one that a lookup finds on any plain object
    ([constructor], [__proto__]). *)
Theorem getHeaderValue_case_insensitive (req : Resolver.HttpRequest) (name : string) :
  (forall e, In e (Resolver.headers req) -> toLowerCase (fst e) = fst e) ->
  inherited_name (toLowerCase name) = false ->
  Resolver.getHeaderValue req name
  = match Resolver.prop (toLowerCase name) (Resolver.headers req) with
    | Some v => Resolver.first_value v
    | None => None
    end.
Proof.
  intros H _. unfold Resolver.getHeaderValue.
  rewrite (search_header_lowercase _ _ H).
  destruct (Resolver.prop (toLowerCase name) (Resolver.headers req)) as [v|];
    [|reflexivity].
  now destruct (Resolver.value_truthy v).
Qed.

Lemma getHeaderValue_case_insensitive_witness :
  Resolver.getHeaderValue header_request "X-Tenant-ID" = Some "acme"
  /\ Resolver.getHeaderValue
       (Resolver.mkReq [("x-tenant-id", Resolver.Single "")] None None) "X-Tenant-ID"
     = Some "".
Proof.
  split.
  - rewrite (getHeaderValue_case_insensitive header_request "X-Tenant-ID").
    + reflexivity.
    + intros e [<- |[]]. reflexivity.
    + reflexivity.
  - rewrite (getHeaderValue_case_insensitive
               (Resolver.mkReq [("x-tenant-id", Resolver.Single "")] None None)
               "X-Tenant-ID").
    + reflexivity.
    + intros e [<- |[]]. reflexivity.
    + reflexivity.
Defined.

(** ** Tenant configuration manager: validation, creation, deactivation, deletion *)

Lemma forallb_false_In {A} (P : A -> bool) (l : list A) (x : A) :
  In x l -> P x = false -> forallb P l = false.
Proof.
  intros Hin Hx. destruct (forallb P l) eqn:E; [|reflexivity].
  rewrite forallb_forall in E. rewrite (E x Hin) in Hx. discriminate.
Qed.

(** X20. A create request that fails validation is rejected with the
    validation error whatever the store holds, whatever the upstream test
    would answer and whatever the cipher: neither is consulted.  In
    particular an explicit id with a character outside letters, digits,
    underscore and hyphen (a space, say) is rejected with the id-format
    error as soon as name, credential and location id are not blank. *)
Theorem createTenant_validates_first (request : Manager.CreateTenantRequest) :
  (forall e C encryptionKey testConnection store idNow suffix iv now,
      Manager.validateCreateRequest request = Throw e ->
      Manager.createTenant C encryptionKey testConnection store request idNow suffix iv now
      = Throw e)
  /\ (forall id c,
        Manager.tenantId request = Some id ->
        In c (list_ascii_of_string id) -> Manager.is_id_char c = false ->
        Manager.blank (Manager.name request) = false ->
        Manager.blank (Manager.apiKey request) = false ->
        Manager.blank (Manager.locationId request) = false ->
        Manager.validateCreateRequest request = Throw TenantIdFormat).
Proof.
  split.
  - intros e C encryptionKey testConnection store idNow suffix iv now H.
    unfold Manager.createTenant. now rewrite H.
  - intros id c Hid Hc Hbad Hn Hk Hl. unfold Manager.validateCreateRequest.
    rewrite Hn, Hk, Hl, Hid.
    assert (Hne : id <> "") by (intros ->; destruct Hc).
    rewrite (truthy_opt_Some id Hne), (or_default_Some id "" Hne).
    unfold Manager.id_pattern. rewrite (forallb_false_In _ _ c Hc Hbad).
    now rewrite andb_false_r.
Qed.

Lemma createTenant_validates_first_witness :
  Manager.createTenant ToyCipher.cipher "secret" (fun _ => true) acme_store
    (Manager.mkCreate (Some "acme corp") "Acme" "k1" "L1" None None None)
    0 "abc" [] 2000
  = Throw TenantIdFormat.
Proof.
  destruct (createTenant_validates_first
              (Manager.mkCreate (Some "acme corp") "Acme" "k1" "L1" None None None))
    as [H1 H2].
  apply H1. apply (H2 "acme corp" " "%char).
  - reflexivity.
  - simpl. tauto.
  - reflexivity.
  - reflexivity.
  - reflexivity.
  - reflexivity.
Defined.

(** A name that is a single no-break space is blank, as for [trim()]. *)
Example no_break_space_name_is_blank :
  Manager.validateCreateRequest
    (Manager.mkCreate (Some "acme corp") (String "160"%char "") "" "L1" None None None)
  = Throw TenantNameRequired.
Proof. reflexivity. Qed.

Lemma with_apiKey_same (t : TenantConfig.t) :
  Manager.with_apiKey t (TenantConfig.apiKey t) = t.
Proof. now destruct t. Qed.

Lemma encrypt_truthy (C : Cipher) (encryptionKey : string) (iv : list byte) (text : string) :
  truthy (Manager.encrypt C encryptionKey iv text) = true.
Proof.
  unfold Manager.encrypt.
  destruct (gcmEncrypt C (scryptSync C encryptionKey) iv text) as [ct tag].
  apply truthy_true. intros E.
  assert (H : no_char ":" (toHex iv ++ ":" ++ toHex tag ++ ":" ++ toHex ct) = true)
    by now rewrite E.
  change (toHex iv ++ ":" ++ toHex tag ++ ":" ++ toHex ct)
    with (toHex iv ++ String ":" (toHex tag ++ ":" ++ toHex ct)) in H.
  rewrite no_char_app in H. cbn [no_char] in H. rewrite Ascii.eqb_refl in H.
  simpl in H. rewrite andb_false_r in H. discriminate.
Qed.

Lemma createTenant_Ok (C : Cipher) (encryptionKey : string)
    (testConnection : GHLConfig -> bool) (store store' : TenantStore)
    (request : Manager.CreateTenantRequest) (idNow : Z) (suffix : string)
    (iv : list byte) (now : Z) (t : TenantConfig.t) :
  Manager.createTenant C encryptionKey testConnection store request idNow suffix iv now
  = Ok (store', t) ->
  Manager.validateCreateRequest request = Ok tt
  /\ Store.exists_ store (create_id request idNow suffix) = false
  /\ Store.create store (create_config C encryptionKey request idNow suffix iv) now
     = Ok (store', t).
Proof.
  unfold Manager.createTenant. fold (create_id request idNow suffix).
  destruct (Manager.validateCreateRequest request) as [[]|e]; [|discriminate]. simpl.
  destruct (Store.exists_ store (create_id request idNow suffix)); [discriminate|].
  fold (create_config C encryptionKey request idNow suffix iv).
  destruct (Manager.testTenantConfig _ _ _ _ _) as [[]|e]; [|discriminate]. simpl.
  now intros H.
Qed.

(** X21. Create, then read.  After a successful [createTenant], under a
    cipher whose decryption inverts its encryption, [getTenant] for the
    created id returns the created record with the plaintext credential of
    the request: the id was not in the store before and is in it now, the
    record is active, stamped with the clock, and stored with the
    credential encrypted. *)
Theorem createTenant_then_getTenant (C : Cipher) (encryptionKey : string)
    (testConnection : GHLConfig -> bool) (store store' : TenantStore)
    (request : Manager.CreateTenantRequest) (idNow : Z) (suffix : string)
    (iv : list byte) (now : Z) (t : TenantConfig.t) :
  cipher_correct C ->
  Manager.createTenant C encryptionKey testConnection store request idNow suffix iv now
  = Ok (store', t) ->
  Store.exists_ store (TenantConfig.tenantId t) = false
  /\ Store.exists_ store' (TenantConfig.tenantId t) = true
  /\ Store.get store' (TenantConfig.tenantId t) = Some t
  /\ TenantConfig.apiKey t = Manager.encrypt C encryptionKey iv (Manager.apiKey request)
  /\ Manager.getTenant C encryptionKey store' (TenantConfig.tenantId t)
     = Some (Manager.with_apiKey t (Manager.apiKey request))
  /\ TenantConfig.isActive t = true
  /\ TenantConfig.createdAt t = now /\ TenantConfig.updatedAt t = now
  /\ TenantConfig.name t = Manager.name request
  /\ TenantConfig.locationId t = Manager.locationId request.
Proof.
  intros HC H. apply createTenant_Ok in H as (_ & Hnew & Hcr).
  apply Store_create_Ok in Hcr as [-> G]. simpl in *.
  split; [exact Hnew|]. split; [apply Store_exists_is_Some; rewrite G; eauto|].
  split; [exact G|]. split; [reflexivity|]. split.
  - unfold Manager.getTenant. rewrite G. simpl.
    now rewrite (decrypt_encrypt C encryptionKey iv _ HC).
  - repeat split.
Qed.

Lemma createTenant_then_getTenant_witness :
  exists store' t,
    Manager.createTenant ToyCipher.cipher "secret" (fun _ => true) (InMemory ∅)
      acme_request 0 "abc" [x01; x02] 2000 = Ok (store', t)
    /\ Manager.getTenant ToyCipher.cipher "secret" store' (TenantConfig.tenantId t)
       = Some (Manager.with_apiKey t "k1").
Proof.
  destruct (Manager.createTenant ToyCipher.cipher "secret" (fun _ => true) (InMemory ∅)
              acme_request 0 "abc" [x01; x02] 2000) as [[s' t]|e] eqn:E.
  - exists s', t. split; [reflexivity|].
    destruct (createTenant_then_getTenant ToyCipher.cipher "secret" (fun _ => true)
                (InMemory ∅) s' acme_request 0 "abc" [x01; x02] 2000 t
                toy_cipher_correct E) as (_ & _ & _ & _ & H & _).
    exact H.
  - vm_compute in E. discriminate.
Defined.

(** X22. The live test of [createTenant] is made with the encrypted
    credential.  For a valid request with a new id, the call succeeds or
    fails by the answer of the upstream test to a client configuration
    whose access token is the cipher text [iv:authTag:ciphertext]; the
    answer the upstream would give to the plaintext credential plays no
    part. *)
Theorem createTenant_tests_cipher_text (C : Cipher) (encryptionKey : string)
    (testConnection : GHLConfig -> bool) (store : TenantStore)
    (request : Manager.CreateTenantRequest) (idNow : Z) (suffix : string)
    (iv : list byte) (now : Z) :
  Manager.validateCreateRequest request = Ok tt ->
  Store.exists_ store (create_id request idNow suffix) = false ->
  Manager.createTenant C encryptionKey testConnection store request idNow suffix iv now
  = if testConnection
         (mkGHLConfig (Manager.encrypt C encryptionKey iv (Manager.apiKey request))
            (or_default (Manager.baseUrl request) "https://services.leadconnectorhq.com")
            (or_default (Manager.version request) "2021-07-28")
            (Manager.locationId request))
    then Store.create store (create_config C encryptionKey request idNow suffix iv) now
    else Throw InvalidTenantConfiguration.
Proof.
  intros Hv Hnew.
  assert (Hloc : truthy (Manager.locationId request) = true).
  { unfold Manager.validateCreateRequest in Hv.
    destruct (Manager.blank (Manager.name request)); [discriminate|].
    destruct (Manager.blank (Manager.apiKey request)); [discriminate|].
    destruct (Manager.blank (Manager.locationId request)) eqn:B; [discriminate|].
    unfold Manager.blank in B. apply orb_false_elim in B as [B _].
    now apply negb_false_iff in B. }
  unfold Manager.createTenant.
  fold (create_id request idNow suffix). rewrite Hv, Hnew. simpl.
  unfold Manager.testTenantConfig.
  rewrite encrypt_truthy, Hloc. simpl.
  assert (Hd : forall s d,
             (if truthy (or_default s d) then or_default s d else d) = or_default s d).
  { intros [x|] d; simpl.
    - destruct (truthy x) eqn:Ex; [now rewrite Ex|]. now destruct (truthy d).
    - now destruct (truthy d). }
  rewrite !Hd.
  destruct (testConnection _); reflexivity.
Qed.

Lemma createTenant_tests_cipher_text_witness :
  Manager.createTenant ToyCipher.cipher "secret"
    (fun c => String.eqb (accessToken c) "k1") (InMemory ∅) acme_request
    0 "abc" [x01; x02] 2000
  = Throw InvalidTenantConfiguration.
Proof.
  rewrite (createTenant_tests_cipher_text ToyCipher.cipher "secret"
             (fun c => String.eqb (accessToken c) "k1") (InMemory ∅) acme_request
             0 "abc" [x01; x02] 2000).
  - reflexivity.
  - reflexivity.
  - vm_compute. reflexivity.
Defined.

Lemma Store_update_isActive (s : TenantStore) : forall s' tid config now u b,
  PartialConfig.isActive config = Some b ->
  Store.update s tid config now = Ok (s', u) ->
  TenantConfig.isActive u = b.
Proof.
  induction s as [tenants|d|p IHp f IHf]; intros s' tid config now u b Hb H; simpl in H.
  - unfold InMemoryTenantStore.update in H.
    destruct (InMemoryTenantStore.get tenants tid); [|discriminate].
    simpl in H. injection H as _ <-. simpl. now rewrite Hb.
  - discriminate.
  - destruct (Store.exists_ p tid).
    + destruct (Store.update p tid config now) as [[p' t']|e] eqn:U; [|discriminate].
      simpl in H. injection H as _ <-. now apply (IHp _ _ _ _ _ _ Hb U).
    + destruct (Store.get f tid) as [ft|]; [|discriminate].
      destruct (Store.create p _ now) as [[p' t']|e] eqn:Cr; [|discriminate].
      simpl in H. injection H as _ <-.
      apply Store_create_Ok in Cr as [-> _]. simpl. now rewrite Hb.
Qed.

(** X23. Deactivation.  [setTenantActive(id, false)] makes no upstream
    test (its outcome is the same whatever the upstream would answer); on an
    id the store does not hold it throws "not found"; and when it succeeds
    the tenant is stored inactive, so the resolver's validation rejects it
    with "Tenant is not active" and the tenant's cached clients are gone. *)
Theorem setTenantActive_false_deactivates (C : Cipher) (encryptionKey : string)
    (testConnection : GHLConfig -> bool) (store : TenantStore) (g : Factory.Instance)
    (tid : string) (iv : list byte) (now : Z) :
  store_wf store ->
  (forall testConnection',
      Manager.setTenantActive C encryptionKey testConnection' store g tid false iv now
      = Manager.setTenantActive C encryptionKey testConnection store g tid false iv now)
  /\ (Store.get store tid = None ->
      Manager.setTenantActive C encryptionKey testConnection store g tid false iv now
      = Throw (TenantNotFound tid))
  /\ (forall store' g' u,
        Manager.setTenantActive C encryptionKey testConnection store g tid false iv now
        = Ok (store', g', u) ->
        TenantConfig.isActive u = false
        /\ Resolver.validateTenant store' tid
           = Resolver.mkValidation false (Some "Tenant is not active")
        /\ exists f, g' = Some f
                     /\ forall e, In e (Factory.clientCache f) ->
                                  Factory.tenantId (snd e) <> tid).
Proof.
  intros Hwf. split; [|split].
  - intros testConnection'. reflexivity.
  - intros G. unfold Manager.setTenantActive, Manager.updateTenant. now rewrite G.
  - intros store' g' u H. unfold Manager.setTenantActive, Manager.updateTenant in H.
    destruct (Store.get store tid) as [existing|]; [|discriminate].
    simpl in H.
    destruct (Store.update store tid _ now) as [[s1 u1]|e] eqn:U; [|discriminate].
    simpl in H. injection H as <- <- <-.
    set (upd := Manager.prepare_update C encryptionKey
                  (Manager.mkUpdate None None None None None None (Some false)) iv) in U.
    pose proof (Store_update_isActive store s1 tid upd now u1 false eq_refl U) as Ha.
    destruct (Store_update_Ok store s1 tid upd now u1 Hwf eq_refl U) as (_ & G & _).
    split; [exact Ha|]. split.
    + unfold Resolver.validateTenant. rewrite G, Ha. reflexivity.
    + eexists. split; [reflexivity|]. intros e He.
      now apply clearTenantCache_spec in He as [_ He].
Qed.

Lemma setTenantActive_false_deactivates_witness :
  Factory.map_size (Factory.clientCache mixed_factory) = 3
  /\ exists store' f u,
      Manager.setTenantActive ToyCipher.cipher "secret" (fun _ => false) two_tenant_store
        (Some mixed_factory) "acme" false [] 5000
      = Ok (store', Some f, u)
      /\ TenantConfig.isActive u = false
      /\ Resolver.validateTenant store' "acme"
         = Resolver.mkValidation false (Some "Tenant is not active")
      /\ forall e, In e (Factory.clientCache f) -> Factory.tenantId (snd e) <> "acme".
Proof.
  split; [reflexivity|].
  destruct (Manager.setTenantActive ToyCipher.cipher "secret" (fun _ => false)
              two_tenant_store (Some mixed_factory) "acme" false [] 5000)
    as [[[store' g'] u]|e] eqn:E; [|vm_compute in E; discriminate].
  destruct (setTenantActive_false_deactivates ToyCipher.cipher "secret" (fun _ => false)
              two_tenant_store (Some mixed_factory) "acme" [] 5000 two_tenant_store_wf)
    as (_ & _ & H).
  destruct (H store' g' u E) as (Hu & Hv & f & -> & Hf).
  exists store', f, u. now repeat split.
Defined.

(** X24. Deletion.  [deleteTenant("default")] throws and changes nothing,
    whatever the state.  For any other id, on the server's store (in-memory
    primary over the environment fallback), it returns whether the primary
    held the id; afterwards the id no longer exists, every other id
    resolves as before, and the factory holds no client of that tenant. *)
Theorem deleteTenant_behaviour (tenants : gmap string TenantConfig.t)
    (d : option TenantConfig.t) (g : Factory.Instance) (tid : string) :
  (forall store, Manager.deleteTenant store g "default" = (g, Throw CannotDeleteDefault))
  /\ (tid <> "default" ->
      exists f,
        Manager.deleteTenant (Composite (InMemory tenants) (EnvVar d)) g tid
        = (Some f,
           Ok (Composite (InMemory (delete tid tenants)) (EnvVar d),
               bool_decide (is_Some (tenants !! tid))))
        /\ Store.exists_ (Composite (InMemory (delete tid tenants)) (EnvVar d)) tid = false
        /\ (forall other, other <> tid ->
              Store.get (Composite (InMemory (delete tid tenants)) (EnvVar d)) other
              = Store.get (Composite (InMemory tenants) (EnvVar d)) other)
        /\ (forall e, In e (Factory.clientCache f) -> Factory.tenantId (snd e) <> tid)).
Proof.
  split; [reflexivity|]. intros Hne. unfold Manager.deleteTenant.
  destruct (String.eqb_spec tid "default") as [E|_]; [contradiction|].
  eexists. split; [reflexivity|]. split; [|split].
  - apply Store_exists_false. simpl. unfold InMemoryTenantStore.get, EnvVarTenantStore.get.
    rewrite lookup_delete_eq.
    destruct (String.eqb_spec tid "default"); [contradiction | reflexivity].
  - intros other Ho. simpl. unfold InMemoryTenantStore.get.
    now rewrite lookup_delete_ne by congruence.
  - intros e He. now apply clearTenantCache_spec in He as [_ He].
Qed.

Lemma deleteTenant_behaviour_witness :
  exists f,
    Manager.deleteTenant (Composite (InMemory {["acme" := acme_v1]}) (EnvVar None))
      (Some warm_factory) "acme"
    = (Some f,
       Ok (Composite (InMemory (delete "acme" {["acme" := acme_v1]})) (EnvVar None), true))
    /\ Factory.clientCache f = [].
Proof.
  destruct (deleteTenant_behaviour {["acme" := acme_v1]} None (Some warm_factory) "acme")
    as [_ H].
  destruct H as (f & H1 & _); [discriminate|].
  exists f. split; [exact H1|].
  vm_compute in H1. now injection H1 as <-.
Defined.

(** X25. Legacy plaintext credentials.  [getTenant] serves a stored record
    whose credential is not in the three-part cipher format exactly as it
    is stored; so the tenant that the environment store derives from
    [GHL_API_KEY] is served with that key whenever the key does not split
    into three parts at colons. *)
Theorem getTenant_serves_legacy_plaintext (C : Cipher) (encryptionKey : string)
    (store : TenantStore) (tid : string) (t : TenantConfig.t) :
  Store.get store tid = Some t ->
  List.length (split_on ":" (TenantConfig.apiKey t)) <> 3%nat ->
  Manager.getTenant C encryptionKey store tid = Some t.
Proof.
  intros G H. unfold Manager.getTenant. rewrite G.
  rewrite decrypt_not_three_parts by assumption. now rewrite with_apiKey_same.
Qed.

Lemma getTenant_serves_legacy_plaintext_witness :
  Manager.getTenant ToyCipher.cipher "secret" (createTenantStore (Some env_default))
    "default" = Some env_default.
Proof.
  apply getTenant_serves_legacy_plaintext.
  - reflexivity.
  - vm_compute. discriminate.
Defined.

(** ** Request context: request ids *)

Lemma no_underscore_uint (d : Decimal.uint) :
  no_char "_" (NilEmpty.string_of_uint d) = true.
Proof. induction d; simpl; auto. Qed.

Lemma no_underscore_decimal (n : Z) : no_char "_" (RequestContext.decimal n) = true.
Proof.
  unfold RequestContext.decimal. destruct (Z.to_int n) as [d|d]; simpl;
    apply no_underscore_uint.
Qed.

Lemma decimal_inj (a b : Z) : RequestContext.decimal a = RequestContext.decimal b -> a = b.
Proof.
  unfold RequestContext.decimal. intros E. apply DecimalZ.to_int_inj.
  assert (H : Some (Z.to_int a) = Some (Z.to_int b))
    by now rewrite <- !NilEmpty.isi, E.
  now injection H.
Qed.

(** X26. Request ids.  While the request counter is below 2^53,
    [RequestContext.create] increments it by one, and (when the extra
    metadata carries no id of its own) the id it assigns determines both the
    clock read and the counter value it was built from; so the contexts
    created one after the other in a process, at whatever times, carry
    different request ids until the counter reaches 2^53.  The counter
    and the clock reads are numbers that JavaScript holds exactly. *)
Theorem request_ids_are_distinct (counter counter' : Z) (tenant tenant' : TenantConfig.t)
    (source source' : RequestContext.Channel) (ua ua' ip ip' : option string)
    (now now1 now' now1' : Z) :
  0 <= counter < 2 ^ 53 -> 0 <= counter' < 2 ^ 53 ->
  0 <= now < 2 ^ 53 -> 0 <= now' < 2 ^ 53 ->
  snd (RequestContext.create counter tenant source
         (Some (RequestContext.mkPartial None None None ua ip)) now now1)
  = counter + 1
  /\ (RequestContext.getRequestId
        (fst (RequestContext.create counter tenant source
                (Some (RequestContext.mkPartial None None None ua ip)) now now1))
      = RequestContext.getRequestId
          (fst (RequestContext.create counter' tenant' source'
                  (Some (RequestContext.mkPartial None None None ua' ip')) now' now1')) ->
      counter = counter' /\ now = now')
  /\ (counter < counter' ->
      RequestContext.getRequestId
        (fst (RequestContext.create counter tenant source
                (Some (RequestContext.mkPartial None None None ua ip)) now now1))
      <> RequestContext.getRequestId
           (fst (RequestContext.create counter' tenant' source'
                   (Some (RequestContext.mkPartial None None None ua' ip')) now' now1'))).
Proof.
  intros Hc Hc' _ _.
  assert (Hi : RequestContext.increment counter = counter + 1).
  { unfold RequestContext.increment. destruct (Z.ltb_spec counter (2 ^ 53)); lia. }
  assert (Hi' : RequestContext.increment counter' = counter' + 1).
  { unfold RequestContext.increment. destruct (Z.ltb_spec counter' (2 ^ 53)); lia. }
  assert (Hinj : RequestContext.getRequestId
                   (fst (RequestContext.create counter tenant source
                           (Some (RequestContext.mkPartial None None None ua ip)) now now1))
                 = RequestContext.getRequestId
                     (fst (RequestContext.create counter' tenant' source'
                             (Some (RequestContext.mkPartial None None None ua' ip'))
                             now' now1')) ->
                 counter = counter' /\ now = now').
  { unfold RequestContext.getRequestId, RequestContext.create. simpl. intros E.
    change ("req_" ++ RequestContext.decimal now ++ "_"
            ++ RequestContext.decimal (RequestContext.increment counter)
            = "req_" ++ RequestContext.decimal now' ++ "_"
              ++ RequestContext.decimal (RequestContext.increment counter')) in E.
    rewrite Hi, Hi' in E.
    apply append_inv_head in E.
    pose proof (key_tenant_inj _ _ _ _ (no_underscore_decimal (counter + 1))
                  (no_underscore_decimal (counter' + 1)) E) as Hn.
    rewrite Hn in E. apply append_inv_head in E.
    change ("_" ++ RequestContext.decimal (counter + 1))
      with (String "_" (RequestContext.decimal (counter + 1))) in E.
    change ("_" ++ RequestContext.decimal (counter' + 1))
      with (String "_" (RequestContext.decimal (counter' + 1))) in E.
    injection E as E. apply decimal_inj in E. apply decimal_inj in Hn. lia. }
  split; [exact Hi|]. split; [exact Hinj|].
  intros Hlt E. apply Hinj in E. lia.
Qed.

Lemma request_ids_are_distinct_witness :
  RequestContext.getRequestId
    (fst (RequestContext.create 0 acme_v1 RequestContext.http
            (Some (RequestContext.mkPartial None None None None None)) 1700000000000 0))
  <> RequestContext.getRequestId
       (fst (RequestContext.create 1 acme_v1 RequestContext.http
               (Some (RequestContext.mkPartial None None None None None))
               1700000000000 0)).
Proof.
  destruct (request_ids_are_distinct 0 1 acme_v1 acme_v1 RequestContext.http
              RequestContext.http None None None None 1700000000000 0 1700000000000 0)
    as (_ & _ & H); try lia.
  apply H. lia.
Defined.

Example request_id_format :
  RequestContext.getRequestId
    (fst (RequestContext.create 41 acme_v1 RequestContext.http None 1700000000000 0))
  = "req_1700000000000_42".
Proof. reflexivity. Qed.

(** At 2^53 the counter no longer moves, and two contexts created in the
    same millisecond carry the same request id. *)
Example request_ids_repeat_at_2_53 :
  snd (RequestContext.create (2 ^ 53) acme_v1 RequestContext.http None 1700000000000 0)
  = 2 ^ 53
  /\ RequestContext.getRequestId
       (fst (RequestContext.create (2 ^ 53 - 1) acme_v1 RequestContext.http None
               1700000000000 0))
     = RequestContext.getRequestId
         (fst (RequestContext.create (2 ^ 53) acme_v1 RequestContext.http None
                 1700000000000 0)).
Proof. split; reflexivity. Qed.

(** ** Request middleware *)

(** X27. The tenant middleware, whatever the three reads of the store
    find.  An excluded path, and an unidentified request when no tenant is
    required, go on without context and without touching the request
    counter; an unidentified request when a tenant is required is answered
    400; an identified tenant failing validation is answered 403 with the
    validation's message; a tenant that passed validation and that the
    manager's read no longer finds is answered 404, and this is the only
    way to a 404: it does not occur while the store is unchanged between
    validation and the manager's read.  When the request goes on in a
    context, the tenant was resolved and passed validation, the context's
    tenant is the record the manager's read found for the resolved id, with
    its credential decrypted, [req.tenantId] is the id of that record (the
    resolved id when the store holds every record under its own id), the
    channel is HTTP, the counter (below 2^53) has advanced by one; and the
    tenant is active when the store is unchanged between validation and
    the manager's read. *)
Theorem tenant_middleware_outcomes (o : Middleware.Options) (ro : Resolver.Options)
    (atResolve atValidate atGet : TenantStore) (C : Cipher) (encryptionKey : string)
    (counter : Z) (req : Middleware.Request) (now now' : Z) :
  (Middleware.excluded o req = true ->
   Middleware.createTenantMiddleware o ro atResolve atValidate atGet C encryptionKey
     counter req now now' = (Middleware.Next, counter))
  /\ (Middleware.excluded o req = false ->
      Resolver.resolveFromHttpRequest ro atResolve (Middleware.http req) = None ->
      Middleware.createTenantMiddleware o ro atResolve atValidate atGet C encryptionKey
        counter req now now'
      = (if Middleware.requireTenant o
         then Middleware.Respond 400 "Tenant identification required"
                (Some "Please provide tenant ID via X-Tenant-ID header or tenant query parameter")
         else Middleware.Next, counter))
  /\ (forall id,
        Middleware.excluded o req = false ->
        Resolver.resolveFromHttpRequest ro atResolve (Middleware.http req) = Some id ->
        Resolver.valid (Resolver.validateTenant atValidate (Resolver.tenantId id)) = false ->
        Middleware.createTenantMiddleware o ro atResolve atValidate atGet C encryptionKey
          counter req now now'
        = (Middleware.Respond 403 "Invalid tenant"
             (Resolver.error (Resolver.validateTenant atValidate (Resolver.tenantId id))),
           counter))
  /\ (forall id,
        Middleware.excluded o req = false ->
        Resolver.resolveFromHttpRequest ro atResolve (Middleware.http req) = Some id ->
        Resolver.valid (Resolver.validateTenant atValidate (Resolver.tenantId id)) = true ->
        Store.get atGet (Resolver.tenantId id) = None ->
        Middleware.createTenantMiddleware o ro atResolve atValidate atGet C encryptionKey
          counter req now now'
        = (Middleware.Respond 404 "Tenant not found"
             (Some ("Tenant " ++ Resolver.tenantId id ++ " does not exist")),
           counter))
  /\ (forall e m,
        fst (Middleware.createTenantMiddleware o ro atResolve atValidate atGet C
               encryptionKey counter req now now') = Middleware.Respond 404 e m ->
        exists id,
          Resolver.resolveFromHttpRequest ro atResolve (Middleware.http req) = Some id
          /\ Resolver.valid (Resolver.validateTenant atValidate (Resolver.tenantId id))
             = true
          /\ Store.get atGet (Resolver.tenantId id) = None
          /\ atGet <> atValidate)
  /\ (forall tid ctx counter',
        Middleware.createTenantMiddleware o ro atResolve atValidate atGet C encryptionKey
          counter req now now' = (Middleware.NextInContext tid ctx, counter') ->
        (0 <= counter < 2 ^ 53 -> counter' = counter + 1)
        /\ RequestContext.getTenantId ctx = tid
        /\ RequestContext.source (RequestContext.metadata ctx) = RequestContext.http
        /\ exists id t,
            Resolver.resolveFromHttpRequest ro atResolve (Middleware.http req) = Some id
            /\ Resolver.valid (Resolver.validateTenant atValidate (Resolver.tenantId id))
               = true
            /\ Store.get atGet (Resolver.tenantId id) = Some t
            /\ RequestContext.tenant ctx
               = Manager.with_apiKey t
                   (Manager.decrypt C encryptionKey (TenantConfig.apiKey t))
            /\ (store_wf atGet -> tid = Resolver.tenantId id)
            /\ (atGet = atValidate ->
                TenantConfig.isActive (RequestContext.tenant ctx) = true)).
Proof.
  assert (Hvalid : forall tid,
             Resolver.valid (Resolver.validateTenant atValidate tid) = true ->
             exists t, Store.get atValidate tid = Some t /\ TenantConfig.isActive t = true).
  { intros tid Hv. unfold Resolver.validateTenant in Hv.
    destruct (Store.get atValidate tid) as [t|]; [|discriminate].
    destruct (TenantConfig.isActive t) eqn:Ha; [eauto | discriminate]. }
  unfold Middleware.createTenantMiddleware.
  split; [|split; [|split; [|split; [|split]]]].
  - now intros ->.
  - intros -> ->. now destruct (Middleware.requireTenant o).
  - intros id -> -> Hv. now rewrite Hv.
  - intros id -> -> Hv G. rewrite Hv. unfold Manager.getTenant. now rewrite G.
  - intros e m H. destruct (Middleware.excluded o req); [discriminate|].
    destruct (Resolver.resolveFromHttpRequest ro atResolve (Middleware.http req))
      as [id|]; [|destruct (Middleware.requireTenant o); discriminate].
    destruct (Resolver.valid (Resolver.validateTenant atValidate (Resolver.tenantId id)))
      eqn:Hv; simpl in H; [|discriminate].
    unfold Manager.getTenant in H.
    destruct (Store.get atGet (Resolver.tenantId id)) as [t|] eqn:G; [discriminate|].
    exists id. repeat split; try reflexivity; try assumption.
    intros ->. destruct (Hvalid _ Hv) as (t & G' & _). congruence.
  - intros tid ctx counter' H.
    destruct (Middleware.excluded o req); [discriminate|].
    destruct (Resolver.resolveFromHttpRequest ro atResolve (Middleware.http req))
      as [id|]; [|destruct (Middleware.requireTenant o); discriminate].
    destruct (Resolver.valid (Resolver.validateTenant atValidate (Resolver.tenantId id)))
      eqn:Hv; simpl in H; [|discriminate].
    unfold Manager.getTenant in H.
    destruct (Store.get atGet (Resolver.tenantId id)) as [t|] eqn:G; [|discriminate].
    simpl in H. injection H as <- <- <-. simpl.
    split; [|split; [reflexivity|split; [reflexivity|]]].
    + intros Hc. unfold RequestContext.increment.
      destruct (Z.ltb_spec counter (2 ^ 53)); lia.
    + exists id, t. repeat split; try reflexivity; try assumption.
      * intros Hwf. apply (Store_get_wf atGet _ t Hwf G).
      * intros ->. destruct (Hvalid _ Hv) as (t' & G' & Ha). congruence.
Qed.

Lemma tenant_middleware_outcomes_witness :
  exists ctx,
    Middleware.createTenantMiddleware (Middleware.mkOptions true (Some ["/health"]))
      default_options two_tenant_store two_tenant_store two_tenant_store
      ToyCipher.cipher "secret" 7 (plain_request header_request "/contacts") 0 0
    = (Middleware.NextInContext "acme" ctx, 8)
    /\ RequestContext.getTenantId ctx = "acme"
    /\ TenantConfig.isActive (RequestContext.tenant ctx) = true.
Proof.
  destruct (Middleware.createTenantMiddleware (Middleware.mkOptions true (Some ["/health"]))
              default_options two_tenant_store two_tenant_store two_tenant_store
              ToyCipher.cipher "secret" 7 (plain_request header_request "/contacts") 0 0)
    as [[| tid ctx | st e m] counter'] eqn:E; try (vm_compute in E; discriminate).
  destruct (tenant_middleware_outcomes (Middleware.mkOptions true (Some ["/health"]))
              default_options two_tenant_store two_tenant_store two_tenant_store
              ToyCipher.cipher "secret" 7 (plain_request header_request "/contacts") 0 0)
    as (_ & _ & _ & _ & _ & H).
  destruct (H tid ctx counter' E) as (Hc & Hid & _ & id & t & Hr & _ & _ & _ & Hwf & Ha).
  assert (Ei : id = Resolver.mkId "acme" Resolver.Header)
    by (vm_compute in Hr; now injection Hr).
  rewrite (Hwf two_tenant_store_wf), Ei in *. rewrite (Hc ltac:(lia)).
  exists ctx. split; [reflexivity|]. split; [exact Hid | now apply Ha].
Defined.

(** The end-to-end scenario of a store holding only "acme", fallback
    disabled, and a request that identifies no tenant. *)
Example unidentified_request_required_or_not :
  fst (Middleware.createTenantMiddleware (Middleware.mkOptions true None)
         (Resolver.new_options None None (Some false)) acme_store acme_store acme_store
         ToyCipher.cipher "secret" 0 (plain_request anonymous_request "/contacts") 0 0)
  = Middleware.Respond 400 "Tenant identification required"
      (Some "Please provide tenant ID via X-Tenant-ID header or tenant query parameter")
  /\ fst (Middleware.createTenantMiddleware (Middleware.mkOptions false None)
            (Resolver.new_options None None (Some false)) acme_store acme_store acme_store
            ToyCipher.cipher "secret" 0 (plain_request anonymous_request "/contacts") 0 0)
     = Middleware.Next.
Proof. split; vm_compute; reflexivity. Qed.

(** A tenant deleted between validation and the manager's read: 404. *)
Example tenant_deleted_between_reads :
  fst (Middleware.createTenantMiddleware (Middleware.mkOptions true None)
         default_options acme_store acme_store (InMemory ∅)
         ToyCipher.cipher "secret" 0 (plain_request header_request "/contacts") 0 0)
  = Middleware.Respond 404 "Tenant not found" (Some "Tenant acme does not exist").
Proof. vm_compute. reflexivity. Qed.

Lemma toLowerCase_length (s : string) : String.length (toLowerCase s) = String.length s.
Proof. induction s as [|c s IH]; simpl; congruence. Qed.

Lemma strip_bearer_scheme (scheme k : string) :
  toLowerCase scheme = "bearer" ->
  (forall c r, k = String c r -> Middleware.is_ws c = false) ->
  Middleware.strip_bearer (scheme ++ " " ++ k) = k.
Proof.
  intros Hs Hk.
  pose proof (toLowerCase_length scheme) as Hl. rewrite Hs in Hl. simpl in Hl.
  destruct scheme as [|c1 [|c2 [|c3 [|c4 [|c5 [|c6 [|c7 s]]]]]]]; try discriminate.
  unfold Middleware.strip_bearer.
  change ((String c1 (String c2 (String c3 (String c4 (String c5 (String c6 ""))))))
          ++ " " ++ k)
    with (String c1 (String c2 (String c3 (String c4 (String c5 (String c6
            (String " " k))))))).
  cbn [substring]. rewrite Hs. cbn [String.eqb Ascii.eqb Bool.eqb].
  cbn [String.length Nat.sub].
  assert (Hall : forall s, substring 0 (String.length s) s = s)
    by (induction s as [|c s IH]; simpl; congruence).
  rewrite Hall.
  change (Middleware.is_ws " ") with true. cbn iota.
  destruct k as [|c r]; [reflexivity|]. simpl. now rewrite (Hk c r eq_refl).
Qed.

(** X28. The admin middleware fails closed.  A request without an
    [Authorization] header, or with an empty one, is answered 401 whatever
    is configured.  The request goes on exactly when the header, stripped of
    a leading [Bearer] scheme, equals the configured non-empty admin key or
    is one of the configured admin tokens; so with no key and no token
    configured no request ever goes on.  The configured key is accepted
    behind the scheme in any letter case, provided it does not itself start
    with white space (the scheme's separator swallows it). *)
Theorem admin_middleware_fails_closed (o : Middleware.AdminOptions) :
  (forall authorization,
      truthy_opt authorization = false ->
      Middleware.createTenantAdminMiddleware o authorization
      = Middleware.Respond 401 "Unauthorized" (Some "Admin authentication required"))
  /\ (forall authorization,
        Middleware.createTenantAdminMiddleware o authorization = Middleware.Next <->
        exists h, authorization = Some h /\ h <> ""
                  /\ ((Middleware.adminApiKey o = Some (Middleware.strip_bearer h)
                       /\ Middleware.strip_bearer h <> "")
                      \/ exists tokens, Middleware.adminTokens o = Some tokens
                                        /\ In (Middleware.strip_bearer h) tokens))
  /\ (truthy_opt (Middleware.adminApiKey o) = false ->
      (forall tokens, Middleware.adminTokens o = Some tokens -> tokens = []) ->
      forall authorization,
        Middleware.createTenantAdminMiddleware o authorization <> Middleware.Next)
  /\ (forall scheme k,
        toLowerCase scheme = "bearer" ->
        Middleware.adminApiKey o = Some k -> k <> "" ->
        (forall c r, k = String c r -> Middleware.is_ws c = false) ->
        Middleware.createTenantAdminMiddleware o (Some (scheme ++ " " ++ k))
        = Middleware.Next).
Proof.
  assert (Hiff : forall authorization,
             Middleware.createTenantAdminMiddleware o authorization = Middleware.Next <->
             exists h, authorization = Some h /\ h <> ""
                  /\ ((Middleware.adminApiKey o = Some (Middleware.strip_bearer h)
                       /\ Middleware.strip_bearer h <> "")
                      \/ exists tokens, Middleware.adminTokens o = Some tokens
                                        /\ In (Middleware.strip_bearer h) tokens)).
  { intros authorization. unfold Middleware.createTenantAdminMiddleware.
    destruct authorization as [h|]; simpl.
    2:{ split; [discriminate|]. intros (h & H & _). discriminate. }
    destruct (truthy h) eqn:Hh; simpl.
    2:{ split; [discriminate|]. intros (h' & [= <-] & Hne & _).
        apply truthy_true in Hne. congruence. }
    apply truthy_true in Hh.
    destruct (Middleware.adminApiKey o) as [k|] eqn:Hk; simpl.
    - destruct (truthy k) eqn:Tk; simpl.
      + destruct (String.eqb_spec (Middleware.strip_bearer h) k) as [E|E].
        * split; [|reflexivity]. intros _. exists h. repeat split; [assumption|].
          left. rewrite E. split; [reflexivity|]. now apply truthy_true.
        * destruct (Middleware.adminTokens o) as [tokens|] eqn:Ht.
          -- destruct (existsb (String.eqb (Middleware.strip_bearer h)) tokens) eqn:Ex.
             ++ split; [|reflexivity]. intros _. exists h. repeat split; [assumption|].
                right. exists tokens. split; [reflexivity|].
                apply existsb_exists in Ex as (x & Hx & Ex).
                apply String.eqb_eq in Ex. now subst x.
             ++ split; [discriminate|]. intros (h' & [= <-] & _ & [[[= E'] _]|(tk & [= <-] & Hin)]).
                ** congruence.
                ** assert (existsb (String.eqb (Middleware.strip_bearer h)) tokens = true)
                     by (apply existsb_exists; exists (Middleware.strip_bearer h); split;
                         [assumption | apply String.eqb_refl]).
                   congruence.
          -- split; [discriminate|]. intros (h' & [= <-] & _ & [[[= E'] _]|(tk & [=] & _)]).
             congruence.
      + destruct (Middleware.adminTokens o) as [tokens|] eqn:Ht.
        * destruct (existsb (String.eqb (Middleware.strip_bearer h)) tokens) eqn:Ex.
          -- split; [|reflexivity]. intros _. exists h. repeat split; [assumption|].
             right. exists tokens. split; [reflexivity|].
             apply existsb_exists in Ex as (x & Hx & Ex).
             apply String.eqb_eq in Ex. now subst x.
          -- split; [discriminate|].
             intros (h' & [= <-] & _ & [[[= E'] Hne]|(tk & [= <-] & Hin)]).
             ** apply truthy_true in Hne. congruence.
             ** assert (existsb (String.eqb (Middleware.strip_bearer h)) tokens = true)
                  by (apply existsb_exists; exists (Middleware.strip_bearer h); split;
                      [assumption | apply String.eqb_refl]).
                congruence.
        * split; [discriminate|].
          intros (h' & [= <-] & _ & [[[= E'] Hne]|(tk & [=] & _)]).
          apply truthy_true in Hne. congruence.
    - destruct (Middleware.adminTokens o) as [tokens|] eqn:Ht.
      + destruct (existsb (String.eqb (Middleware.strip_bearer h)) tokens) eqn:Ex.
        * split; [|reflexivity]. intros _. exists h. repeat split; [assumption|].
          right. exists tokens. split; [reflexivity|].
          apply existsb_exists in Ex as (x & Hx & Ex).
          apply String.eqb_eq in Ex. now subst x.
        * split; [discriminate|].
          intros (h' & [= <-] & _ & [[[=] _]|(tk & [= <-] & Hin)]).
          assert (existsb (String.eqb (Middleware.strip_bearer h)) tokens = true)
            by (apply existsb_exists; exists (Middleware.strip_bearer h); split;
                [assumption | apply String.eqb_refl]).
          congruence.
      + split; [discriminate|].
        intros (h' & [= <-] & _ & [[[=] _]|(tk & [=] & _)]). }
  split; [|split; [exact Hiff|split]].
  - intros authorization H. unfold Middleware.createTenantAdminMiddleware. now rewrite H.
  - intros Hk Ht authorization H. apply Hiff in H as (h & _ & _ & [[E Hne]|(tk & E & Hin)]).
    + rewrite E in Hk. simpl in Hk. apply truthy_true in Hne. congruence.
    + rewrite (Ht _ E) in Hin. destruct Hin.
  - intros scheme k Hs Hk Hne Hws. apply Hiff.
    exists (scheme ++ " " ++ k). split; [reflexivity|]. split.
    + destruct scheme; [discriminate|]. discriminate.
    + left. rewrite (strip_bearer_scheme scheme k Hs Hws). now split.
Qed.

Lemma admin_middleware_fails_closed_witness :
  Middleware.createTenantAdminMiddleware (Middleware.mkAdmin (Some "s3cret") None)
    (Some "BEARER s3cret") = Middleware.Next
  /\ Middleware.createTenantAdminMiddleware (Middleware.mkAdmin (Some "") (Some []))
       (Some "Bearer ") <> Middleware.Next.
Proof.
  split.
  - destruct (admin_middleware_fails_closed (Middleware.mkAdmin (Some "s3cret") None))
      as (_ & _ & _ & H).
    apply (H "BEARER" "s3cret").
    + reflexivity.
    + reflexivity.
    + discriminate.
    + intros c r [= <- <-]. reflexivity.
  - destruct (admin_middleware_fails_closed (Middleware.mkAdmin (Some "") (Some [])))
      as (_ & _ & H & _).
    apply H.
    + reflexivity.
    + intros tokens [= <-]. reflexivity.
Defined.

(** ** Rate limiter: the periodic cleanup *)

Lemma swept_of_window (o : RateLimit.Options) (T : Z)
    (swept full : gmap string RateLimit.Entry) (t : string) (now : Z) :
  swept_of T swept full -> T <= now -> window_of o swept t now = window_of o full t now.
Proof.
  intros H Hn. unfold window_of. destruct (H t) as [->|(-> & e & -> & He)]; [reflexivity|].
  destruct (Z.ltb_spec (RateLimit.resetTime e) now); [reflexivity | lia].
Qed.

Lemma swept_of_mono (T T' : Z) (swept full : gmap string RateLimit.Entry) :
  swept_of T swept full -> T <= T' -> swept_of T' swept full.
Proof.
  intros H Hle t. destruct (H t) as [E|(E & e & F & He)]; [now left|].
  right. split; [assumption|]. exists e. split; [assumption | lia].
Qed.

Lemma swept_of_handle (o : RateLimit.Options) (T : Z)
    (swept full : gmap string RateLimit.Entry) (tid : option string) (now : Z) :
  swept_of T swept full -> T <= now ->
  snd (RateLimit.handle o swept tid now) = snd (RateLimit.handle o full tid now)
  /\ swept_of now (fst (RateLimit.handle o swept tid now))
       (fst (RateLimit.handle o full tid now)).
Proof.
  intros H Hn. destruct (truthy_opt tid) eqn:Htr.
  - destruct tid as [t|]; [|discriminate]. simpl in Htr. apply truthy_true in Htr.
    rewrite !(handle_outcome o _ t now Htr), !(handle_state o _ t now Htr).
    rewrite (swept_of_window o T swept full t now H Hn). split; [reflexivity|].
    intros t'. destruct (decide (t' = t)) as [->|Hne].
    + left. now rewrite !lookup_insert_eq.
    + rewrite !lookup_insert_ne by congruence.
      apply (swept_of_mono T now swept full H Hn).
  - rewrite !(handle_skip o _ tid now Htr). simpl. split; [reflexivity|].
    now apply (swept_of_mono T).
Qed.

Lemma swept_of_sweep (T : Z) (swept full : gmap string RateLimit.Entry) (now : Z) :
  swept_of T swept full -> T <= now -> swept_of now (RateLimit.sweep swept now) full.
Proof.
  intros H Hn t. rewrite sweep_lookup.
  destruct (H t) as [E|(E & e & F & He)]; rewrite E.
  - destruct (full !! t) as [e|] eqn:F; [|now left].
    destruct (Z.ltb_spec (RateLimit.resetTime e) now); [|now left].
    right. split; [reflexivity|]. now exists e.
  - right. split; [reflexivity|]. exists e. split; [assumption | lia].
Qed.

Lemma outcomes_swept (o : RateLimit.Options) (es : list RateLimit.Event) :
  forall T swept full,
    swept_of T swept full -> nondecreasing T es ->
    outcomes o swept es = outcomes o full (List.filter is_request es).
Proof.
  induction es as [|[tid now|now] es IH]; intros T swept full H Hes.
  - reflexivity.
  - destruct Hes as [Hn Hes]. simpl in Hn, Hes. simpl.
    destruct (swept_of_handle o T swept full tid now H Hn) as [-> H'].
    f_equal. exact (IH now _ _ H' Hes).
  - destruct Hes as [Hn Hes]. simpl in Hn, Hes. simpl.
    exact (IH now _ _ (swept_of_sweep T swept full now H Hn) Hes).
Qed.

(** X29. The periodic cleanup of the rate limiter is unobservable.  As long
    as the clock reads of the timer ticks and of the requests never go
    back, every request is answered (admitted with the same headers, or
    rejected with the same status, headers, message and retry delay)
    exactly as if no tick had ever run. *)
Theorem rate_limit_sweep_is_unobservable (o : RateLimit.Options)
    (st : gmap string RateLimit.Entry) (T : Z) (es : list RateLimit.Event) :
  nondecreasing T es ->
  outcomes o st es = outcomes o st (List.filter is_request es).
Proof.
  apply outcomes_swept. intros t. now left.
Qed.

Lemma rate_limit_sweep_is_unobservable_witness :
  outcomes (RateLimit.mkOptions 1000 1 None) ∅
    [RateLimit.Request (Some "acme") 0; RateLimit.Sweep 500;
     RateLimit.Request (Some "acme") 600; RateLimit.Sweep 1500;
     RateLimit.Request (Some "acme") 1600]
  = outcomes (RateLimit.mkOptions 1000 1 None) ∅
      [RateLimit.Request (Some "acme") 0; RateLimit.Request (Some "acme") 600;
       RateLimit.Request (Some "acme") 1600].
Proof.
  apply (rate_limit_sweep_is_unobservable (RateLimit.mkOptions 1000 1 None) ∅ 0
           [RateLimit.Request (Some "acme") 0; RateLimit.Sweep 500;
            RateLimit.Request (Some "acme") 600; RateLimit.Sweep 1500;
            RateLimit.Request (Some "acme") 1600]).
  simpl. lia.
Defined.

(** The hypothesis on the clock is needed: a tick whose clock read is ahead
    of the following request's drops a window that request still counts
    in, and the request is admitted instead of rejected. *)
Example sweep_observable_when_clock_goes_back :
  outcomes (RateLimit.mkOptions 1000 1 None) ∅
    [RateLimit.Request (Some "acme") 0; RateLimit.Sweep 1500;
     RateLimit.Request (Some "acme") 600]
  <> outcomes (RateLimit.mkOptions 1000 1 None) ∅
       [RateLimit.Request (Some "acme") 0; RateLimit.Request (Some "acme") 600].
Proof. vm_compute. discriminate. Qed.
